(** * mcp-glucose: session-multiplexed MCP transport and tool dispatch

    A shallow embedding of the three servers of the repository:

    - [StdioServer]  : src/index.ts        (stdio, three tools)
    - [HttpServer]   : src/http-server.ts  (single-tenant SSE, five tools)
    - [OAuthServer]  : the OAuth multi-tenant SSE server (AsyncLocalStorage
                       session context, per-session bearer tokens)

    JavaScript values are modelled by [Json]; a JavaScript [Map] by an
    insertion-ordered association list ([JsMap]); asynchronous handlers by
    programs ([Prog]) that run atomically up to their next suspension on
    I/O ([Await]), each suspended continuation carrying the
    AsyncLocalStorage store it was created under. *)

From Stdlib Require Import ZArith String Ascii List Bool Lia.
From stdpp Require Import base tactics option list strings.
Import ListNotations.
Local Open Scope string_scope.
Local Open Scope list_scope.
Local Open Scope Z_scope.
Set Warnings "-register-all".

(* ===================================================================== *)
(** ** JavaScript values *)
(* ===================================================================== *)

(** The values that cross the protocol boundary (tool arguments, query
    parameters, fields of collaborator responses).  Numbers are the
    integers; non-integral numbers and NaN are not represented. *)
Inductive Json : Type :=
| JUndefined
| JNull
| JBool (b : bool)
| JNum (n : Z)
| JStr (s : string)
| JArr (items : list Json)
| JObj (fields : list (string * Json)).

(** [!!v] of JavaScript. *)
Definition truthy (v : Json) : bool :=
  match v with
  | JUndefined | JNull => false
  | JBool b => b
  | JNum n => negb (n =? 0)
  | JStr s => negb (String.eqb s "")
  | JArr _ | JObj _ => true
  end.

(** [a || b]. *)
Definition js_or (a b : Json) : Json := if truthy a then a else b.

(** [a === b] where [b] is a string or [undefined]. *)
Definition strict_eq_str (a : Json) (b : option string) : bool :=
  match a, b with
  | JStr s, Some t => String.eqb s t
  | JUndefined, None => true
  | _, _ => false
  end.

(** [args?.key] for the optional argument record of a tool call. *)
Definition Args := option (list (string * Json)).

Fixpoint field (key : string) (fields : list (string * Json)) : Json :=
  match fields with
  | [] => JUndefined
  | (k, v) :: rest => if String.eqb k key then v else field key rest
  end.

Definition arg (args : Args) (key : string) : Json :=
  match args with
  | None => JUndefined
  | Some fields => field key fields
  end.

(* ===================================================================== *)
(** ** JavaScript [Map] with string keys *)
(* ===================================================================== *)

(** Entries in insertion order, as [Map.prototype.keys] enumerates them.
    A [Map] holds each key once; [jsmap_set] and [jsmap_delete] keep that
    (lemma [jsmap_set_NoDup], [jsmap_delete_NoDup]). *)
Definition JsMap (V : Type) : Type := list (string * V).

Section JsMapOps.
Context {V : Type}.

Fixpoint jsmap_get (k : string) (m : JsMap V) : option V :=
  match m with
  | [] => None
  | (k', v) :: m' => if String.eqb k k' then Some v else jsmap_get k m'
  end.

Fixpoint jsmap_set (k : string) (v : V) (m : JsMap V) : JsMap V :=
  match m with
  | [] => [(k, v)]
  | (k', v') :: m' =>
      if String.eqb k k' then (k, v) :: m' else (k', v') :: jsmap_set k v m'
  end.

Fixpoint jsmap_delete (k : string) (m : JsMap V) : JsMap V :=
  match m with
  | [] => []
  | (k', v') :: m' =>
      if String.eqb k k' then jsmap_delete k m' else (k', v') :: jsmap_delete k m'
  end.

Definition jsmap_keys (m : JsMap V) : list string := map fst m.

Definition jsmap_size (m : JsMap V) : nat := length m.
End JsMapOps.

(* ===================================================================== *)
(** ** Strings *)
(* ===================================================================== *)

(** [s.startsWith(p)] *)
Definition startsWith (p s : string) : bool := String.prefix p s.

(** [s.substring(n)] *)
Fixpoint substring_from (n : nat) (s : string) : string :=
  match n, s with
  | O, _ => s
  | S n', String _ s' => substring_from n' s'
  | S _, EmptyString => EmptyString
  end.

(** [s.includes(p)] *)
Fixpoint includes (p s : string) : bool :=
  String.prefix p s ||
  match s with
  | EmptyString => false
  | String _ s' => includes p s'
  end.

(** [s.split(':')]: the pieces between colons; never empty. *)
Fixpoint split_colon (s : string) : list string :=
  match s with
  | EmptyString => [EmptyString]
  | String c s' =>
      if Ascii.eqb c ":"%char then EmptyString :: split_colon s'
      else match split_colon s' with
           | [] => [String c EmptyString]
           | piece :: pieces => String c piece :: pieces
           end
  end.

(** Whether [s] contains a colon. *)
Fixpoint has_colon (s : string) : bool :=
  match s with
  | EmptyString => false
  | String c s' => Ascii.eqb c ":"%char || has_colon s'
  end.

Definition is_digit (c : ascii) : bool :=
  let n := nat_of_ascii c in (48 <=? n)%nat && (n <=? 57)%nat.

(** Longest prefix of decimal digits, and what follows it. *)
Fixpoint span_digits (s : string) : string * string :=
  match s with
  | EmptyString => (EmptyString, EmptyString)
  | String c s' =>
      if is_digit c then let '(d, r) := span_digits s' in (String c d, r)
      else (EmptyString, s)
  end.

(** A match of [/last (\d+) days?/] anchored at the start of [s]: the
    captured digits.  The greedy [\d+] takes the whole run of digits (it
    must be followed by a space, so giving digits back never helps), and
    the optional final [s] does not change whether there is a match. *)
Definition match_last_days_here (s : string) : option string :=
  if String.prefix "last " s then
    let '(digits, rest) := span_digits (substring_from 5 s) in
    if negb (String.eqb digits "") && String.prefix " day" rest
    then Some digits else None
  else None.

(** [s.match(/last (\d+) days?/)]: the first capture of the leftmost match. *)
Fixpoint match_last_days (s : string) : option string :=
  match match_last_days_here s with
  | Some d => Some d
  | None => match s with
            | EmptyString => None
            | String _ s' => match_last_days s'
            end
  end.

(** [parseInt] on a string of decimal digits, as the exact integer.
    JavaScript rounds a number beyond 2^53 to the nearest double; such a
    number of days is far outside the range of [Date] either way, so the
    date computed from it is invalid with and without the rounding. *)
Fixpoint parseInt_acc (acc : Z) (s : string) : Z :=
  match s with
  | EmptyString => acc
  | String c s' => parseInt_acc (10 * acc + (Z.of_nat (nat_of_ascii c) - 48)) s'
  end.

Definition parseInt (digits : string) : Z := parseInt_acc 0 digits.

(* ===================================================================== *)
(** ** Built-ins and the remote collaborator *)
(* ===================================================================== *)

(** A thrown JavaScript error: [error.message] and, for a failed HTTP
    call, [error.response?.data?.error] when the reply carries one. *)
Record JsError := {
  message : string;
  response_data_error : option string;
}.

(** [new Error(msg)], [new RangeError(msg)], [new TypeError(msg)] *)
Definition Error (msg : string) : JsError :=
  {| message := msg; response_data_error := None |}.

Inductive Result (A : Type) : Type :=
| Ok (a : A)
| Throw (e : JsError).
Arguments Ok {A} a.
Arguments Throw {A} e.

(** The parts of the JavaScript runtime the handlers call and that are not
    modelled further.  A [Date] is its time value in milliseconds, [None]
    for an Invalid Date. *)
Class Builtins := {
  (** [new Date().getTime()] when the handler reads the clock *)
  Date_now : Z;
  (** time value of [new Date(s)] for a string [s] *)
  Date_parse : string -> option Z;
  (** [d.toISOString()] of a valid date *)
  Date_toISOString : Z -> string;
  (** time value of [new Date(d.getFullYear(), d.getMonth(), d.getDate())] *)
  Date_localMidnight : Z -> Z;
  Date_toLocaleDateString : option Z -> string;
  Date_toLocaleTimeString : option Z -> string;
  String_toLowerCase : string -> string;
  (** [String(n)] of a number, [String(v)] of an array or object *)
  Number_toString : Z -> string;
  Object_toString : Json -> string;
  (** [JSON.stringify(v, null, 2)] *)
  JSON_stringify : Json -> string;
}.

(** [TimeClip] of ECMAScript: a time value is valid within 8.64e15 ms. *)
Definition TimeClip (t : Z) : option Z :=
  if Z.abs t <=? 8640000000000000 then Some t else None.

(** [d.toISOString()]: throws on an Invalid Date. *)
Definition toISOString `{Builtins} (d : option Z) : Result string :=
  match d with
  | Some t => Ok (Date_toISOString t)
  | None => Throw (Error "Invalid time value")
  end.

(** Conversion of a value inside a template literal. *)
Definition ToString `{Builtins} (v : Json) : string :=
  match v with
  | JStr s => s
  | JUndefined => "undefined"
  | JNull => "null"
  | JBool true => "true"
  | JBool false => "false"
  | JNum n => Number_toString n
  | JArr _ | JObj _ => Object_toString v
  end.

(** [new Date(v)] *)
Definition new_Date `{Builtins} (v : Json) : option Z :=
  match v with
  | JStr s => Date_parse s
  | JUndefined => None
  | JNull => Some 0
  | JBool b => Some (if b then 1 else 0)
  | JNum n => TimeClip n
  | JArr _ | JObj _ => Date_parse (Object_toString v)
  end.

(** api-client.ts: [GlucoseReading], [GlucoseStats]; the fields are
    whatever the remote reply held. *)
Record GlucoseReading := {
  value : Json;
  unit : Json;
  date : Json;
  source : Json;
}.

Record GlucoseStats := {
  count : Json;
  average : Json;
  min : Json;
  max : Json;
  stats_unit : Json;
}.

(** api-client.ts: a [HealthDataAPI] object is its constructor arguments. *)
Record HealthDataAPI := {
  baseURL : string;
  authToken : string;
  isBearer : bool;
}.

Record ReadingsParams := {
  rp_userId : Json;
  rp_startDate : Json;
  rp_endDate : Json;
  rp_limit : Json;
}.

Record StatsParams := {
  sp_userId : Json;
  sp_startDate : Json;
  sp_endDate : Json;
}.

(** A call on the collaborator client. *)
Inductive ApiCall : Type :=
| GetGlucoseReadings (params : ReadingsParams)
| GetLatestGlucose (userId : Json)
| GetGlucoseStats (params : StatsParams).

(** What the remote data API answers to each method of [HealthDataAPI]
    (the HTTP exchange itself is not modelled): the value the method
    resolves to, or the error it rejects with. *)
Class Collaborator := {
  remote_getGlucoseReadings : HealthDataAPI -> ReadingsParams -> Result (list GlucoseReading);
  remote_getLatestGlucose : HealthDataAPI -> Json -> Result (option GlucoseReading);
  remote_getGlucoseStats : HealthDataAPI -> StatsParams -> Result (option GlucoseStats);
}.

(** ** Handler code: collaborator calls and exceptions

    A computation yields the collaborator calls it made, in order, and
    either a value or the error it threw. *)
Definition Eff (A : Type) : Type := list (HealthDataAPI * ApiCall) * Result A.

Definition ret {A} (a : A) : Eff A := ([], Ok a).
Definition throw {A} (e : JsError) : Eff A := ([], Throw e).
Definition lift {A} (r : Result A) : Eff A := ([], r).

Definition bind {A B} (m : Eff A) (f : A -> Eff B) : Eff B :=
  match m with
  | (calls, Ok a) => let '(calls', r) := f a in (calls ++ calls', r)
  | (calls, Throw e) => (calls, Throw e)
  end.

(** [try { body } catch (error) { handler }] *)
Definition try_catch {A} (body : Eff A) (handler : JsError -> Eff A) : Eff A :=
  match body with
  | (calls, Ok a) => (calls, Ok a)
  | (calls, Throw e) => let '(calls', r) := handler e in (calls ++ calls', r)
  end.

Declare Scope eff_scope.
Delimit Scope eff_scope with eff.
Notation "'do' x <- m ; k" := (bind m (fun x => k))
  (at level 10, x name, m at level 100, k at level 200) : eff_scope.

Definition getGlucoseReadings `{Collaborator} (api : HealthDataAPI)
    (params : ReadingsParams) : Eff (list GlucoseReading) :=
  ([(api, GetGlucoseReadings params)], remote_getGlucoseReadings api params).

Definition getLatestGlucose `{Collaborator} (api : HealthDataAPI)
    (userId : Json) : Eff (option GlucoseReading) :=
  ([(api, GetLatestGlucose userId)], remote_getLatestGlucose api userId).

Definition getGlucoseStats `{Collaborator} (api : HealthDataAPI)
    (params : StatsParams) : Eff (option GlucoseStats) :=
  ([(api, GetGlucoseStats params)], remote_getGlucoseStats api params).

(* ===================================================================== *)
(** ** Tool descriptors and tool responses *)
(* ===================================================================== *)

Record PropertySchema := {
  prop_type : string;
  prop_description : string;
}.

Record InputSchema := {
  schema_type : string;
  properties : list (string * PropertySchema);
  required : list string;
}.

(** [Tool] of the MCP SDK: name, description, argument schema. *)
Record Tool := {
  name : string;
  description : string;
  inputSchema : InputSchema;
}.

Record ContentBlock := {
  type : string;
  text : string;
}.

(** The object a tool handler returns; [isError] is [None] where the
    handler leaves the field out. *)
Record ToolResponse := {
  content : list ContentBlock;
  isError : option bool;
}.

Definition text_content (s : string) : list ContentBlock :=
  [{| type := "text"; text := s |}].

(** The double-quote character, for the literals that contain it. *)
Definition dquote : string := String (ascii_of_nat 34) EmptyString.

Definition quoted (s : string) : string := dquote +:+ s +:+ dquote.

(** [process.env.X || ''] *)
Definition env_or_empty (v : option string) : string :=
  match v with
  | Some s => s
  | None => EmptyString
  end.

(** The [userId] property the single-tenant servers add to each schema:
    [`User identifier. Defaults to ${DEFAULT_USER_ID || 'configured user'}
    if not specified.`] *)
Definition userId_property (DEFAULT_USER_ID : string) : string * PropertySchema :=
  ("userId",
   {| prop_type := "string";
      prop_description :=
        "User identifier. Defaults to " +:+
        (if String.eqb DEFAULT_USER_ID "" then "configured user" else DEFAULT_USER_ID) +:+
        " if not specified." |}).

Definition query_property : string * PropertySchema :=
  ("query",
   {| prop_type := "string";
      prop_description :=
        "Search query for glucose data. Can include keywords like " +:+
        quoted "today" +:+ ", " +:+ quoted "yesterday" +:+ ", " +:+
        quoted "last week" +:+ ", " +:+ quoted "last 30 days" +:+
        ", or specific dates." |}).

Definition id_property : string * PropertySchema :=
  ("id",
   {| prop_type := "string";
      prop_description :=
        "The unique identifier for the reading. Format: " +:+
        quoted "reading:timestamp" +:+ " (e.g., " +:+
        quoted "reading:2024-01-15T10:30:00Z" +:+ ")" |}).

Definition startDate_property (example : bool) : string * PropertySchema :=
  ("startDate",
   {| prop_type := "string";
      prop_description :=
        if example
        then "Start date in ISO 8601 format (e.g., 2025-10-01T00:00:00Z). Optional."
        else "Start date in ISO 8601 format. Optional." |}).

Definition endDate_property (example : bool) : string * PropertySchema :=
  ("endDate",
   {| prop_type := "string";
      prop_description :=
        if example
        then "End date in ISO 8601 format (e.g., 2025-10-22T23:59:59Z). Optional."
        else "End date in ISO 8601 format. Optional." |}).

Definition limit_property : string * PropertySchema :=
  ("limit",
   {| prop_type := "number";
      prop_description := "Maximum number of readings to return (default: 1000)" |}).

Definition search_description : string :=
  "Search through glucose/blood sugar readings. Query can include date ranges or natural language.".

Definition fetch_description : string :=
  "Retrieve complete details for a specific glucose reading by ID. " +:+
  "Use this after finding readings with the search tool.".

Definition get_glucose_readings_description : string :=
  "Get glucose/blood sugar readings for a user within a date range. Returns glucose values in mg/dL with timestamps and sources.".

Definition get_latest_glucose_description : string :=
  "Get the most recent glucose/blood sugar reading for a user. Returns value, unit, timestamp, and source.".

Definition get_glucose_stats_description : string :=
  "Get glucose statistics (count, average, min, max) for a user within a date range. Useful for understanding glucose trends and patterns.".

Definition object_schema (props : list (string * PropertySchema))
    (req : list string) : InputSchema :=
  {| schema_type := "object"; properties := props; required := req |}.

(* ===================================================================== *)
(** ** The tool switch shared by http-server.ts and the OAuth server *)
(* ===================================================================== *)

Record DateRange := {
  r_startDate : string;
  r_endDate : string;
}.

(** [{ startDate: a.toISOString(), endDate: b.toISOString() }] *)
Definition iso_range `{Builtins} (a b : option Z) : Result DateRange :=
  match toISOString a with
  | Throw e => Throw e
  | Ok s =>
      match toISOString b with
      | Throw e => Throw e
      | Ok e => Ok {| r_startDate := s; r_endDate := e |}
      end
  end.

Definition day_ms : Z := 24 * 60 * 60 * 1000.

(** [parseGlucoseDateQuery(query)] *)
Definition parseGlucoseDateQuery `{Builtins} (query : string) : Result DateRange :=
  let now := Date_now in
  let lowerQuery := String_toLowerCase query in
  if includes "today" lowerQuery then
    let today := TimeClip (Date_localMidnight now) in
    iso_range today (Some now)
  else if includes "yesterday" lowerQuery then
    let yesterday := TimeClip (now - day_ms) in
    let yesterdayStart := yesterday ≫= (fun y => TimeClip (Date_localMidnight y)) in
    let yesterdayEnd := yesterdayStart ≫= (fun t => TimeClip (t + day_ms)) in
    iso_range yesterdayStart yesterdayEnd
  else
    match match_last_days lowerQuery with
    | Some digits =>
        let days := parseInt digits in
        let start := TimeClip (now - days * day_ms) in
        iso_range start (Some now)
    | None =>
        if includes "last week" lowerQuery then
          let start := TimeClip (now - 7 * day_ms) in
          iso_range start (Some now)
        else
          (* Default to last 7 days *)
          let start := TimeClip (now - 7 * day_ms) in
          iso_range start (Some now)
    end.

(** One element of [results] in the search tool. *)
Definition search_result `{Builtins} (reading : GlucoseReading) : Json :=
  let d := new_Date (date reading) in
  JObj [
    ("id", JStr ("reading:" +:+ ToString (date reading)));
    ("title", JStr ("Glucose: " +:+ ToString (value reading) +:+ " " +:+ ToString (unit reading)));
    ("text", JStr ("Glucose reading of " +:+ ToString (value reading) +:+ " " +:+
                   ToString (unit reading) +:+ " on " +:+ Date_toLocaleDateString d +:+
                   " at " +:+ Date_toLocaleTimeString d +:+ ". Source: " +:+
                   ToString (source reading)));
    ("url", JStr "https://healthmate.app")
  ].

(** [{ value: r.value, unit: r.unit, date: r.date, source: r.source }] *)
Definition reading_json (r : GlucoseReading) : Json :=
  JObj [("value", value r); ("unit", unit r); ("date", date r); ("source", source r)].

Definition stats_json (stats : GlucoseStats) : Json :=
  JObj [("count", count stats); ("average", average stats); ("min", min stats);
        ("max", max stats); ("unit", stats_unit stats)].

(** [{ content: [{ type: 'text', text }] }] *)
Definition ok_text (s : string) : ToolResponse :=
  {| content := text_content s; isError := None |}.

(** [{ content: [{ type: 'text', text }], isError: true }] *)
Definition error_text (s : string) : ToolResponse :=
  {| content := text_content s; isError := Some true |}.

(** [readings.find((r) => r.date === timestamp)] *)
Definition find_reading (timestamp : option string) (readings : list GlucoseReading)
    : option GlucoseReading :=
  List.find (fun r => strict_eq_str (date r) timestamp) readings.

Local Open Scope eff_scope.

(** [case 'search'] *)
Definition tool_search `{Builtins} `{Collaborator} (api : HealthDataAPI)
    (userId : Json) (args : Args) : Eff ToolResponse :=
  let query := arg args "query" in
  if negb (truthy query) then throw (Error "Query parameter is required")
  else
    match query with
    | JStr q =>
        do range <- lift (parseGlucoseDateQuery q);
        do readings <- getGlucoseReadings api
             {| rp_userId := userId; rp_startDate := JStr (r_startDate range);
                rp_endDate := JStr (r_endDate range); rp_limit := JNum 100 |};
        let results := map search_result readings in
        ret (ok_text (JSON_stringify (JObj [("results", JArr results)])))
    | _ => throw (Error "query.toLowerCase is not a function")
    end.

(** [case 'fetch'] *)
Definition tool_fetch `{Builtins} `{Collaborator} (api : HealthDataAPI)
    (userId : Json) (args : Args) : Eff ToolResponse :=
  let id := arg args "id" in
  if negb (truthy id) then throw (Error "ID parameter is required")
  else
    match id with
    | JStr id =>
        let pieces := split_colon id in
        let type := nth 0 pieces EmptyString in
        let timestamp := pieces !! 1%nat in
        if negb (String.eqb type "reading") then throw (Error ("Unknown type: " +:+ type))
        else
          (* Get readings around that timestamp *)
          let targetDate := new_Date (from_option JStr JUndefined timestamp) in
          let startDate := targetDate ≫= (fun t => TimeClip (t - 1 * 60 * 60 * 1000)) in
          let endDate := targetDate ≫= (fun t => TimeClip (t + 1 * 60 * 60 * 1000)) in
          do range <- lift (iso_range startDate endDate);
          do readings <- getGlucoseReadings api
               {| rp_userId := userId; rp_startDate := JStr (r_startDate range);
                  rp_endDate := JStr (r_endDate range); rp_limit := JNum 100 |};
          match find_reading timestamp readings with
          | None => throw (Error ("Reading not found for ID: " +:+ id))
          | Some reading =>
              let result := JObj [
                ("id", JStr id);
                ("title", JStr ("Glucose: " +:+ ToString (value reading) +:+ " " +:+
                                ToString (unit reading)));
                ("text", JStr (JSON_stringify (reading_json reading)));
                ("url", JStr "https://healthmate.app");
                ("metadata", JObj [
                   ("type", JStr "glucose_reading");
                   ("retrieved_at", JStr (Date_toISOString Date_now))])
              ] in
              ret (ok_text (JSON_stringify result))
          end
    | _ => throw (Error "id.split is not a function or its return value is not iterable")
    end.

(** [case 'get_glucose_readings'] *)
Definition tool_get_glucose_readings `{Builtins} `{Collaborator} (api : HealthDataAPI)
    (userId : Json) (args : Args) : Eff ToolResponse :=
  do readings <- getGlucoseReadings api
       {| rp_userId := userId; rp_startDate := arg args "startDate";
          rp_endDate := arg args "endDate";
          rp_limit := js_or (arg args "limit") (JNum 1000) |};
  ret (ok_text (JSON_stringify (JObj [
    ("count", JNum (Z.of_nat (length readings)));
    ("readings", JArr (map reading_json readings))]))).

(** [case 'get_latest_glucose'] *)
Definition tool_get_latest_glucose `{Builtins} `{Collaborator} (api : HealthDataAPI)
    (userId : Json) : Eff ToolResponse :=
  do reading <- getLatestGlucose api userId;
  match reading with
  | None => ret (ok_text "No glucose readings found for this user.")
  | Some reading => ret (ok_text (JSON_stringify (reading_json reading)))
  end.

(** [case 'get_glucose_stats'] *)
Definition tool_get_glucose_stats `{Builtins} `{Collaborator} (api : HealthDataAPI)
    (userId : Json) (args : Args) : Eff ToolResponse :=
  do stats <- getGlucoseStats api
       {| sp_userId := userId; sp_startDate := arg args "startDate";
          sp_endDate := arg args "endDate" |};
  match stats with
  | None => ret (ok_text "No glucose data found for the specified time range.")
  | Some stats => ret (ok_text (JSON_stringify (stats_json stats)))
  end.

(** [default: throw new Error(`Unknown tool: ${name}`)] *)
Definition unknown_tool {A} (name : string) : Eff A :=
  throw (Error ("Unknown tool: " +:+ name)).

(** [switch (name) { ... }] of http-server.ts and of the OAuth server. *)
Definition tool_switch `{Builtins} `{Collaborator} (api : HealthDataAPI)
    (userId : Json) (name : string) (args : Args) : Eff ToolResponse :=
  if String.eqb name "search" then tool_search api userId args
  else if String.eqb name "fetch" then tool_fetch api userId args
  else if String.eqb name "get_glucose_readings" then tool_get_glucose_readings api userId args
  else if String.eqb name "get_latest_glucose" then tool_get_latest_glucose api userId
  else if String.eqb name "get_glucose_stats" then tool_get_glucose_stats api userId args
  else unknown_tool name.

(* ===================================================================== *)
(** ** Asynchronous handlers *)
(* ===================================================================== *)

(** [SSEServerTransport] of the MCP SDK, as far as the servers use it: the
    session id the SDK minted for it and the response stream it writes to. *)
Record SSEServerTransport := {
  sessionId : string;
  res : nat;
}.

(** What a handler lets the outside see. *)
Inductive Obs : Type :=
| HttpReply (status : Z) (body : Json)
    (** [res.status(status).json(body)] / [.send(body)] *)
| ApiRequest (api : HealthDataAPI) (call : ApiCall)
    (** a request sent to the remote data API through client [api] *)
| ToolResult (r : ToolResponse)
    (** the value the tools/call handler resolves to *)
| ToolsList (tools : list Tool)
    (** the value the tools/list handler resolves to *)
| HandlerRejected (e : JsError)
    (** a request handler whose promise rejects *).

(** Handler code in continuation-passing style.  [Await] is a suspension
    on I/O: the only place where other handlers may run in between.
    [GetStore] and [Run] are [sessionContext.getStore()] and
    [await sessionContext.run(id, async () => fn)]; [Spawn] starts an
    asynchronous function without awaiting it.  The remaining
    instructions are the operations on the two module-level maps. *)
Inductive Prog : Type :=
| Done
| Await (k : Prog)
| Emit (o : Obs) (k : Prog)
| GetStore (k : option string -> Prog)
| Run (id : string) (fn : Prog) (k : Prog)
| Spawn (child : Prog) (k : Prog)
| TransportsGet (sid : string) (k : option SSEServerTransport -> Prog)
| TransportsSet (sid : string) (t : SSEServerTransport) (k : Prog)
| TransportsDelete (sid : string) (k : Prog)
| TransportsKeys (k : list string -> Prog)
| TokensGet (sid : string) (k : option string -> Prog)
| TokensSet (sid : string) (tok : string) (k : Prog)
| TokensDelete (sid : string) (k : Prog).

(** The module-level state of a server and what it has emitted so far. *)
Record Shared := {
  transports : JsMap SSEServerTransport;
  sessionTokens : JsMap string;
  log : list Obs;
}.

Definition set_transports (f : JsMap SSEServerTransport -> JsMap SSEServerTransport)
    (s : Shared) : Shared :=
  {| transports := f (transports s); sessionTokens := sessionTokens s; log := log s |}.

Definition set_sessionTokens (f : JsMap string -> JsMap string) (s : Shared) : Shared :=
  {| transports := transports s; sessionTokens := f (sessionTokens s); log := log s |}.

Definition emit (o : Obs) (s : Shared) : Shared :=
  {| transports := transports s; sessionTokens := sessionTokens s; log := log s ++ [o] |}.

(** A suspended continuation and the AsyncLocalStorage store it was
    created under. *)
Record Frame := {
  store : option string;
  code : Prog;
}.

(** A suspended task: the innermost continuation first, then the
    continuations of the callers awaiting it. *)
Definition Task : Type := list Frame.

(** The outcome of running code up to its next suspension: the state, the
    frames left suspended (none when the code ran to its end) and the
    tasks it spawned. *)
Definition Outcome : Type := Shared * Task * list Task.

(** Run [p] under store [c] until it suspends or ends. *)
Fixpoint exec (c : option string) (p : Prog) (s : Shared) : Outcome :=
  match p with
  | Done => (s, [], [])
  | Await k => (s, [{| store := c; code := k |}], [])
  | Emit o k => exec c k (emit o s)
  | GetStore k => exec c (k c) s
  | Run id fn k =>
      let '(s1, fs, sp) := exec (Some id) fn s in
      match fs with
      | [] => let '(s2, fs2, sp2) := exec c k s1 in (s2, fs2, sp ++ sp2)
      | _ :: _ => (s1, fs ++ [{| store := c; code := k |}], sp)
      end
  | Spawn child k =>
      let '(s1, fs, sp) := exec c child s in
      let '(s2, fs2, sp2) := exec c k s1 in
      (s2, fs2, sp ++ [fs] ++ sp2)
  | TransportsGet sid k => exec c (k (jsmap_get sid (transports s))) s
  | TransportsSet sid t k => exec c k (set_transports (jsmap_set sid t) s)
  | TransportsDelete sid k => exec c k (set_transports (jsmap_delete sid) s)
  | TransportsKeys k => exec c (k (jsmap_keys (transports s))) s
  | TokensGet sid k => exec c (k (jsmap_get sid (sessionTokens s))) s
  | TokensSet sid tok k => exec c k (set_sessionTokens (jsmap_set sid tok) s)
  | TokensDelete sid k => exec c k (set_sessionTokens (jsmap_delete sid) s)
  end.

(** Resume a suspended task: its innermost frame runs under its own
    store; when it ends, the caller below it continues under the
    caller's store. *)
Fixpoint resume (t : Task) (s : Shared) : Outcome :=
  match t with
  | [] => (s, [], [])
  | f :: callers =>
      let '(s1, fs, sp) := exec (store f) (code f) s in
      match fs with
      | [] => let '(s2, fs2, sp2) := resume callers s1 in (s2, fs2, sp ++ sp2)
      | _ :: _ => (s1, fs ++ callers, sp)
      end
  end.

(** The server: its state and the suspended tasks (a finished task stays
    in the list as [[]], so that indices are stable). *)
Record World := {
  shared : Shared;
  tasks : list Task;
}.

(** What the event loop does next: it starts a handler for an incoming
    request or event (outside any [sessionContext.run], so under no
    store), or it resumes suspended task [i]. *)
Inductive Action : Type :=
| Start (handler : Prog)
| Resume (i : nat).

Definition step (w : World) (a : Action) : World :=
  match a with
  | Start handler =>
      let '(s, fs, sp) := exec None handler (shared w) in
      {| shared := s; tasks := tasks w ++ [fs] ++ sp |}
  | Resume i =>
      match tasks w !! i with
      | None => w
      | Some t =>
          let '(s, fs, sp) := resume t (shared w) in
          {| shared := s; tasks := <[i := fs]> (tasks w) ++ sp |}
      end
  end.

Definition run (acts : list Action) (w : World) : World := foldl step w acts.

Definition initial : World :=
  {| shared := {| transports := []; sessionTokens := []; log := [] |}; tasks := [] |}.

(** *** Lexical reading of the session binding

    [resolve c p] answers every [sessionContext.getStore()] of [p] ahead
    of time: with the id of the innermost enclosing [sessionContext.run],
    and with [c] outside any. *)
Fixpoint resolve (c : option string) (p : Prog) : Prog :=
  match p with
  | Done => Done
  | Await k => Await (resolve c k)
  | Emit o k => Emit o (resolve c k)
  | GetStore k => resolve c (k c)
  | Run id fn k => Run id (resolve (Some id) fn) (resolve c k)
  | Spawn child k => Spawn (resolve c child) (resolve c k)
  | TransportsGet sid k => TransportsGet sid (fun t => resolve c (k t))
  | TransportsSet sid t k => TransportsSet sid t (resolve c k)
  | TransportsDelete sid k => TransportsDelete sid (resolve c k)
  | TransportsKeys k => TransportsKeys (fun keys => resolve c (k keys))
  | TokensGet sid k => TokensGet sid (fun tok => resolve c (k tok))
  | TokensSet sid tok k => TokensSet sid tok (resolve c k)
  | TokensDelete sid k => TokensDelete sid (resolve c k)
  end.

Definition resolve_frame (f : Frame) : Frame :=
  {| store := store f; code := resolve (store f) (code f) |}.

Definition resolve_task (t : Task) : Task := resolve_frame <$> t.

Definition resolve_outcome (o : Outcome) : Outcome :=
  let '(s, fs, sp) := o in (s, resolve_task fs, resolve_task <$> sp).

Definition resolve_world (w : World) : World :=
  {| shared := shared w; tasks := resolve_task <$> tasks w |}.

Definition resolve_action (a : Action) : Action :=
  match a with
  | Start handler => Start (resolve None handler)
  | Resume i => Resume i
  end.

(** [p] never asks for the store. *)
Fixpoint store_free (p : Prog) : Prop :=
  match p with
  | Done => True
  | Await k | Emit _ k | TransportsSet _ _ k | TransportsDelete _ k
  | TokensSet _ _ k | TokensDelete _ k => store_free k
  | GetStore _ => False
  | Run _ fn k | Spawn fn k => store_free fn /\ store_free k
  | TransportsGet _ k => forall t, store_free (k t)
  | TransportsKeys k => forall keys, store_free (k keys)
  | TokensGet _ k => forall tok, store_free (k tok)
  end.

(** *** From handler code to programs *)

(** The collaborator calls of a handler, each followed by the wait for
    its reply, then [k]. *)
Fixpoint after_calls (calls : list (HealthDataAPI * ApiCall)) (k : Prog) : Prog :=
  match calls with
  | [] => k
  | (api, call) :: rest => Emit (ApiRequest api call) (Await (after_calls rest k))
  end.

(** A tools/call handler as the SDK runs it: the handler's result, or the
    error it rejected with. *)
Definition settle (e : Eff ToolResponse) : Prog :=
  let '(calls, r) := e in
  after_calls calls
    match r with
    | Ok response => Emit (ToolResult response) Done
    | Throw err => Emit (HandlerRejected err) Done
    end.

(** A JSON-RPC message as the SDK hands it to the server. *)
Inductive Message : Type :=
| ListToolsRequest
| CallToolRequest (name : string) (arguments : Args)
| OtherMessage.

(** Process configuration ([process.env]). *)
Class Environment := {
  env_USER_ID : option string;
  STORAGE_API_URL : string;
  API_SECRET : string;
  BACKEND_URL : string;
  PUBLIC_URL : string;
}.

(** [transports.get(key)]: a key that is not a string is in no map. *)
Definition transports_get (key : Json) (k : option SSEServerTransport -> Prog) : Prog :=
  match key with
  | JStr sid => TransportsGet sid k
  | _ => k None
  end.

(** [!s] for a string that may be [undefined]. *)
Definition falsy_string (s : option string) : bool :=
  match s with
  | None => true
  | Some s => String.eqb s ""
  end.

(* ===================================================================== *)
(** ** src/index.ts: the stdio server *)
(* ===================================================================== *)

Module StdioServer.
Section Server.
Context `{Builtins} `{Collaborator} `{Environment}.

Definition DEFAULT_USER_ID : string := env_or_empty env_USER_ID.

(** [new HealthDataAPI(STORAGE_API_URL, API_SECRET)] *)
Definition api : HealthDataAPI :=
  {| baseURL := STORAGE_API_URL; authToken := API_SECRET; isBearer := false |}.

Definition tools : list Tool := [
  {| name := "get_glucose_readings";
     description := get_glucose_readings_description;
     inputSchema := object_schema
       [userId_property DEFAULT_USER_ID; startDate_property true;
        endDate_property true; limit_property] [] |};
  {| name := "get_latest_glucose";
     description := get_latest_glucose_description;
     inputSchema := object_schema [userId_property DEFAULT_USER_ID] [] |};
  {| name := "get_glucose_stats";
     description := get_glucose_stats_description;
     inputSchema := object_schema
       [userId_property DEFAULT_USER_ID; startDate_property false;
        endDate_property false] [] |}
].

Definition ListToolsRequestHandler : list Tool := tools.

Definition CallToolRequestHandler (name : string) (args : Args) : Eff ToolResponse :=
  let userId := js_or (arg args "userId") (JStr DEFAULT_USER_ID) in
  if negb (truthy userId) then
    ret (error_text
      "Error: userId is required. Either provide it in the tool call or set USER_ID environment variable.")
  else
    try_catch
      (if String.eqb name "get_glucose_readings" then tool_get_glucose_readings api userId args
       else if String.eqb name "get_latest_glucose" then tool_get_latest_glucose api userId
       else if String.eqb name "get_glucose_stats" then tool_get_glucose_stats api userId args
       else unknown_tool name)
      (fun error => ret (error_text ("Error: " +:+ message error))).
End Server.
End StdioServer.

(* ===================================================================== *)
(** ** src/http-server.ts: the single-tenant SSE server *)
(* ===================================================================== *)

Module HttpServer.
Section Server.
Context `{Builtins} `{Collaborator} `{Environment}.

Definition DEFAULT_USER_ID : string := env_or_empty env_USER_ID.

Definition api : HealthDataAPI :=
  {| baseURL := STORAGE_API_URL; authToken := API_SECRET; isBearer := false |}.

Definition TOOLS : list Tool := [
  {| name := "search";
     description := search_description;
     inputSchema := object_schema
       [query_property; userId_property DEFAULT_USER_ID] ["query"] |};
  {| name := "fetch";
     description := fetch_description;
     inputSchema := object_schema
       [id_property; userId_property DEFAULT_USER_ID] ["id"] |};
  {| name := "get_glucose_readings";
     description := get_glucose_readings_description;
     inputSchema := object_schema
       [userId_property DEFAULT_USER_ID; startDate_property true;
        endDate_property true; limit_property] [] |};
  {| name := "get_latest_glucose";
     description := get_latest_glucose_description;
     inputSchema := object_schema [userId_property DEFAULT_USER_ID] [] |};
  {| name := "get_glucose_stats";
     description := get_glucose_stats_description;
     inputSchema := object_schema
       [userId_property DEFAULT_USER_ID; startDate_property false;
        endDate_property false] [] |}
].

Definition ListToolsRequestHandler : list Tool := TOOLS.

Definition CallToolRequestHandler (name : string) (args : Args) : Eff ToolResponse :=
  let userId := js_or (arg args "userId") (JStr DEFAULT_USER_ID) in
  if negb (truthy userId) then
    ret (error_text
      "Error: userId is required. Either provide it in the tool call or set USER_ID environment variable.")
  else
    try_catch
      (tool_switch api userId name args)
      (fun error => ret (error_text ("Error: " +:+ message error))).

(** The SDK hands a message to the handler registered for it. *)
Definition handleMessage (body : Message) : Prog :=
  match body with
  | ListToolsRequest => Emit (ToolsList ListToolsRequestHandler) Done
  | CallToolRequest name args => settle (CallToolRequestHandler name args)
  | OtherMessage => Done
  end.

(** [transport.handlePostMessage(req, res)]: the SDK reads the request
    body, acknowledges it and hands the message over. *)
Definition handlePostMessage (transport : SSEServerTransport) (body : Message) : Prog :=
  Await (Emit (HttpReply 202 (JStr "Accepted")) (handleMessage body)).

(** [(transport as any).onclose] *)
Definition onclose (sessionId : string) : Prog :=
  TransportsDelete sessionId Done.

(** [app.get('/sse', ...)] *)
Definition get_sse (transport : SSEServerTransport) : Prog :=
  let sessionId := sessionId transport in
  TransportsSet sessionId transport
    (Await Done).

(** [app.post('/message', ...)] *)
Definition post_message (sessionId : Json) (body : Message) : Prog :=
  if negb (truthy sessionId) then
    Emit (HttpReply 400 (JStr "Missing sessionId parameter")) Done
  else
    transports_get sessionId (fun transport =>
      match transport with
      | None =>
          TransportsKeys (fun keys =>
            Emit (HttpReply 404 (JObj [
              ("error", JStr "Session not found");
              ("sessionId", sessionId);
              ("availableSessions", JArr (map JStr keys))])) Done)
      | Some transport => handlePostMessage transport body
      end).
End Server.
End HttpServer.

(* ===================================================================== *)
(** ** The OAuth multi-tenant SSE server *)
(* ===================================================================== *)

Module OAuthServer.

(** How [await server.connect(transport)] ends; when it throws, whether
    the response headers had been sent already. *)
Inductive ConnectOutcome : Type :=
| Connected
| ConnectFailed (headersSent : bool).

(** What reaches the server: the HTTP requests that touch the session
    state.  A POST to /message comes in two kinds, by what the SDK does
    with it once the server has found the transport: it takes the
    message, or [transport.handlePostMessage] throws; [headersSent]
    then tells whether the SDK had replied before it threw, as it does
    for a transport whose stream has ended.  (The close and error events
    of a stream are no requests: they resume the listeners that the
    handler of GET /sse has registered, and a stream that ends before
    there are listeners resumes nothing.) *)
Inductive Request : Type :=
| GET_sse (authorization : option string) (transport : SSEServerTransport)
    (connect : ConnectOutcome)
| POST_message (sessionId : Json) (body : Message)
| POST_message_refused (sessionId : Json) (body : Message) (headersSent : bool)
| GET_oauth_callback (code error : Json) (exchange : Result (option string))
    (uuid : string).

Section Server.
Context `{Builtins} `{Collaborator} `{Environment}.

(** [getCurrentAccessToken()] *)
Definition getCurrentAccessToken (k : option string -> Prog) : Prog :=
  GetStore (fun sessionId =>
    if falsy_string sessionId then k None
    else match sessionId with
         | Some sessionId => TokensGet sessionId k
         | None => k None
         end).

Definition tools : list Tool := [
  {| name := "search";
     description := search_description;
     inputSchema := object_schema [query_property] ["query"] |};
  {| name := "fetch";
     description := fetch_description;
     inputSchema := object_schema [id_property] ["id"] |};
  {| name := "get_glucose_readings";
     description := get_glucose_readings_description;
     inputSchema := object_schema
       [startDate_property true; endDate_property true; limit_property] [] |};
  {| name := "get_latest_glucose";
     description := get_latest_glucose_description;
     inputSchema := object_schema [] [] |};
  {| name := "get_glucose_stats";
     description := get_glucose_stats_description;
     inputSchema := object_schema
       [startDate_property false; endDate_property false] [] |}
].

(** The tools/list handler: builds the array anew on each call. *)
Definition ListToolsRequestHandler (k : list Tool -> Prog) : Prog := k tools.

Definition reauthenticate : ToolResponse :=
  error_text "❌ Error: No access token available. Please re-authenticate.".

(** [error.response?.data?.error || error.message || 'Unknown error'] *)
Definition errorMessage (error : JsError) : string :=
  match response_data_error error with
  | Some e => if String.eqb e "" then
                (if String.eqb (message error) "" then "Unknown error" else message error)
              else e
  | None => if String.eqb (message error) "" then "Unknown error" else message error
  end.

(** The tools/call handler from the point where it holds a token. *)
Definition call_tool (accessToken : string) (name : string) (args : Args)
    : Eff ToolResponse :=
  let userId := JStr "oauth-user" in
  try_catch
    (let api := {| baseURL := BACKEND_URL; authToken := accessToken; isBearer := true |} in
     tool_switch api userId name args)
    (fun error => ret (error_text ("❌ Error: " +:+ errorMessage error))).

(** The tools/call handler once [getCurrentAccessToken()] has answered. *)
Definition CallToolRequestHandler_with (accessToken : option string)
    (name : string) (args : Args) : Prog :=
  if falsy_string accessToken then Emit (ToolResult reauthenticate) Done
  else match accessToken with
       | Some accessToken => settle (call_tool accessToken name args)
       | None => Emit (ToolResult reauthenticate) Done
       end.

(** The tools/call handler. *)
Definition CallToolRequestHandler (name : string) (args : Args) : Prog :=
  getCurrentAccessToken (fun accessToken =>
    CallToolRequestHandler_with accessToken name args).

Definition handleMessage (body : Message) : Prog :=
  match body with
  | ListToolsRequest => ListToolsRequestHandler (fun tools => Emit (ToolsList tools) Done)
  | CallToolRequest name args => CallToolRequestHandler name args
  | OtherMessage => Done
  end.

(** [transport.handlePostMessage(req, res, req.body)] on a transport
    whose stream is established: the body is already parsed, so the SDK
    acknowledges and hands the message over without waiting on I/O. *)
Definition handlePostMessage (transport : SSEServerTransport) (body : Message) : Prog :=
  Emit (HttpReply 202 (JStr "Accepted")) (handleMessage body).

(** [transport.handlePostMessage] throws, and the [catch] of /message
    takes over.  On a transport whose stream has ended the SDK first
    replies 500 and then throws, so that the [catch] finds
    [res.headersSent] and adds nothing; had nothing been sent, the
    [catch] would reply itself.  No handler runs. *)
Definition handlePostMessage_throws (headersSent : bool)
    (transport : SSEServerTransport) (body : Message) : Prog :=
  if headersSent then
    Emit (HttpReply 500 (JStr "SSE connection not established")) Done
  else
    Emit (HttpReply 500 (JObj [("error", JStr "Failed to handle message")])) Done.

(** The bodies of the listeners of ['close'] and ['error']. *)
Definition on_close (sessionId : string) : Prog :=
  TransportsDelete sessionId (TokensDelete sessionId Done).

Definition on_error (sessionId : string) : Prog :=
  TransportsDelete sessionId (TokensDelete sessionId Done).

(** [req.on(event, listener)]: the listener is a callback of its own,
    which waits for the event of the request.  It exists from here on
    and not before: an event that the request emits earlier finds no
    listener and is lost. *)
Definition req_on (listener : Prog) (k : Prog) : Prog :=
  Spawn (Await listener) k.

(** The bearer token of the [Authorization] header. *)
Definition bearer_token (authorization : option string) : option string :=
  match authorization with
  | Some authHeader =>
      if startsWith "Bearer " authHeader then Some (substring_from 7 authHeader) else None
  | None => None
  end.

(** [app.get('/sse', ...)] *)
Definition get_sse (authorization : option string) (transport : SSEServerTransport)
    (connect : ConnectOutcome) : Prog :=
  let accessToken := bearer_token authorization in
  if falsy_string accessToken then
    Emit (HttpReply 401 (JObj [
      ("error", JStr "unauthorized");
      ("error_description", JStr "Bearer token required")])) Done
  else
    match accessToken with
    | None => Done
    | Some accessToken =>
        (* await server.connect(transport) *)
        Await
          match connect with
          | ConnectFailed headersSent =>
              if headersSent then Done
              else Emit (HttpReply 500 (JObj [
                     ("error", JStr "Failed to establish SSE connection")])) Done
          | Connected =>
              let sessionId := sessionId transport in
              TransportsSet sessionId transport
                (* await axios.post(introspect): the token is stored
                   whether the introspection succeeds or throws *)
                (Await
                  (TokensSet sessionId accessToken
                    (* Handle client disconnect *)
                    (req_on (on_close sessionId)
                      (* Handle errors *)
                      (req_on (on_error sessionId) Done))))
          end
    end.

(** The reply when no transport is registered under the id. *)
Definition no_connection : Prog :=
  Emit (HttpReply 404 (JObj [
    ("error",
     JStr "No active SSE connection for this session. Please connect to /sse first.")]))
    Done.

(** [app.post('/message', ...)], for any code [dispatch] standing for
    [transport.handlePostMessage] with the [catch] around it (no
    instruction of [Prog] throws: a dispatch that throws is
    [handlePostMessage_throws], which holds what the [catch] does). *)
Definition post_message_with (dispatch : SSEServerTransport -> Message -> Prog)
    (sessionId : Json) (body : Message) : Prog :=
  if negb (truthy sessionId) then
    Emit (HttpReply 400 (JObj [
      ("error", JStr "sessionId query parameter is required")])) Done
  else
    (* Look up the transport by sessionId *)
    match sessionId with
    | JStr sessionId =>
        TransportsGet sessionId (fun transport =>
          match transport with
          | None => no_connection
          | Some transport =>
              (* Set session context before handling message *)
              Run sessionId (dispatch transport body) Done
          end)
    | _ => no_connection (* a key that is not a string is in no map *)
    end.

Definition post_message : Json -> Message -> Prog :=
  post_message_with handlePostMessage.

Definition post_message_refused (headersSent : bool) : Json -> Message -> Prog :=
  post_message_with (handlePostMessage_throws headersSent).

(** [app.get('/oauth/callback', ...)]; [exchange] is the [access_token]
    of the token reply, [uuid] the session id drawn for it.  The body
    of the success reply stands for the HTML page showing the id. *)
Definition get_oauth_callback (code error : Json) (exchange : Result (option string))
    (uuid : string) : Prog :=
  if truthy error then
    Emit (HttpReply 400 (JStr ("OAuth error: " +:+ ToString error))) Done
  else if negb (truthy code) then
    Emit (HttpReply 400 (JStr "Missing authorization code")) Done
  else
    Await
      match exchange with
      | Ok access_token =>
          if falsy_string access_token then
            Emit (HttpReply 500 (JStr "Token exchange failed")) Done
          else
            match access_token with
            | Some access_token =>
                TokensSet uuid access_token
                  (Emit (HttpReply 200 (JObj [
                     ("title", JStr "Authorization Successful");
                     ("sessionId", JStr uuid)])) Done)
            | None => Done
            end
      | Throw _ => Emit (HttpReply 500 (JStr "Token exchange failed")) Done
      end.

Definition handler (r : Request) : Prog :=
  match r with
  | GET_sse authorization transport connect => get_sse authorization transport connect
  | POST_message sessionId body => post_message sessionId body
  | POST_message_refused sessionId body headersSent =>
      post_message_refused headersSent sessionId body
  | GET_oauth_callback code error exchange uuid =>
      get_oauth_callback code error exchange uuid
  end.

(** An event of the server's life: a request arrives, or a suspended
    handler goes on; the ['close'] or ['error'] event of a stream is the
    going on of the listener that waits for it. *)
Inductive Event : Type :=
| Arrives (r : Request)
| Continues (i : nat).

Definition action (e : Event) : Action :=
  match e with
  | Arrives r => Start (handler r)
  | Continues i => Resume i
  end.

Definition serve (events : list Event) (w : World) : World :=
  run (action <$> events) w.
End Server.
End OAuthServer.

(* ===================================================================== *)
(** ** Code that opens no stream under a given id *)
(* ===================================================================== *)

(** [p] stores no transport under [sid], whatever it reads. *)
Fixpoint never_registers (sid : string) (p : Prog) : Prop :=
  match p with
  | Done => True
  | Await k | Emit _ k | TransportsDelete _ k | TokensSet _ _ k | TokensDelete _ k =>
      never_registers sid k
  | TransportsSet sid' _ k => sid' <> sid /\ never_registers sid k
  | GetStore k => forall c, never_registers sid (k c)
  | Run _ fn k | Spawn fn k => never_registers sid fn /\ never_registers sid k
  | TransportsGet _ k => forall t, never_registers sid (k t)
  | TransportsKeys k => forall keys, never_registers sid (k keys)
  | TokensGet _ k => forall tok, never_registers sid (k tok)
  end.

Definition task_never_registers (sid : string) (t : Task) : Prop :=
  Forall (fun f => never_registers sid (code f)) t.

(** No transport under [sid], and no suspended handler about to store one. *)
Definition closed_for (sid : string) (w : World) : Prop :=
  jsmap_get sid (transports (shared w)) = None
  /\ Forall (task_never_registers sid) (tasks w).

(** The event is the arrival of a stream-open whose transport has id [sid]. *)
Definition opens_stream (sid : string) (e : OAuthServer.Event) : Prop :=
  match e with
  | OAuthServer.Arrives (OAuthServer.GET_sse _ transport _) => sessionId transport = sid
  | _ => False
  end.

(** Events in which no stream-open carries the empty string as the
    session id of its transport: the SDK mints random UUIDs. *)
Definition sdk_ids_nonempty (events : list OAuthServer.Event) : Prop :=
  Forall (fun e => ~ opens_stream "" e) events.

(* ===================================================================== *)
(** ** src/api-client.ts: the collaborator client over HTTP *)
(* ===================================================================== *)

(** The instance [axios.create] returns: what each request is sent with. *)
Record AxiosConfig := {
  ax_baseURL : string;
  ax_timeout : Z;
  ax_headers : list (string * string);
}.

(** The [constructor] of [HealthDataAPI]: the axios instance it creates. *)
Definition axios_create (api : HealthDataAPI) : AxiosConfig :=
  if isBearer api then
    (* OAuth Bearer token authentication *)
    {| ax_baseURL := baseURL api; ax_timeout := 30000;
       ax_headers := [("Authorization", "Bearer " +:+ authToken api)] |}
  else
    (* Legacy API secret authentication *)
    {| ax_baseURL := baseURL api; ax_timeout := 30000;
       ax_headers := [("X-API-Secret", authToken api)] |}.

(** A GET: the path, the pairs of the [URLSearchParams] appended to it
    (their encoding is the runtime's), and the [params] option handed to
    axios. *)
Record HttpRequest := {
  url : string;
  query : list (string * string);
  params : list (string * Json);
}.

(** How [client.get] settles: with [response.data], or with an error and
    its [error.response?.status]. *)
Inductive HttpOutcome : Type :=
| Resolves (data : Json)
| Rejects (status : option Z) (error : JsError).

(** The HTTP exchange and the number conversions of the runtime. *)
Class Axios := {
  axios_get : AxiosConfig -> HttpRequest -> HttpOutcome;
  (** [parseInt(v)], [parseFloat(v)] *)
  Number_parseInt : Json -> Json;
  Number_parseFloat : Json -> Json;
}.

(** [v.key] for the keys the client reads (none of them is a member of a
    prototype): a [TypeError] on [undefined] and [null], the field of an
    object, [undefined] on anything else. *)
Definition prop (v : Json) (key : string) : Result Json :=
  match v with
  | JUndefined =>
      Throw (Error ("Cannot read properties of undefined (reading '" +:+ key +:+ "')"))
  | JNull =>
      Throw (Error ("Cannot read properties of null (reading '" +:+ key +:+ "')"))
  | JObj fields => Ok (field key fields)
  | _ => Ok JUndefined
  end.

Definition result_bind {A B} (r : Result A) (f : A -> Result B) : Result B :=
  match r with
  | Ok a => f a
  | Throw e => Throw e
  end.

(** [{ value: s.value, unit: s.unit, date: s.start_date, source: s.source }] *)
Definition sample_reading (s : Json) : Result GlucoseReading :=
  result_bind (prop s "value") (fun v =>
  result_bind (prop s "unit") (fun u =>
  result_bind (prop s "start_date") (fun d =>
  result_bind (prop s "source") (fun src =>
  Ok {| value := v; unit := u; date := d; source := src |})))).

(** [samples.map((s) => ...)] on the elements of an array: the first
    element whose mapping throws ends it. *)
Fixpoint map_samples (samples : list Json) : Result (list GlucoseReading) :=
  match samples with
  | [] => Ok []
  | s :: rest =>
      result_bind (sample_reading s) (fun r =>
      result_bind (map_samples rest) (fun rs => Ok (r :: rs)))
  end.

(** [response.data.samples.map(...)] *)
Definition readings_of_data (data : Json) : Result (list GlucoseReading) :=
  result_bind (prop data "samples") (fun samples =>
    match samples with
    | JArr items => map_samples items
    | JUndefined =>
        Throw (Error "Cannot read properties of undefined (reading 'map')")
    | JNull => Throw (Error "Cannot read properties of null (reading 'map')")
    | _ => Throw (Error "response.data.samples.map is not a function")
    end).

(** [if (v) queryParams.append(key, v)] *)
Definition append_if_truthy `{Builtins} (key : string) (v : Json) : list (string * string) :=
  if truthy v then [(key, ToString v)] else [].

(** The request of [getGlucoseReadings]: [`/api/samples?${queryParams}`]. *)
Definition readings_request `{Builtins} (p : ReadingsParams) : HttpRequest :=
  let queryParams :=
    [("userId", ToString (rp_userId p)); ("type", "BloodGlucose")]
    ++ append_if_truthy "startDate" (rp_startDate p)
    ++ append_if_truthy "endDate" (rp_endDate p)
    ++ append_if_truthy "limit" (rp_limit p) in
  {| url := "/api/samples"; query := queryParams; params := [] |}.

(** [HealthDataAPI.getGlucoseReadings] *)
Definition client_getGlucoseReadings `{Builtins} `{Axios} (api : HealthDataAPI)
    (p : ReadingsParams) : Result (list GlucoseReading) :=
  match axios_get (axios_create api) (readings_request p) with
  | Resolves data => readings_of_data data
  | Rejects _ error => Throw error
  end.

(** [if (error.response?.status === 404) return null; throw error;] *)
Definition null_on_404 {A} (status : option Z) (error : JsError) : Result (option A) :=
  match status with
  | Some code => if code =? 404 then Ok None else Throw error
  | None => Throw error
  end.

(** The request of [getLatestGlucose]. *)
Definition latest_request (userId : Json) : HttpRequest :=
  {| url := "/api/samples/latest"; query := [];
     params := [("userId", userId); ("type", JStr "BloodGlucose")] |}.

(** [HealthDataAPI.getLatestGlucose]: an error thrown while the reply is
    read is caught as well and, having no response, thrown again. *)
Definition client_getLatestGlucose `{Axios} (api : HealthDataAPI) (userId : Json)
    : Result (option GlucoseReading) :=
  match axios_get (axios_create api) (latest_request userId) with
  | Resolves sample => result_bind (sample_reading sample) (fun r => Ok (Some r))
  | Rejects status error => null_on_404 status error
  end.

(** The object [getGlucoseStats] returns. *)
Definition stats_of_data `{Axios} (data : Json) : Result GlucoseStats :=
  result_bind (prop data "count") (fun c =>
  result_bind (prop data "average") (fun a =>
  result_bind (prop data "min") (fun lo =>
  result_bind (prop data "max") (fun hi =>
  result_bind (prop data "unit") (fun u =>
  Ok {| count := Number_parseInt c; average := Number_parseFloat a;
        min := Number_parseFloat lo; max := Number_parseFloat hi;
        stats_unit := u |}))))).

(** The request of [getGlucoseStats]: [`/api/samples/stats?${queryParams}`]. *)
Definition stats_request `{Builtins} (p : StatsParams) : HttpRequest :=
  let queryParams :=
    [("userId", ToString (sp_userId p)); ("type", "BloodGlucose")]
    ++ append_if_truthy "startDate" (sp_startDate p)
    ++ append_if_truthy "endDate" (sp_endDate p) in
  {| url := "/api/samples/stats"; query := queryParams; params := [] |}.

(** [HealthDataAPI.getGlucoseStats] *)
Definition client_getGlucoseStats `{Builtins} `{Axios} (api : HealthDataAPI)
    (p : StatsParams) : Result (option GlucoseStats) :=
  match axios_get (axios_create api) (stats_request p) with
  | Resolves data => result_bind (stats_of_data data) (fun stats => Ok (Some stats))
  | Rejects status error => null_on_404 status error
  end.

(** The collaborator as api-client.ts reaches it. *)
Definition http_collaborator `{Builtins} `{Axios} : Collaborator := {|
  remote_getGlucoseReadings := client_getGlucoseReadings;
  remote_getLatestGlucose := client_getLatestGlucose;
  remote_getGlucoseStats := client_getGlucoseStats;
|}.

(** The user a call on the collaborator asks about. *)
Definition call_userId (call : ApiCall) : Json :=
  match call with
  | GetGlucoseReadings p => rp_userId p
  | GetLatestGlucose userId => userId
  | GetGlucoseStats p => sp_userId p
  end.

(** The names the five-tool servers and the stdio server dispatch on. *)
Definition five_tools : list string :=
  ["search"; "fetch"; "get_glucose_readings"; "get_latest_glucose"; "get_glucose_stats"].

Definition three_tools : list string :=
  ["get_glucose_readings"; "get_latest_glucose"; "get_glucose_stats"].

(** What holds of the outcome of a tool switch: at most one request, sent
    through client [api] about user [userId]; a success is one text block
    and follows a request. *)
Definition well_shaped (api : HealthDataAPI) (userId : Json) (e : Eff ToolResponse) : Prop :=
  (length e.1 <= 1)%nat
  /\ Forall (fun request => request.1 = api /\ call_userId request.2 = userId) e.1
  /\ match e.2 with
     | Ok response => (exists t : string, response = ok_text t) /\ length e.1 = 1%nat
     | Throw _ => True
     end.

(* ===================================================================== *)
(** ** What a program may write *)
(* ===================================================================== *)

(** Which entries a program may set and delete in the two maps. *)
Record WritePolicy := {
  may_register : string -> Prop;
  may_deregister : string -> Prop;
  may_store : string -> string -> Prop;
  may_forget : string -> Prop;
}.

Fixpoint obeys (policy : WritePolicy) (p : Prog) : Prop :=
  match p with
  | Done => True
  | Await k | Emit _ k => obeys policy k
  | GetStore k => forall c, obeys policy (k c)
  | Run _ fn k | Spawn fn k => obeys policy fn /\ obeys policy k
  | TransportsGet _ k => forall t, obeys policy (k t)
  | TransportsKeys k => forall keys, obeys policy (k keys)
  | TokensGet _ k => forall tok, obeys policy (k tok)
  | TransportsSet sid _ k => may_register policy sid /\ obeys policy k
  | TransportsDelete sid k => may_deregister policy sid /\ obeys policy k
  | TokensSet sid tok k => may_store policy sid tok /\ obeys policy k
  | TokensDelete sid k => may_forget policy sid /\ obeys policy k
  end.

Definition task_obeys (policy : WritePolicy) (t : Task) : Prop :=
  Forall (fun f => obeys policy (code f)) t.

(** Writes nothing. *)
Definition read_only : WritePolicy := {|
  may_register := fun _ => False;
  may_deregister := fun _ => False;
  may_store := fun _ _ => False;
  may_forget := fun _ => False;
|}.

(** Stores no empty token. *)
Definition stores_nonempty : WritePolicy := {|
  may_register := fun _ => True;
  may_deregister := fun _ => True;
  may_store := fun _ tok => tok <> EmptyString;
  may_forget := fun _ => True;
|}.

(** Every token in the credential store is a non-empty string. *)
Definition tokens_nonempty (s : Shared) : Prop :=
  forall sid tok : string, jsmap_get sid (sessionTokens s) = Some tok -> tok <> EmptyString.

(** The event is a POST to /message, taken or refused by the SDK, or
    the continuation of a handler. *)
Definition message_traffic (e : OAuthServer.Event) : Prop :=
  match e with
  | OAuthServer.Arrives (OAuthServer.POST_message _ _) => True
  | OAuthServer.Arrives (OAuthServer.POST_message_refused _ _ _) => True
  | OAuthServer.Arrives _ => False
  | OAuthServer.Continues _ => True
  end.

(** All the characters of [s] are decimal digits. *)
Fixpoint all_digits (s : string) : bool :=
  match s with
  | EmptyString => true
  | String c s' => is_digit c && all_digits s'
  end.

(* ===================================================================== *)
(** ** Sessions that nothing removes *)
(* ===================================================================== *)


(** Sets nothing under [sid]; what it deletes is free. *)
Definition sets_nothing_under (sid : string) : WritePolicy := {|
  may_register := fun sid' => sid' <> sid;
  may_deregister := fun _ => True;
  may_store := fun sid' _ => sid' <> sid;
  may_forget := fun _ => True;
|}.

(** The event is a request that writes under [sid]: a stream-open whose
    transport has this id, or an OAuth callback that drew it. *)
Definition writes_under (sid : string) (e : OAuthServer.Event) : Prop :=
  match e with
  | OAuthServer.Arrives (OAuthServer.GET_sse _ transport _) => sessionId transport = sid
  | OAuthServer.Arrives (OAuthServer.GET_oauth_callback _ _ _ uuid) => uuid = sid
  | _ => False
  end.

(** The tasks that the events resume. *)
Definition resumed (events : list OAuthServer.Event) : list nat :=
  omap (fun e => match e with
                 | OAuthServer.Continues i => Some i
                 | OAuthServer.Arrives _ => None
                 end) events.

(* ===================================================================== *)
(** ** The descriptor arrays as objects *)
(* ===================================================================== *)

(** An array of JavaScript is an object with an identity, and the
    evaluation of an array literal makes a new one.  [Heap] holds the
    arrays made so far, by address. *)
Definition Heap : Type := list (list Tool).

(** The evaluation of an array literal: the address of the new array
    and the heap that holds it. *)
Definition new_array (a : list Tool) (h : Heap) : nat * Heap := (length h, h ++ [a]).

(** http-server.ts: [const TOOLS: Tool[] = [...]] is evaluated once,
    when the module is loaded. *)
Definition http_TOOLS_loaded `{Environment} : nat * Heap :=
  new_array HttpServer.TOOLS [].

(** tools/list of http-server.ts, [return { tools: TOOLS }]: the array
    of the module. *)
Definition http_list_tools `{Environment} (h : Heap) : nat * Heap :=
  (http_TOOLS_loaded.1, h).

(** tools/list of the OAuth server, [return { tools: [ ... ] }]: the
    literal is inside the handler and is evaluated on each call. *)
Definition oauth_list_tools (h : Heap) : nat * Heap :=
  new_array OAuthServer.tools h.

(** Every listing that [p] emits is [tools]. *)
Fixpoint lists_only (tools : list Tool) (p : Prog) : Prop :=
  match p with
  | Done => True
  | Emit o k => (forall l, o = ToolsList l -> l = tools) /\ lists_only tools k
  | Await k | TransportsSet _ _ k | TransportsDelete _ k
  | TokensSet _ _ k | TokensDelete _ k => lists_only tools k
  | GetStore k => forall c, lists_only tools (k c)
  | Run _ fn k | Spawn fn k => lists_only tools fn /\ lists_only tools k
  | TransportsGet _ k => forall t, lists_only tools (k t)
  | TransportsKeys k => forall keys, lists_only tools (k keys)
  | TokensGet _ k => forall tok, lists_only tools (k tok)
  end.

(** The observation is no listing other than [tools]. *)
Definition listed (tools : list Tool) (o : Obs) : Prop :=
  forall l, o = ToolsList l -> l = tools.

Definition task_lists_only (tools : list Tool) (t : Task) : Prop :=
  Forall (fun f => lists_only tools (code f)) t.

(** The handlers that http-server.ts runs on the session state. *)
Definition http_handler `{Builtins} `{Collaborator} `{Environment} (p : Prog) : Prop :=
  (exists transport, p = HttpServer.get_sse transport)
  \/ (exists sessionId body, p = HttpServer.post_message sessionId body)
  \/ (exists sessionId, p = HttpServer.onclose sessionId).

(* ===================================================================== *)
(** ** A concrete runtime, collaborator and configuration *)
(* ===================================================================== *)

Module Sample.

Definition reading : GlucoseReading :=
  {| value := JNum 104; unit := JStr "mg/dL";
     date := JStr "2024-01-15T10:30:00Z"; source := JStr "cgm" |}.

Definition builtins : Builtins := {|
  Date_now := 1705314600000;
  Date_parse := fun s =>
    if String.eqb s "2024-01-15T10:30:00Z" then Some 1705314600000 else None;
  Date_toISOString := fun _ => "2024-01-15T10:30:00.000Z";
  Date_localMidnight := fun t => t - t mod day_ms;
  Date_toLocaleDateString := fun _ => "1/15/2024";
  Date_toLocaleTimeString := fun _ => "10:30:00 AM";
  String_toLowerCase := fun s => s;
  Number_toString := fun _ => "104";
  Object_toString := fun _ => "[object Object]";
  JSON_stringify := fun _ => "{}";
|}.

(** A collaborator that holds the one reading and answers every range
    query with it. *)
Definition collaborator : Collaborator := {|
  remote_getGlucoseReadings := fun _ _ => Ok [reading];
  remote_getLatestGlucose := fun _ _ => Ok (Some reading);
  remote_getGlucoseStats := fun _ _ => Ok None;
|}.

(** No [USER_ID] configured. *)
Definition environment : Environment := {|
  env_USER_ID := None;
  STORAGE_API_URL := "https://storage.example";
  API_SECRET := "secret";
  BACKEND_URL := "https://backend.example";
  PUBLIC_URL := "https://mcp.example";
|}.

Definition alice : SSEServerTransport := {| sessionId := "session-a"; res := 1 |}.
Definition bob : SSEServerTransport := {| sessionId := "session-b"; res := 2 |}.

(** Two open sessions, each with its own token. *)
Definition two_sessions : Shared := {|
  transports := [("session-a", alice); ("session-b", bob)];
  sessionTokens := [("session-a", "token-a"); ("session-b", "token-b")];
  log := [];
|}.

(** The events that open the two sessions: each stream-open arrives, the
    connection is made, the introspection returns.  (The first leaves
    its two listeners waiting as tasks 1 and 2, so the second stream-open
    is task 3.) *)
Definition opening : list OAuthServer.Event := [
  OAuthServer.Arrives (OAuthServer.GET_sse (Some "Bearer token-a") alice OAuthServer.Connected);
  OAuthServer.Continues 0;
  OAuthServer.Continues 0;
  OAuthServer.Arrives (OAuthServer.GET_sse (Some "Bearer token-b") bob OAuthServer.Connected);
  OAuthServer.Continues 3;
  OAuthServer.Continues 3
].

(** Two calls in flight at once, one per session, answered in the
    opposite order. *)
Definition interleaved : list OAuthServer.Event := [
  OAuthServer.Arrives
    (OAuthServer.POST_message (JStr "session-a") (CallToolRequest "get_latest_glucose" None));
  OAuthServer.Arrives
    (OAuthServer.POST_message (JStr "session-b") (CallToolRequest "get_latest_glucose" None));
  OAuthServer.Continues 1;
  OAuthServer.Continues 0
].

End Sample.

(** A remote API over HTTP: it answers the range query with one sample,
    knows no latest sample (404) and fails on the statistics (500). *)
Module SampleHttp.

Definition sample : Json :=
  JObj [("value", JNum 104); ("unit", JStr "mg/dL");
        ("start_date", JStr "2024-01-15T10:30:00Z"); ("source", JStr "cgm")].

Definition not_found : JsError :=
  {| message := "Request failed with status code 404";
     response_data_error := Some "No samples found" |}.

Definition server_error : JsError :=
  {| message := "Request failed with status code 500";
     response_data_error := None |}.

Definition axios : Axios := {|
  axios_get := fun _ request =>
    if String.eqb (url request) "/api/samples"
    then Resolves (JObj [("samples", JArr [sample])])
    else if String.eqb (url request) "/api/samples/latest"
    then Rejects (Some 404) not_found
    else Rejects (Some 500) server_error;
  Number_parseInt := fun v => v;
  Number_parseFloat := fun v => v;
|}.

Definition collaborator : Collaborator := @http_collaborator Sample.builtins axios.


(** A remote API that is down: every request fails without a response. *)
Definition axios_down : Axios := {|
  axios_get := fun _ _ =>
    Rejects None {| message := "timeout of 30000ms exceeded"; response_data_error := None |};
  Number_parseInt := fun v => v;
  Number_parseFloat := fun v => v;
|}.

(** A runtime that parses calendar dates as well. *)
Definition builtins_day : Builtins := {|
  Date_now := 1705314600000;
  Date_parse := fun s =>
    if String.eqb s "2024-01-15" then Some 1705276800000 else None;
  Date_toISOString := fun _ => "2024-01-15T00:00:00.000Z";
  Date_localMidnight := fun t => t - t mod day_ms;
  Date_toLocaleDateString := fun _ => "1/15/2024";
  Date_toLocaleTimeString := fun _ => "12:00:00 AM";
  String_toLowerCase := fun s => s;
  Number_toString := fun _ => "104";
  Object_toString := fun _ => "[object Object]";
  JSON_stringify := fun _ => "{}";
|}.

(** A collaborator holding one reading dated by the day. *)
Definition day_reading : GlucoseReading :=
  {| value := JNum 98; unit := JStr "mg/dL"; date := JStr "2024-01-15"; source := JStr "cgm" |}.

Definition collaborator_day : Collaborator := {|
  remote_getGlucoseReadings := fun _ _ => Ok [day_reading];
  remote_getLatestGlucose := fun _ _ => Ok (Some day_reading);
  remote_getGlucoseStats := fun _ _ => Ok None;
|}.

(** A configuration with a default user. *)
Definition environment_user : Environment := {|
  env_USER_ID := Some "lucas@example.com";
  STORAGE_API_URL := "https://storage.example";
  API_SECRET := "secret";
  BACKEND_URL := "https://backend.example";
  PUBLIC_URL := "https://mcp.example";
|}.

End SampleHttp.

(* ===================================================================== *)
(** * Properties *)
(* ===================================================================== *)

(** ** JavaScript [Map] *)

Section JsMapFacts.
Context {V : Type}.
Implicit Types (m : JsMap V) (k : string) (v : V).

Lemma jsmap_get_set_eq k v m : jsmap_get k (jsmap_set k v m) = Some v.
Proof.
  induction m as [|[k' v'] m IH]; simpl.
  - by rewrite String.eqb_refl.
  - destruct (String.eqb_spec k k') as [->|Hne]; simpl.
    + by rewrite String.eqb_refl.
    + by destruct (String.eqb_spec k k').
Qed.

Lemma jsmap_get_set_ne k k' v m :
  k <> k' -> jsmap_get k' (jsmap_set k v m) = jsmap_get k' m.
Proof.
  intros Hne. induction m as [|[k0 v0] m IH]; simpl.
  - destruct (String.eqb_spec k' k); congruence.
  - destruct (String.eqb_spec k k0) as [->|Hk]; simpl.
    + destruct (String.eqb_spec k' k0); congruence.
    + by rewrite IH.
Qed.

Lemma jsmap_get_delete_eq k m : jsmap_get k (jsmap_delete k m) = None.
Proof.
  induction m as [|[k' v'] m IH]; simpl; [done|].
  destruct (String.eqb_spec k k') as [->|Hne]; simpl; [done|].
  by destruct (String.eqb_spec k k').
Qed.

Lemma jsmap_get_delete_ne k k' m :
  k <> k' -> jsmap_get k' (jsmap_delete k m) = jsmap_get k' m.
Proof.
  intros Hne. induction m as [|[k0 v0] m IH]; simpl; [done|].
  destruct (String.eqb_spec k k0) as [->|Hk]; simpl.
  - destruct (String.eqb_spec k' k0); congruence.
  - by rewrite IH.
Qed.

(** Deleting a key that is not there leaves the map as it is. *)
Lemma jsmap_delete_absent k m : jsmap_get k m = None -> jsmap_delete k m = m.
Proof.
  induction m as [|[k' v'] m IH]; simpl; [done|].
  destruct (String.eqb_spec k k'); [done|]. intros Hm. by rewrite IH.
Qed.

Lemma jsmap_delete_idem k m : jsmap_delete k (jsmap_delete k m) = jsmap_delete k m.
Proof. apply jsmap_delete_absent, jsmap_get_delete_eq. Qed.

Lemma jsmap_get_None_keys k m : jsmap_get k m = None <-> k ∉ jsmap_keys m.
Proof.
  unfold jsmap_keys. induction m as [|[k' v'] m IH]; simpl.
  - split; [intros _; apply not_elem_of_nil | done].
  - rewrite not_elem_of_cons. destruct (String.eqb_spec k k') as [->|Hne].
    + split; [done | intros [? _]; congruence].
    + rewrite IH. tauto.
Qed.

Lemma jsmap_keys_delete k k' m :
  k' ∈ jsmap_keys (jsmap_delete k m) <-> k' <> k /\ k' ∈ jsmap_keys m.
Proof.
  unfold jsmap_keys. induction m as [|[k0 v0] m IH]; simpl.
  - rewrite elem_of_nil. tauto.
  - destruct (String.eqb_spec k k0) as [->|Hne]; simpl.
    + rewrite IH, elem_of_cons. intuition congruence.
    + rewrite !elem_of_cons, IH. intuition congruence.
Qed.

Lemma jsmap_keys_set k k' v m :
  k' ∈ jsmap_keys (jsmap_set k v m) <-> k' = k \/ k' ∈ jsmap_keys m.
Proof.
  unfold jsmap_keys. induction m as [|[k0 v0] m IH]; simpl.
  - rewrite list_elem_of_singleton, elem_of_nil. tauto.
  - destruct (String.eqb_spec k k0) as [->|Hne]; simpl.
    + rewrite !elem_of_cons. tauto.
    + rewrite !elem_of_cons, IH. tauto.
Qed.

(** The operations keep each key once, as a [Map] does. *)
Lemma jsmap_delete_NoDup k m : NoDup (jsmap_keys m) -> NoDup (jsmap_keys (jsmap_delete k m)).
Proof.
  induction m as [|[k0 v0] m IH]; simpl; [done|].
  rewrite NoDup_cons. intros [Hin Hnd].
  destruct (String.eqb_spec k k0) as [->|Hne]; simpl; [by apply IH|].
  apply NoDup_cons. split; [|by apply IH].
  intros Hk. apply Hin. by apply (jsmap_keys_delete k k0 m).
Qed.

Lemma jsmap_set_NoDup k v m : NoDup (jsmap_keys m) -> NoDup (jsmap_keys (jsmap_set k v m)).
Proof.
  induction m as [|[k0 v0] m IH]; simpl.
  - intros _. apply NoDup_singleton.
  - rewrite NoDup_cons. intros [Hin Hnd].
    destruct (String.eqb_spec k k0) as [->|Hne]; simpl.
    + apply NoDup_cons. by split.
    + apply NoDup_cons. split; [|by apply IH].
      intros Hk. apply (jsmap_keys_set k k0 v m) in Hk as [?|?]; [congruence|done].
Qed.

End JsMapFacts.

(* ===================================================================== *)
(** ** The session binding is lexical *)
(* ===================================================================== *)

Lemma resolve_task_app (t1 t2 : Task) :
  resolve_task (t1 ++ t2) = resolve_task t1 ++ resolve_task t2.
Proof. unfold resolve_task. apply fmap_app. Qed.

(** Running the resolved program is running the program: the same state
    and log, and what is left suspended is the resolved remainder. *)
Lemma exec_resolve (p : Prog) :
  forall (c : option string) (s : Shared),
    exec c (resolve c p) s = resolve_outcome (exec c p s).
Proof.
  induction p as [ | k IH | o k IH | k IH | id fn IHfn k IHk | child IHc k IHk
                 | sid k IH | sid t k IH | sid k IH | k IH
                 | sid k IH | sid tok k IH | sid k IH ];
    intros c s; simpl; try done; try apply IH.
  - (* Run *)
    rewrite IHfn. destruct (exec (Some id) fn s) as [[s1 fs] sp]. simpl.
    destruct fs as [|f fs]; simpl.
    + rewrite IHk. destruct (exec c k s1) as [[s2 fs2] sp2]. simpl.
      by rewrite fmap_app.
    + by rewrite resolve_task_app.
  - (* Spawn *)
    rewrite IHc. destruct (exec c child s) as [[s1 fs] sp]. simpl.
    rewrite IHk. destruct (exec c k s1) as [[s2 fs2] sp2]. simpl.
    by rewrite !fmap_app.
Qed.

Lemma resume_resolve (t : Task) :
  forall s : Shared, resume (resolve_task t) s = resolve_outcome (resume t s).
Proof.
  induction t as [|f callers IH]; intros s; simpl; [done|].
  rewrite exec_resolve. destruct (exec (store f) (code f) s) as [[s1 fs] sp]. simpl.
  destruct fs as [|f' fs]; simpl.
  - rewrite IH. destruct (resume callers s1) as [[s2 fs2] sp2]. simpl.
    by rewrite fmap_app.
  - by rewrite resolve_task_app.
Qed.

Lemma step_resolve (w : World) (a : Action) :
  resolve_world (step w a) = step (resolve_world w) (resolve_action a).
Proof.
  destruct a as [handler | i]; simpl.
  - rewrite exec_resolve. destruct (exec None handler (shared w)) as [[s fs] sp].
    unfold resolve_world; simpl. by rewrite !fmap_app.
  - rewrite list_lookup_fmap. destruct (tasks w !! i) as [t|]; simpl; [|done].
    rewrite resume_resolve. destruct (resume t (shared w)) as [[s fs] sp].
    unfold resolve_world; simpl. by rewrite fmap_app, list_fmap_insert.
Qed.

Lemma run_resolve (acts : list Action) :
  forall w : World,
    resolve_world (run acts w) = run (resolve_action <$> acts) (resolve_world w).
Proof.
  unfold run. induction acts as [|a acts IH]; intros w; simpl; [done|].
  by rewrite IH, step_resolve.
Qed.

(** A resolved program has no [sessionContext.getStore()] left in it. *)
Lemma resolve_store_free (p : Prog) : forall c : option string, store_free (resolve c p).
Proof. induction p; intros c; simpl; auto. Qed.

(** Programs that read the same once their [getStore] calls are answered
    lexically run the same. *)
Lemma exec_lexical (c : option string) (p p' : Prog) (s : Shared) :
  resolve c p = resolve c p' ->
  resolve_outcome (exec c p s) = resolve_outcome (exec c p' s).
Proof. intros Heq. by rewrite <- !exec_resolve, Heq. Qed.

Lemma shared_resolve_world (w : World) : shared (resolve_world w) = shared w.
Proof. done. Qed.

(** Worlds that differ only in how their suspended code will ask for the
    store go through the same states under the same schedule. *)
Lemma run_lexical (acts : list Action) (w w' : World) :
  resolve_world w = resolve_world w' ->
  shared (run acts w) = shared (run acts w').
Proof.
  intros Heq.
  rewrite <- (shared_resolve_world (run acts w)), <- (shared_resolve_world (run acts w')).
  by rewrite !run_resolve, Heq.
Qed.

(* ===================================================================== *)
(** ** Scheduling *)
(* ===================================================================== *)

(** A step leaves every task alone but the one it resumes. *)
Lemma step_other_task (w : World) (a : Action) (i : nat) (t : Task) :
  tasks w !! i = Some t -> a <> Resume i -> tasks (step w a) !! i = Some t.
Proof.
  intros Hi Ha. destruct a as [handler | j]; simpl.
  - destruct (exec None handler (shared w)) as [[s fs] sp]. simpl.
    by apply lookup_app_l_Some.
  - destruct (tasks w !! j) as [tj|] eqn:Hj; [|done].
    destruct (resume tj (shared w)) as [[s fs] sp]. simpl.
    apply lookup_app_l_Some. rewrite list_lookup_insert_ne; [done|]. congruence.
Qed.

Lemma run_other_tasks (acts : list Action) (i : nat) (t : Task) :
  forall w : World,
    tasks w !! i = Some t -> Resume i ∉ acts -> tasks (run acts w) !! i = Some t.
Proof.
  unfold run. induction acts as [|a acts IH]; intros w Hi Hacts; simpl; [done|].
  apply not_elem_of_cons in Hacts as [Ha Hacts].
  apply IH; [|done]. apply step_other_task; [done|congruence].
Qed.

(* ===================================================================== *)
(** ** The OAuth server: routing and the ambient credential *)
(* ===================================================================== *)

Section OAuthFacts.
Context {B : Builtins} {C : Collaborator} {E : Environment}.
Import OAuthServer.

Lemma falsy_string_Some (s : string) : falsy_string (Some s) = false <-> s <> "".
Proof.
  simpl. destruct (String.eqb_spec s ""); split; congruence.
Qed.

Lemma truthy_JStr (s : string) : truthy (JStr s) = true <-> s <> "".
Proof.
  simpl. destruct (String.eqb_spec s ""); simpl; split; congruence.
Qed.

(** Inside [sessionContext.run(sid, ...)] the query is the lookup of
    [sid] in [sessionTokens]. *)
Lemma exec_getCurrentAccessToken (sid : string) (k : option string -> Prog) (s : Shared) :
  sid <> "" ->
  exec (Some sid) (getCurrentAccessToken k) s
  = exec (Some sid) (k (jsmap_get sid (sessionTokens s))) s.
Proof.
  intros Hsid. apply falsy_string_Some in Hsid.
  unfold getCurrentAccessToken. cbn [exec]. by rewrite Hsid.
Qed.

(** Outside any [sessionContext.run] it is [undefined]. *)
Lemma exec_getCurrentAccessToken_unbound (k : option string -> Prog) (s : Shared) :
  exec None (getCurrentAccessToken k) s = exec None (k None) s.
Proof. reflexivity. Qed.

(** Routing a message to a registered session runs the dispatch under
    that session's id. *)
Lemma exec_post_message_registered (dispatch : SSEServerTransport -> Message -> Prog)
    (sid : string) (transport : SSEServerTransport) (body : Message) (s : Shared) :
  jsmap_get sid (transports s) = Some transport -> sid <> "" ->
  exec None (post_message_with dispatch (JStr sid) body) s
  = exec None (Run sid (dispatch transport body) Done) s.
Proof.
  intros Hreg Hsid. apply truthy_JStr in Hsid.
  unfold post_message_with. rewrite Hsid. cbn [negb exec]. by rewrite Hreg.
Qed.

(** Every request the tools/call handler sends goes through the client
    built from the token it was given. *)
Lemma tool_switch_client (api : HealthDataAPI) (userId : Json) (name : string) (args : Args) :
  Forall (fun request => request.1 = api) (tool_switch api userId name args).1.
Proof.
  unfold tool_switch.
  repeat match goal with |- context [if ?b then _ else _] => destruct b end.
  - unfold tool_search. destruct (negb _); [by constructor|].
    destruct (arg args "query"); try by constructor.
    simpl. destruct (parseGlucoseDateQuery s); simpl; [|by constructor].
    destruct (remote_getGlucoseReadings _ _); simpl; by repeat constructor.
  - unfold tool_fetch. destruct (negb _); [by constructor|].
    destruct (arg args "id"); try by constructor.
    destruct (negb _); [by constructor|].
    simpl. destruct (iso_range _ _); simpl; [|by constructor].
    destruct (remote_getGlucoseReadings _ _); simpl; [|by repeat constructor].
    destruct (find_reading _ _); simpl; by repeat constructor.
  - unfold tool_get_glucose_readings. simpl.
    destruct (remote_getGlucoseReadings _ _); simpl; by repeat constructor.
  - unfold tool_get_latest_glucose. simpl.
    destruct (remote_getLatestGlucose _ _) as [[r|]|]; simpl; by repeat constructor.
  - unfold tool_get_glucose_stats. simpl.
    destruct (remote_getGlucoseStats _ _) as [[r|]|]; simpl; by repeat constructor.
  - by constructor.
Qed.

Lemma call_tool_client (accessToken name : string) (args : Args) :
  Forall (fun request =>
            request.1 = {| baseURL := BACKEND_URL; authToken := accessToken; isBearer := true |})
         (call_tool accessToken name args).1.
Proof.
  unfold call_tool, try_catch.
  pose proof (tool_switch_client
    {| baseURL := BACKEND_URL; authToken := accessToken; isBearer := true |}
    (JStr "oauth-user") name args) as Hcalls.
  destruct (tool_switch _ _ name args) as [calls [response|error]]; simpl in *; [done|].
  by rewrite app_nil_r.
Qed.

End OAuthFacts.

(* ===================================================================== *)
(** ** Sessions no handler is about to register *)
(* ===================================================================== *)

Section Unregistered.
Context {B : Builtins} {C : Collaborator} {E : Environment}.
Import OAuthServer.
Variable sid : string.

Lemma never_registers_after_calls (calls : list (HealthDataAPI * ApiCall)) (k : Prog) :
  never_registers sid k -> never_registers sid (after_calls calls k).
Proof. intros Hk. induction calls as [|[api call] calls IH]; simpl; done. Qed.

Lemma never_registers_settle (e : Eff ToolResponse) : never_registers sid (settle e).
Proof.
  destruct e as [calls [response|error]]; simpl;
    by apply never_registers_after_calls.
Qed.

(** Of the server's handlers, only a stream-open for [sid] registers [sid]. *)
Lemma handler_never_registers (r : Request) :
  ~ opens_stream sid (Arrives r) -> never_registers sid (handler r).
Proof.
  intros Hopen. destruct r as [authorization transport connect | sessionId body
                              | sessionId body headersSent
                              | code error exchange uuid]; simpl in *.
  - unfold get_sse. destruct (falsy_string _); [done|].
    destruct (bearer_token authorization); [|done]. simpl.
    destruct connect as [|[]]; simpl; done.
  - unfold post_message, post_message_with.
    destruct (negb _); [done|].
    destruct sessionId; try done. simpl. intros [transport|]; [|done]. simpl.
    split; [|done].
    destruct body as [|name args|]; simpl; try done.
    assert (Hwith : forall tok, never_registers sid (CallToolRequestHandler_with tok name args)).
    { intros tok. unfold CallToolRequestHandler_with.
      destruct (falsy_string tok); [done|].
      destruct tok; [|done]. apply never_registers_settle. }
    intros c. destruct (falsy_string c); [apply Hwith|].
    destruct c as [c|]; [|apply Hwith].
    intros tok. apply Hwith.
  - unfold post_message_refused, post_message_with.
    destruct (negb _); [done|].
    destruct sessionId; try done. simpl. intros [transport|]; [|done]. simpl.
    by destruct headersSent.
  - unfold get_oauth_callback. destruct (truthy error); [done|].
    destruct (negb _); [done|]. simpl.
    destruct exchange as [[tok|]|]; simpl; try done.
    by destruct (String.eqb tok "").
Qed.

Lemma exec_never_registers (p : Prog) :
  forall (c : option string) (s : Shared),
    never_registers sid p ->
    jsmap_get sid (transports s) = None ->
    jsmap_get sid (transports (exec c p s).1.1) = None
    /\ task_never_registers sid (exec c p s).1.2
    /\ Forall (task_never_registers sid) (exec c p s).2.
Proof.
  unfold task_never_registers.
  induction p as [ | k IH | o k IH | k IH | id fn IHfn k IHk | child IHc k IHk
                 | sid' k IH | sid' t k IH | sid' k IH | k IH
                 | sid' k IH | sid' tok k IH | sid' k IH ];
    intros c s Hp Hs; simpl in *.
  - done.
  - split_and!; [done| |done]. by constructor.
  - by apply IH.
  - by apply IH.
  - destruct Hp as [Hfn Hk].
    specialize (IHfn (Some id) s Hfn Hs).
    destruct (exec (Some id) fn s) as [[s1 fs] sp]. simpl in IHfn.
    destruct IHfn as (Hs1 & Hfs & Hsp).
    destruct fs as [|f fs].
    + specialize (IHk c s1 Hk Hs1).
      destruct (exec c k s1) as [[s2 fs2] sp2]. simpl in *.
      destruct IHk as (? & ? & ?). split_and!; [done|done|]. by apply Forall_app.
    + simpl. split_and!; [done| |done].
      rewrite app_comm_cons. apply Forall_app. split; [done|]. by constructor.
  - destruct Hp as [Hc Hk].
    specialize (IHc c s Hc Hs).
    destruct (exec c child s) as [[s1 fs] sp]. simpl in IHc.
    destruct IHc as (Hs1 & Hfs & Hsp).
    specialize (IHk c s1 Hk Hs1).
    destruct (exec c k s1) as [[s2 fs2] sp2]. simpl in *.
    destruct IHk as (? & ? & ?). split_and!; [done|done|].
    apply Forall_app. split; [done|]. by constructor.
  - by apply IH.
  - destruct Hp as [Hne Hk]. apply IH; [done|]. simpl.
    by rewrite jsmap_get_set_ne.
  - apply IH; [done|]. simpl.
    destruct (decide (sid' = sid)) as [->|Hne].
    + apply jsmap_get_delete_eq.
    + by rewrite jsmap_get_delete_ne.
  - by apply IH.
  - by apply IH.
  - by apply IH.
  - by apply IH.
Qed.

Lemma resume_never_registers (t : Task) :
  forall s : Shared,
    task_never_registers sid t ->
    jsmap_get sid (transports s) = None ->
    jsmap_get sid (transports (resume t s).1.1) = None
    /\ task_never_registers sid (resume t s).1.2
    /\ Forall (task_never_registers sid) (resume t s).2.
Proof.
  unfold task_never_registers.
  induction t as [|f callers IH]; intros s Ht Hs; simpl.
  - done.
  - apply Forall_cons in Ht as [Hf Hcallers].
    pose proof (exec_never_registers (code f) (store f) s Hf Hs) as Hexec.
    destruct (exec (store f) (code f) s) as [[s1 fs] sp]. simpl in Hexec.
    destruct Hexec as (Hs1 & Hfs & Hsp).
    destruct fs as [|f' fs].
    + specialize (IH s1 Hcallers Hs1).
      destruct (resume callers s1) as [[s2 fs2] sp2]. simpl in *.
      destruct IH as (? & ? & ?). split_and!; [done|done|]. by apply Forall_app.
    + simpl. split_and!; [done| |done].
      rewrite app_comm_cons. by apply Forall_app.
Qed.

Lemma step_closed_for (w : World) (e : Event) :
  closed_for sid w -> ~ opens_stream sid e -> closed_for sid (step w (action e)).
Proof.
  intros [Hs Hts] He. destruct e as [r | i]; simpl.
  - pose proof (exec_never_registers (handler r) None (shared w)
                  (handler_never_registers r He) Hs) as Hexec.
    destruct (exec None (handler r) (shared w)) as [[s fs] sp]. simpl in Hexec.
    destruct Hexec as (? & ? & ?). split; simpl; [done|].
    apply Forall_app. split; [done|]. by constructor.
  - destruct (tasks w !! i) as [t|] eqn:Hi; [|done].
    pose proof (resume_never_registers t (shared w)
                  (proj1 (Forall_lookup _ _) Hts i t Hi) Hs) as Hres.
    destruct (resume t (shared w)) as [[s fs] sp]. simpl in Hres.
    destruct Hres as (? & ? & ?). split; simpl; [done|].
    apply Forall_app. split; [|done]. by apply Forall_insert.
Qed.

Lemma serve_closed_for (events : list Event) :
  forall w : World,
    closed_for sid w -> Forall (fun e => ~ opens_stream sid e) events ->
    closed_for sid (serve events w).
Proof.
  unfold serve, run. induction events as [|e events IH]; intros w Hw Hev; simpl; [done|].
  apply Forall_cons in Hev as [He Hev]. apply IH; [|done]. by apply step_closed_for.
Qed.

End Unregistered.

(** In the worlds the server reaches, the empty string is no session id. *)
Lemma registered_ids_nonempty {B : Builtins} {C : Collaborator} {E : Environment}
    (events : list OAuthServer.Event) (sid : string) (transport : SSEServerTransport) :
  sdk_ids_nonempty events ->
  jsmap_get sid (transports (shared (OAuthServer.serve events initial))) = Some transport ->
  sid <> "".
Proof.
  intros Hevents Hreg ->.
  assert (Hinit : closed_for "" initial) by (split; [done | constructor]).
  destruct (serve_closed_for "" events initial Hinit Hevents) as [Hnone _].
  congruence.
Qed.

(* ===================================================================== *)
(** ** Credential isolation *)
(* ===================================================================== *)

Section Isolation.
Context {B : Builtins} {C : Collaborator} {E : Environment}.
Import OAuthServer.

(** The query in the dispatch of a routed message, in any state. *)
Lemma routed_query (s : Shared) (sid : string) (transport : SSEServerTransport)
    (body : Message) (k : option string -> Prog) :
  jsmap_get sid (transports s) = Some transport ->
  sid <> "" ->
  exec None (post_message_with (fun _ _ => getCurrentAccessToken k) (JStr sid) body) s
  = exec None (Run sid (k (jsmap_get sid (sessionTokens s))) Done) s.
Proof.
  intros Hreg Hsid. rewrite (exec_post_message_registered _ sid transport) by done.
  cbn [exec]. by rewrite exec_getCurrentAccessToken.
Qed.

(** The server's tools/call handler behind a routed message. *)
Lemma routed_call (s : Shared) (sid : string) (transport : SSEServerTransport)
    (name : string) (args : Args) :
  jsmap_get sid (transports s) = Some transport ->
  sid <> "" ->
  exec None (post_message (JStr sid) (CallToolRequest name args)) s
  = exec None
      (Run sid
         (Emit (HttpReply 202 (JStr "Accepted"))
            (CallToolRequestHandler_with (jsmap_get sid (sessionTokens s)) name args))
         Done) s.
Proof.
  intros Hreg Hsid. unfold post_message.
  rewrite (exec_post_message_registered _ sid transport) by done.
  unfold handlePostMessage, handleMessage, CallToolRequestHandler.
  cbn [exec]. by rewrite exec_getCurrentAccessToken.
Qed.

(** A dispatch suspended before its query keeps the binding of its own
    session while other handlers run. *)
Lemma suspended_query (w : World) (sid : string) (transport : SSEServerTransport)
    (body : Message) (k : option string -> Prog) (acts : list Action) :
  jsmap_get sid (transports (shared w)) = Some transport ->
  sid <> "" ->
  let dispatch := fun (_ : SSEServerTransport) (_ : Message) =>
                    Await (getCurrentAccessToken k) in
  let i := length (tasks w) in
  Resume i ∉ acts ->
  exists callers : Task,
    @eq (option Task)
      (tasks (run acts (step w (Start (post_message_with dispatch (JStr sid) body)))) !! i)
      (Some ({| store := Some sid; code := getCurrentAccessToken k |} :: callers))
    /\ forall s' : Shared,
         resume ({| store := Some sid; code := getCurrentAccessToken k |} :: callers) s'
         = resume ({| store := Some sid;
                      code := k (jsmap_get sid (sessionTokens s')) |} :: callers) s'.
Proof.
  intros Hreg Hsid dispatch i Hacts.
  exists [{| store := None; code := Done |}]. split.
  - apply run_other_tasks; [|done].
    subst i. cbn [step].
    rewrite (exec_post_message_registered _ sid transport) by done.
    cbn [exec app tasks]. by apply list_lookup_middle.
  - intros s'. cbn [resume store code].
    by rewrite exec_getCurrentAccessToken.
Qed.

(** C1. Credential isolation across sessions.  In every world the server
    reaches (session ids being the non-empty ids the SDK mints), for
    every session id registered in [transports]: a message addressed to
    it is dispatched under that id, and [getCurrentAccessToken()] in the
    dispatch yields what [sessionTokens] holds for that id when the
    message is routed, whatever other sessions exist and whatever
    handlers are suspended.  This holds for any code that makes the
    query, and for the server's own tools/call handler, which builds its
    collaborator client from that token and sends every request through
    it.  A dispatch that were suspended before it asks would still be
    bound to its own session when it goes on, after any other handlers
    have run in between: it gets the entry of its own id, never that of
    another session. *)
Theorem credential_isolation (events : list Event) (sid : string)
    (transport : SSEServerTransport) (body : Message) :
  sdk_ids_nonempty events ->
  let w := serve events initial in
  jsmap_get sid (transports (shared w)) = Some transport ->
  (forall k : option string -> Prog,
      exec None (post_message_with (fun _ _ => getCurrentAccessToken k) (JStr sid) body)
        (shared w)
      = exec None (Run sid (k (jsmap_get sid (sessionTokens (shared w)))) Done) (shared w))
  /\ (forall (name : string) (args : Args),
        exec None (post_message (JStr sid) (CallToolRequest name args)) (shared w)
        = exec None
            (Run sid
               (Emit (HttpReply 202 (JStr "Accepted"))
                  (CallToolRequestHandler_with
                     (jsmap_get sid (sessionTokens (shared w))) name args))
               Done) (shared w)
        /\ forall accessToken : string,
             accessToken <> "" ->
             CallToolRequestHandler_with (Some accessToken) name args
             = settle (call_tool accessToken name args)
             /\ Forall (fun request => authToken request.1 = accessToken)
                       (call_tool accessToken name args).1)
  /\ (forall (k : option string -> Prog) (acts : list Action),
        let dispatch := fun (_ : SSEServerTransport) (_ : Message) =>
                          Await (getCurrentAccessToken k) in
        let i := length (tasks w) in
        Resume i ∉ acts ->
        exists callers : Task,
          @eq (option Task)
            (tasks (run acts (step w (Start (post_message_with dispatch (JStr sid) body))))
               !! i)
            (Some ({| store := Some sid; code := getCurrentAccessToken k |} :: callers))
          /\ forall s' : Shared,
               resume ({| store := Some sid; code := getCurrentAccessToken k |} :: callers) s'
               = resume ({| store := Some sid;
                            code := k (jsmap_get sid (sessionTokens s')) |} :: callers) s').
Proof.
  intros Hevents w Hreg.
  pose proof (registered_ids_nonempty events sid transport Hevents Hreg) as Hsid.
  clearbody w. split_and!.
  - intros k. by apply (routed_query _ sid transport).
  - intros name args. split.
    + by apply (routed_call _ sid transport).
    + intros accessToken Hne. split.
      * unfold CallToolRequestHandler_with.
        apply falsy_string_Some in Hne. by rewrite Hne.
      * eapply Forall_impl; [apply call_tool_client|].
        intros request ->. done.
  - intros k acts. by apply (suspended_query w sid transport).
Qed.

End Isolation.

Lemma opening_nonempty : sdk_ids_nonempty Sample.opening.
Proof. repeat constructor; simpl; try tauto; discriminate. Qed.

(** The two sessions of [Sample.two_sessions] are what these events leave. *)
Lemma opening_two_sessions :
  shared (@OAuthServer.serve Sample.builtins Sample.collaborator Sample.environment
            Sample.opening initial)
  = Sample.two_sessions.
Proof. reflexivity. Qed.

Lemma credential_isolation_witness :
  exec None
    (OAuthServer.post_message_with
       (fun _ _ => OAuthServer.getCurrentAccessToken
                     (fun tok => Emit (ToolResult (ok_text (default "none" tok))) Done))
       (JStr "session-b") ListToolsRequest)
    Sample.two_sessions
  = (emit (ToolResult (ok_text "token-b")) Sample.two_sessions, [], []).
Proof.
  pose proof (@credential_isolation Sample.builtins Sample.collaborator Sample.environment
                Sample.opening "session-b" Sample.bob ListToolsRequest
                opening_nonempty eq_refl) as [Hquery _].
  rewrite opening_two_sessions in Hquery.
  rewrite Hquery. reflexivity.
Defined.

(* ===================================================================== *)
(** ** Rejected messages *)
(* ===================================================================== *)

Section Routing.
Context {B : Builtins} {C : Collaborator} {E : Environment}.


End Routing.


(* ===================================================================== *)
(** ** The ambient session binding *)
(* ===================================================================== *)

Section Binding.
Context {B : Builtins} {C : Collaborator} {E : Environment}.
Import OAuthServer.

(** A suspended task that is not resumed stays as it is, frames and
    bindings, whatever else runs. *)
Lemma resume_in_place (w : World) (i : nat) (t : Task) (s : Shared) :
  tasks w !! i = Some t ->
  resume t (shared w) = (s, [], []) ->
  step w (Resume i) = {| shared := s; tasks := <[i := []]> (tasks w) |}.
Proof.
  intros Hi Hresume. simpl. rewrite Hi, Hresume. by rewrite app_nil_r.
Qed.

(** C2. Scoped ambient session binding.  [seen] stands for any way of
    observing what [sessionContext.getStore()] returns, and [ask] for a
    call of it whose result is observed.  Under
    [sessionContext.run(id, fn)] the call returns [id]: at once, inside
    a nested [run] (where the inner id wins and the outer one is back
    afterwards), in the continuation of [fn] after an await, and in an
    asynchronous function that [fn] started; after [run] has returned,
    at once or after its awaits, the caller sees its own store again,
    which is absent for a handler started by the event loop.  Two
    invocations for two ids that are both suspended keep their own
    bindings whatever handlers run in between and in whichever order
    they go on.  For every [fn] at all, and under every schedule, the
    server goes through the states it goes through when each call of
    [getStore] is answered lexically, by the innermost enclosing [run].
    In the server itself, [getCurrentAccessToken] called in the dispatch
    of a message routed to a registered session looks up the id of that
    session, also after an await, and looks up nothing when it is called
    outside any [run]. *)
Theorem withSession_scoped :
  (forall (seen : option string -> Obs) (id : string) (c : option string) (s : Shared),
      let ask := GetStore (fun x => Emit (seen x) Done) in
      exec c (Run id ask ask) s = (emit (seen c) (emit (seen (Some id)) s), [], [])
      /\ (forall id' : string,
            exec c (Run id (Run id' ask ask) ask) s
            = (emit (seen c) (emit (seen (Some id)) (emit (seen (Some id')) s)), [], []))
      /\ exec c (Run id (Await ask) ask) s
         = (s, [{| store := Some id; code := ask |}; {| store := c; code := ask |}], [])
      /\ (forall s' : Shared,
            resume [{| store := Some id; code := ask |}; {| store := c; code := ask |}] s'
            = (emit (seen c) (emit (seen (Some id)) s'), [], []))
      /\ exec c (Run id (Spawn (Await ask) Done) ask) s
         = (emit (seen c) s, [], [[{| store := Some id; code := ask |}]])
      /\ (forall s' : Shared,
            resume [{| store := Some id; code := ask |}] s'
            = (emit (seen (Some id)) s', [], [])))
  /\ (forall (seen : option string -> Obs) (id1 id2 : string) (w : World)
             (acts : list Action),
        let ask := GetStore (fun x => Emit (seen x) Done) in
        let n := length (tasks w) in
        let started :=
          run [Start (Run id1 (Await ask) ask); Start (Run id2 (Await ask) ask)] w in
        Resume n ∉ acts -> Resume (S n) ∉ acts ->
        let w' := run acts started in
        log (shared (run [Resume n; Resume (S n)] w'))
        = log (shared w') ++ [seen (Some id1); seen None; seen (Some id2); seen None]
        /\ log (shared (run [Resume (S n); Resume n] w'))
           = log (shared w') ++ [seen (Some id2); seen None; seen (Some id1); seen None])
  /\ (forall (id : string) (fn k : Prog) (c : option string) (s : Shared),
        exec c (Run id (resolve (Some id) fn) (resolve c k)) s
        = resolve_outcome (exec c (Run id fn k) s))
  /\ (forall (c : option string) (p : Prog), store_free (resolve c p))
  /\ (forall (acts : list Action) (w : World),
        resolve_world (run acts w) = run (resolve_action <$> acts) (resolve_world w))
  /\ (forall (seen : option string -> Obs) (sid : string) (transport : SSEServerTransport)
             (body : Message) (s : Shared),
        jsmap_get sid (transports s) = Some transport ->
        sid <> "" ->
        let query := getCurrentAccessToken (fun tok => Emit (seen tok) Done) in
        exec None (post_message_with (fun _ _ => query) (JStr sid) body) s
        = (emit (seen (jsmap_get sid (sessionTokens s))) s, [], [])
        /\ exec None (post_message_with (fun _ _ => Await query) (JStr sid) body) s
           = (s, [{| store := Some sid; code := query |}; {| store := None; code := Done |}],
              [])
        /\ (forall s' : Shared,
              resume [{| store := Some sid; code := query |};
                      {| store := None; code := Done |}] s'
              = (emit (seen (jsmap_get sid (sessionTokens s'))) s', [], []))
        /\ exec None query s = (emit (seen None) s, [], [])).
Proof.
  split_and!.
  - intros seen id c s ask. subst ask. split_and!; reflexivity.
  - intros seen id1 id2 w acts ask n started Hn HSn w'.
    set (t1 := [{| store := Some id1; code := ask |}; {| store := None; code := ask |}]).
    set (t2 := [{| store := Some id2; code := ask |}; {| store := None; code := ask |}]).
    assert (Hstarted : tasks started = tasks w ++ [t1; t2]).
    { subst started. unfold run. cbn [foldl step exec app tasks shared].
      by rewrite <- app_assoc. }
    assert (H1 : @eq (option Task) (tasks w' !! n) (Some t1)).
    { subst w'. apply run_other_tasks; [|done]. rewrite Hstarted.
      by apply list_lookup_middle. }
    assert (H2 : @eq (option Task) (tasks w' !! S n) (Some t2)).
    { subst w'. apply run_other_tasks; [|done]. rewrite Hstarted.
      change [t1; t2] with ([t1] ++ [t2]). rewrite app_assoc.
      apply list_lookup_middle. rewrite length_app. simpl. subst n.
      by rewrite Nat.add_1_r. }
    clearbody w'. unfold run. cbn [foldl]. split.
    + rewrite (resume_in_place w' n t1 _ H1 eq_refl).
      rewrite (resume_in_place _ (S n) t2
                 (emit (seen None) (emit (seen (Some id2))
                    (emit (seen None) (emit (seen (Some id1)) (shared w')))))).
      * cbn [shared log emit]. by rewrite <- !app_assoc.
      * cbn [tasks]. rewrite list_lookup_insert_ne by lia. exact H2.
      * reflexivity.
    + rewrite (resume_in_place w' (S n) t2 _ H2 eq_refl).
      rewrite (resume_in_place _ n t1
                 (emit (seen None) (emit (seen (Some id1))
                    (emit (seen None) (emit (seen (Some id2)) (shared w')))))).
      * cbn [shared log emit]. by rewrite <- !app_assoc.
      * cbn [tasks]. rewrite list_lookup_insert_ne by lia. exact H1.
      * reflexivity.
  - intros id fn k c s. apply (exec_resolve (Run id fn k)).
  - intros c p. apply resolve_store_free.
  - intros acts w. apply run_resolve.
  - intros seen sid transport body s Hreg Hsid query. subst query. split_and!.
    + rewrite (exec_post_message_registered _ sid transport) by done.
      cbn [exec]. by rewrite exec_getCurrentAccessToken.
    + by rewrite (exec_post_message_registered _ sid transport).
    + intros s'. cbn [resume store code]. by rewrite exec_getCurrentAccessToken.
    + reflexivity.
Qed.

End Binding.

(* ===================================================================== *)
(** ** Teardown *)
(* ===================================================================== *)

Section Teardown.
Context {B : Builtins} {C : Collaborator} {E : Environment}.
Import OAuthServer.

(** The state after the close (or error) listener of [sid] has run. *)
Lemma exec_on_close (c : option string) (sid : string) (s : Shared) :
  exec c (on_close sid) s
  = (set_sessionTokens (jsmap_delete sid) (set_transports (jsmap_delete sid) s), [], []).
Proof. reflexivity. Qed.

Lemma teardown_again (sid : string) (s : Shared) :
  set_sessionTokens (jsmap_delete sid)
    (set_transports (jsmap_delete sid)
       (set_sessionTokens (jsmap_delete sid) (set_transports (jsmap_delete sid) s)))
  = set_sessionTokens (jsmap_delete sid) (set_transports (jsmap_delete sid) s).
Proof.
  unfold set_sessionTokens, set_transports. simpl. by rewrite !jsmap_delete_idem.
Qed.

(** The close handler of the single-tenant server: it has the one map. *)
Lemma onclose_idempotent (s : Shared) (c : option string) (sid : string) :
  let closed := set_transports (jsmap_delete sid) s in
  exec c (HttpServer.onclose sid) s = (closed, [], [])
  /\ jsmap_get sid (transports closed) = None
  /\ exec c (HttpServer.onclose sid) closed = (closed, [], []).
Proof.
  split_and!; [done | apply jsmap_get_delete_eq |].
  simpl. unfold set_transports. simpl. by rewrite jsmap_delete_idem.
Qed.

End Teardown.

(* ===================================================================== *)
(** ** The capability listing *)
(* ===================================================================== *)

(** Every listing in the log is [tools], if every program that runs
    emits no other. *)
Section ListsOnly.
Variable tools : list Tool.

Lemma exec_lists_only (p : Prog) :
  forall (c : option string) (s : Shared),
    lists_only tools p -> Forall (listed tools) (log s) ->
    Forall (listed tools) (log (exec c p s).1.1)
    /\ task_lists_only tools (exec c p s).1.2
    /\ Forall (task_lists_only tools) (exec c p s).2.
Proof.
  unfold task_lists_only.
  induction p as [ | k IH | o k IH | k IH | id fn IHfn k IHk | child IHc k IHk
                 | sid' k IH | sid' t k IH | sid' k IH | k IH
                 | sid' k IH | sid' tok k IH | sid' k IH ];
    intros c s Hp Hs; simpl in *.
  - done.
  - split_and!; [done| |done]. by constructor.
  - destruct Hp as [Ho Hk]. apply IH; [done|]. simpl.
    apply Forall_app. split; [done|]. by constructor.
  - by apply IH.
  - destruct Hp as [Hfn Hk].
    specialize (IHfn (Some id) s Hfn Hs).
    destruct (exec (Some id) fn s) as [[s1 fs] sp]. simpl in IHfn.
    destruct IHfn as (Hs1 & Hfs & Hsp).
    destruct fs as [|f fs].
    + specialize (IHk c s1 Hk Hs1).
      destruct (exec c k s1) as [[s2 fs2] sp2]. simpl in *.
      destruct IHk as (? & ? & ?). split_and!; [done|done|]. by apply Forall_app.
    + simpl. split_and!; [done| |done].
      rewrite app_comm_cons. apply Forall_app. split; [done|]. by constructor.
  - destruct Hp as [Hc Hk].
    specialize (IHc c s Hc Hs).
    destruct (exec c child s) as [[s1 fs] sp]. simpl in IHc.
    destruct IHc as (Hs1 & Hfs & Hsp).
    specialize (IHk c s1 Hk Hs1).
    destruct (exec c k s1) as [[s2 fs2] sp2]. simpl in *.
    destruct IHk as (? & ? & ?). split_and!; [done|done|].
    apply Forall_app. split; [done|]. by constructor.
  - by apply IH.
  - by apply IH.
  - by apply IH.
  - by apply IH.
  - by apply IH.
  - by apply IH.
  - by apply IH.
Qed.

Lemma resume_lists_only (t : Task) :
  forall s : Shared,
    task_lists_only tools t -> Forall (listed tools) (log s) ->
    Forall (listed tools) (log (resume t s).1.1)
    /\ task_lists_only tools (resume t s).1.2
    /\ Forall (task_lists_only tools) (resume t s).2.
Proof.
  unfold task_lists_only.
  induction t as [|f callers IH]; intros s Ht Hs; simpl.
  - done.
  - apply Forall_cons in Ht as [Hf Hcallers].
    pose proof (exec_lists_only (code f) (store f) s Hf Hs) as Hexec.
    destruct (exec (store f) (code f) s) as [[s1 fs] sp]. simpl in Hexec.
    destruct Hexec as (Hs1 & Hfs & Hsp).
    destruct fs as [|f' fs].
    + specialize (IH s1 Hcallers Hs1).
      destruct (resume callers s1) as [[s2 fs2] sp2]. simpl in *.
      destruct IH as (? & ? & ?). split_and!; [done|done|]. by apply Forall_app.
    + simpl. split_and!; [done| |done].
      rewrite app_comm_cons. by apply Forall_app.
Qed.

Lemma run_lists_only (acts : list Action) :
  forall w : World,
    Forall (listed tools) (log (shared w)) -> Forall (task_lists_only tools) (tasks w) ->
    Forall (fun a => match a with
                     | Start handler => lists_only tools handler
                     | Resume _ => True
                     end) acts ->
    Forall (listed tools) (log (shared (run acts w))).
Proof.
  unfold run. induction acts as [|a acts IH]; intros w Hs Hts Hacts; simpl; [done|].
  apply Forall_cons in Hacts as [Ha Hacts].
  destruct a as [handler | i]; simpl.
  - pose proof (exec_lists_only handler None (shared w) Ha Hs) as Hexec.
    destruct (exec None handler (shared w)) as [[s fs] sp]. simpl in Hexec.
    destruct Hexec as (? & ? & ?). apply IH; simpl; [done| |done].
    apply Forall_app. split; [done|]. by constructor.
  - destruct (tasks w !! i) as [t|] eqn:Hi; [|by apply IH].
    pose proof (resume_lists_only t (shared w)
                  (proj1 (Forall_lookup _ _) Hts i t Hi) Hs) as Hres.
    destruct (resume t (shared w)) as [[s fs] sp]. simpl in Hres.
    destruct Hres as (? & ? & ?). apply IH; simpl; [done| |done].
    apply Forall_app. split; [|done]. by apply Forall_insert.
Qed.

End ListsOnly.

Section Listing.
Context {B : Builtins} {C : Collaborator} {E : Environment}.

Ltac no_listing := solve [simpl; repeat first [ done | split | intros ? [=] | intro ]].

Lemma lists_only_after_calls (tools : list Tool) (calls : list (HealthDataAPI * ApiCall))
    (k : Prog) :
  lists_only tools k -> lists_only tools (after_calls calls k).
Proof.
  intros Hk. induction calls as [|[api call] calls IH]; simpl; [done|].
  split; [by intros l [=]|done].
Qed.

(** A tools/call handler emits no listing. *)
Lemma lists_only_settle (tools : list Tool) (e : Eff ToolResponse) :
  lists_only tools (settle e).
Proof.
  destruct e as [calls [response|error]]; simpl; apply lists_only_after_calls;
    no_listing.
Qed.

Lemma oauth_handler_lists_only (r : OAuthServer.Request) :
  lists_only OAuthServer.tools (OAuthServer.handler r).
Proof.
  destruct r as [authorization transport connect | sessionId body
                | sessionId body headersSent | code error exchange uuid]; simpl.
  - unfold OAuthServer.get_sse.
    destruct (OAuthServer.bearer_token authorization) as [tok|]; [|no_listing].
    destruct (falsy_string (Some tok)); [no_listing|].
    destruct connect as [|[]]; no_listing.
  - unfold OAuthServer.post_message, OAuthServer.post_message_with.
    destruct (negb _); [no_listing|].
    destruct sessionId; try no_listing.
    simpl. intros [transport|]; [|no_listing]. simpl.
    split; [|done]. split; [by intros l [=]|].
    destruct body as [|name args|]; simpl; try done.
    + split; [by intros l [= <-]|done].
    + assert (Hwith : forall tok,
                 lists_only OAuthServer.tools
                   (OAuthServer.CallToolRequestHandler_with tok name args)).
      { intros tok. unfold OAuthServer.CallToolRequestHandler_with.
        destruct (falsy_string tok); [no_listing|].
        destruct tok; [|no_listing]. apply lists_only_settle. }
      intros c. destruct (falsy_string c); [apply Hwith|].
      destruct c as [c|]; [|apply Hwith].
      intros tok. apply Hwith.
  - unfold OAuthServer.post_message_refused, OAuthServer.post_message_with.
    destruct (negb _); [no_listing|].
    destruct sessionId; try no_listing.
    simpl. intros [transport|]; [|no_listing]. simpl.
    split; [|done]. destruct headersSent; no_listing.
  - unfold OAuthServer.get_oauth_callback.
    destruct (truthy error); [no_listing|].
    destruct (negb _); [no_listing|]. simpl.
    destruct exchange as [[tok|]|]; simpl; try no_listing.
    destruct (String.eqb tok ""); no_listing.
Qed.

Lemma http_handler_lists_only (p : Prog) :
  http_handler p -> lists_only HttpServer.TOOLS p.
Proof.
  intros [[transport ->] | [(sessionId & body & ->) | [sessionId ->]]].
  - done.
  - unfold HttpServer.post_message.
    destruct (negb _); [no_listing|].
    destruct sessionId; simpl; try no_listing.
    intros [transport|]; simpl; [|no_listing].
    split; [by intros l [=]|].
    destruct body as [|name args|]; simpl; try done.
    + split; [by intros l [= <-]|done].
    + apply lists_only_settle.
  - done.
Qed.

(** C9, amended.  The listing is fixed, but only in the single-tenant
    server is it computed once.  Under every schedule of any requests
    and events, from the start of the server on, every listing that
    either SSE server has answered is the one list of its five
    descriptors, whichever session asked, whatever the maps held and
    whatever was called before; and a tools/list routed to a registered
    session is answered with that list.  In http-server.ts the list is
    the array [TOOLS] of the module, made when the module is loaded:
    the handler returns that array and makes none.  The handler of the
    OAuth server makes a new array on every call, equal to the ones
    before and distinct from them, and leaves the earlier arrays as
    they are. *)
Theorem capability_listing_fixed :
  (forall events : list OAuthServer.Event,
      Forall (fun o => forall l, o = ToolsList l -> l = OAuthServer.tools)
             (log (shared (OAuthServer.serve events initial))))
  /\ (forall acts : list Action,
        Forall (fun a => match a with
                         | Start handler => http_handler handler
                         | Resume _ => True
                         end) acts ->
        Forall (fun o => forall l, o = ToolsList l -> l = HttpServer.TOOLS)
               (log (shared (run acts initial))))
  /\ (forall (s : Shared) (sid : string) (transport : SSEServerTransport),
        jsmap_get sid (transports s) = Some transport -> sid <> "" ->
        exec None (OAuthServer.post_message (JStr sid) ListToolsRequest) s
        = (emit (ToolsList OAuthServer.tools) (emit (HttpReply 202 (JStr "Accepted")) s),
           [], [])
        /\ forall s' : Shared,
             resume (exec None (HttpServer.post_message (JStr sid) ListToolsRequest) s).1.2 s'
             = (emit (ToolsList HttpServer.TOOLS) (emit (HttpReply 202 (JStr "Accepted")) s'),
                [], []))
  /\ map name OAuthServer.tools
     = ["search"; "fetch"; "get_glucose_readings"; "get_latest_glucose"; "get_glucose_stats"]
  /\ map name HttpServer.TOOLS
     = ["search"; "fetch"; "get_glucose_readings"; "get_latest_glucose"; "get_glucose_stats"]
  /\ http_TOOLS_loaded = (0%nat, [HttpServer.TOOLS])
  /\ (forall h : Heap, http_list_tools h = (0%nat, h))
  /\ (forall h : Heap,
        let made := oauth_list_tools h in
        h !! made.1 = None
        /\ made.2 !! made.1 = Some OAuthServer.tools
        /\ forall (a : nat) (x : list Tool), h !! a = Some x -> made.2 !! a = Some x).
Proof.
  split_and!; try reflexivity.
  - intros events. unfold OAuthServer.serve.
    apply (run_lists_only OAuthServer.tools); [constructor | constructor |].
    apply Forall_fmap, Forall_forall. intros [r|i] _; simpl; [|done].
    apply oauth_handler_lists_only.
  - intros acts Hacts.
    apply (run_lists_only HttpServer.TOOLS); [constructor | constructor |].
    eapply Forall_impl; [exact Hacts|].
    intros [handler|i] Ha; [|done]. by apply http_handler_lists_only.
  - intros s sid transport Hreg Hsid. split.
    + unfold OAuthServer.post_message.
      by rewrite (exec_post_message_registered _ sid transport).
    + intros s'. unfold HttpServer.post_message.
      apply truthy_JStr in Hsid. rewrite Hsid. cbn [negb transports_get exec].
      by rewrite Hreg.
  - intros h made. subst made. unfold oauth_list_tools, new_array. cbn [fst snd].
    split_and!.
    + apply lookup_ge_None. lia.
    + by apply list_lookup_middle.
    + intros a x Ha. by apply lookup_app_l_Some.
Qed.

End Listing.

(** C9 as stated fails in the OAuth server: the descriptors are not
    computed once.  Two calls of its tools/list handler, one after the
    other from the empty heap, return two arrays at two addresses, each
    holding the five descriptors; the single-tenant server returns the
    array at address 0 both times and makes none. *)
Lemma capability_listing_rebuilt :
  let first := oauth_list_tools [] in
  let second := oauth_list_tools first.2 in
  first.1 <> second.1
  /\ second.2 !! first.1 = Some OAuthServer.tools
  /\ second.2 !! second.1 = Some OAuthServer.tools
  /\ length second.2 = 2%nat
  /\ (@http_list_tools Sample.environment (@http_TOOLS_loaded Sample.environment).2).1
     = (@http_list_tools Sample.environment
          (@http_list_tools Sample.environment (@http_TOOLS_loaded Sample.environment).2).2).1
  /\ length (@http_list_tools Sample.environment
               (@http_list_tools Sample.environment
                  (@http_TOOLS_loaded Sample.environment).2).2).2
     = 1%nat.
Proof. split_and!; try reflexivity. discriminate. Qed.

(* ===================================================================== *)
(** ** The tools/call handlers *)
(* ===================================================================== *)

Section ToolCalls.
Context {B : Builtins} {C : Collaborator} {E : Environment}.

Lemma eqb_false_of_ne (a b : string) : a <> b -> String.eqb a b = false.
Proof. apply String.eqb_neq. Qed.

(** The switch of the five-tool servers on a name that is none of the five. *)
Lemma tool_switch_unknown (api : HealthDataAPI) (userId : Json) (name : string) (args : Args) :
  name ∉ ["search"; "fetch"; "get_glucose_readings"; "get_latest_glucose";
          "get_glucose_stats"] ->
  tool_switch api userId name args = unknown_tool name.
Proof.
  intros Hname. unfold tool_switch.
  repeat (apply not_elem_of_cons in Hname as [Hne Hname];
          rewrite (eqb_false_of_ne _ _ Hne); clear Hne).
  done.
Qed.

(** C4, amended.  Unknown capability response.  For a tool name that is
    none of the five, a call that passes the guard of its server (a
    userId supplied or configured in the single-tenant servers, an access
    token for the session in the OAuth server) returns normally, without
    contacting the collaborator, a response with [isError] true whose
    single text block is the message [Unknown tool: <name>] behind the
    prefix every caught error gets: [Error: ] in the single-tenant
    servers, [❌ Error: ] in the OAuth server. *)
Theorem unknown_tool_response (name : string) (args : Args) :
  name ∉ ["search"; "fetch"; "get_glucose_readings"; "get_latest_glucose";
          "get_glucose_stats"] ->
  (truthy (js_or (arg args "userId") (JStr HttpServer.DEFAULT_USER_ID)) = true ->
   HttpServer.CallToolRequestHandler name args
   = ([], Ok (error_text ("Error: Unknown tool: " +:+ name)))
   /\ StdioServer.CallToolRequestHandler name args
      = ([], Ok (error_text ("Error: Unknown tool: " +:+ name))))
  /\ (forall accessToken : string,
        OAuthServer.call_tool accessToken name args
        = ([], Ok (error_text ("❌ Error: Unknown tool: " +:+ name))))
  /\ (forall (s : Shared) (sid accessToken : string),
        sid <> "" ->
        jsmap_get sid (sessionTokens s) = Some accessToken ->
        accessToken <> "" ->
        exec (Some sid) (OAuthServer.CallToolRequestHandler name args) s
        = (emit (ToolResult (error_text ("❌ Error: Unknown tool: " +:+ name))) s, [], [])).
Proof.
  intros Hname.
  assert (Hoauth : forall accessToken : string,
            OAuthServer.call_tool accessToken name args
            = ([], Ok (error_text ("❌ Error: Unknown tool: " +:+ name)))).
  { intros accessToken. unfold OAuthServer.call_tool.
    by rewrite tool_switch_unknown. }
  split_and!.
  - intros Huser. split.
    + unfold HttpServer.CallToolRequestHandler. rewrite Huser. cbn [negb].
      by rewrite tool_switch_unknown.
    + unfold StdioServer.CallToolRequestHandler. unfold HttpServer.DEFAULT_USER_ID in Huser.
      unfold StdioServer.DEFAULT_USER_ID. rewrite Huser. cbn [negb].
      do 2 (apply not_elem_of_cons in Hname as [_ Hname]).
      repeat (apply not_elem_of_cons in Hname as [Hne Hname];
              rewrite (eqb_false_of_ne _ _ Hne); clear Hne).
      done.
  - done.
  - intros s sid accessToken Hsid Htok Hne.
    unfold OAuthServer.CallToolRequestHandler.
    rewrite exec_getCurrentAccessToken by done. rewrite Htok.
    unfold OAuthServer.CallToolRequestHandler_with.
    apply falsy_string_Some in Hne. rewrite Hne.
    rewrite Hoauth. reflexivity.
Qed.

End ToolCalls.

Lemma unknown_tool_response_witness :
  @OAuthServer.call_tool Sample.builtins Sample.collaborator Sample.environment
    "token-a" "bogus" None
  = ([], Ok (error_text "❌ Error: Unknown tool: bogus")).
Proof.
  refine (proj1 (proj2
    (@unknown_tool_response Sample.builtins Sample.collaborator Sample.environment
       "bogus" None _)) "token-a").
  repeat (apply not_elem_of_cons; split; [discriminate|]). apply not_elem_of_nil.
Defined.

(** C4 as stated fails: the text block of the response to the unknown
    name [bogus] is not [Unknown tool: bogus]; the handlers put their
    error prefix before the message.  And a call that does not pass the
    guard of its server is answered by the guard, whatever the name. *)
Lemma unknown_tool_text_counterexample :
  let call := Some [("userId", JStr "lucas@example.com")] in
  @HttpServer.CallToolRequestHandler Sample.builtins Sample.collaborator Sample.environment
    "bogus" call
  = ([], Ok (error_text "Error: Unknown tool: bogus"))
  /\ @HttpServer.CallToolRequestHandler Sample.builtins Sample.collaborator Sample.environment
       "bogus" call
     <> ([], Ok {| content := [{| type := "text"; text := "Unknown tool: bogus" |}];
                   isError := Some true |})
  /\ exec (Some "session-a")
       (@OAuthServer.CallToolRequestHandler Sample.builtins Sample.collaborator
          Sample.environment "bogus" None)
       Sample.two_sessions
     = (emit (ToolResult (error_text "❌ Error: Unknown tool: bogus")) Sample.two_sessions,
        [], [])
  /\ @OAuthServer.call_tool Sample.builtins Sample.collaborator Sample.environment
       "token-a" "bogus" None
     <> ([], Ok {| content := [{| type := "text"; text := "Unknown tool: bogus" |}];
                   isError := Some true |})
  /\ @HttpServer.CallToolRequestHandler Sample.builtins Sample.collaborator Sample.environment
       "bogus" None
     = ([], Ok (error_text
          "Error: userId is required. Either provide it in the tool call or set USER_ID environment variable."))
  /\ exec None
       (@OAuthServer.CallToolRequestHandler Sample.builtins Sample.collaborator
          Sample.environment "bogus" None)
       Sample.two_sessions
     = (emit (ToolResult (error_text
                "❌ Error: No access token available. Please re-authenticate."))
          Sample.two_sessions, [], []).
Proof.
  split_and!.
  - reflexivity.
  - discriminate.
  - reflexivity.
  - discriminate.
  - reflexivity.
  - reflexivity.
Qed.

Section Fetch.
Context {B : Builtins} {E : Environment}.

Lemma split_colon_iso :
  split_colon "reading:2024-01-15T10:30:00Z" = ["reading"; "2024-01-15T10"; "30"; "00Z"].
Proof. reflexivity. Qed.

(** What [case 'fetch'] does with the id [reading:2024-01-15T10:30:00Z],
    with any clock and date parser, against the collaborator that answers
    every range query with the reading dated [2024-01-15T10:30:00Z]. *)
Lemma tool_fetch_iso_id (api : HealthDataAPI) (userId : Json) (others : list (string * Json)) :
  exists calls : list (HealthDataAPI * ApiCall),
    @tool_fetch B Sample.collaborator api userId
      (Some (("id", JStr "reading:2024-01-15T10:30:00Z") :: others))
    = (calls, Throw (Error "Invalid time value"))
    \/ @tool_fetch B Sample.collaborator api userId
         (Some (("id", JStr "reading:2024-01-15T10:30:00Z") :: others))
       = (calls, Throw (Error "Reading not found for ID: reading:2024-01-15T10:30:00Z")).
Proof.
  unfold tool_fetch. cbn [arg field String.eqb Ascii.eqb Bool.eqb truthy negb].
  rewrite split_colon_iso. cbn [nth lookup list_lookup from_option new_Date].
  change (negb ("reading" =? "reading")%string) with false. cbv iota.
  destruct (Date_parse "2024-01-15T10") as [t|]; cbn [mbind option_bind].
  - unfold iso_range. destruct (TimeClip (t - 1 * 60 * 60 * 1000)) as [t1|]; cbn [toISOString].
    + destruct (TimeClip (t + 1 * 60 * 60 * 1000)) as [t2|]; cbn [toISOString].
      * eexists. right. reflexivity.
      * eexists. left. reflexivity.
    + eexists. left. reflexivity.
  - eexists. left. reflexivity.
Qed.

(** C5 at the id of the claim.  Fetch never returns the reading dated
    [2024-01-15T10:30:00Z] for the id [reading:2024-01-15T10:30:00Z],
    though the collaborator holds it in every window: [id.split(':')]
    cuts the timestamp at its first colon, to [2024-01-15T10], and the
    call ends in an error block (an invalid date, or no reading with that
    shortened date). *)
Theorem fetch_iso_id_is_error :
  let args := Some [("id", JStr "reading:2024-01-15T10:30:00Z");
                    ("userId", JStr "lucas@example.com")] in
  (exists (calls : list (HealthDataAPI * ApiCall)) (response : ToolResponse),
      @HttpServer.CallToolRequestHandler B Sample.collaborator E "fetch" args
      = (calls, Ok response)
      /\ isError response = Some true
      /\ (content response = text_content "Error: Invalid time value"
          \/ content response
             = text_content "Error: Reading not found for ID: reading:2024-01-15T10:30:00Z"))
  /\ (forall accessToken : string,
        exists (calls : list (HealthDataAPI * ApiCall)) (response : ToolResponse),
          @OAuthServer.call_tool B Sample.collaborator E accessToken "fetch" args
          = (calls, Ok response)
          /\ isError response = Some true
          /\ (content response = text_content "❌ Error: Invalid time value"
              \/ content response
                 = text_content
                     "❌ Error: Reading not found for ID: reading:2024-01-15T10:30:00Z")).
Proof.
  intros args. subst args. split.
  - unfold HttpServer.CallToolRequestHandler, tool_switch.
    cbn [arg field String.eqb Ascii.eqb Bool.eqb js_or truthy negb].
    destruct (tool_fetch_iso_id HttpServer.api (JStr "lucas@example.com")
                [("userId", JStr "lucas@example.com")]) as [calls [-> | ->]];
      cbn [try_catch ret message Error];
      eexists _, _; (split; [reflexivity|]); split; try reflexivity;
      [left | right]; reflexivity.
  - intros accessToken. unfold OAuthServer.call_tool, tool_switch.
    cbn [String.eqb Ascii.eqb Bool.eqb].
    destruct (tool_fetch_iso_id
                {| baseURL := BACKEND_URL; authToken := accessToken; isBearer := true |}
                (JStr "oauth-user")
                [("userId", JStr "lucas@example.com")]) as [calls [-> | ->]];
      cbn [try_catch ret];
      eexists _, _; (split; [reflexivity|]); split; try reflexivity;
      [left | right]; reflexivity.
Qed.

End Fetch.

Section FetchByDesign.
Context {B : Builtins} {C : Collaborator}.

Lemma split_colon_colon_free (s : string) : has_colon s = false -> split_colon s = [s].
Proof.
  induction s as [|c s IH]; simpl; [done|].
  destruct (Ascii.eqb c ":"); simpl; [done|]. intros Hs. by rewrite IH.
Qed.

Lemma split_colon_reading (ts : string) :
  has_colon ts = false -> split_colon ("reading:" +:+ ts) = ["reading"; ts].
Proof. intros Hts. simpl. by rewrite split_colon_colon_free. Qed.

(** [find] returns the first reading whose date is the string sought. *)
Lemma find_reading_Some (ts : string) (readings : list GlucoseReading) (r : GlucoseReading) :
  find_reading (Some ts) readings = Some r -> In r readings /\ date r = JStr ts.
Proof.
  unfold find_reading. intros Hfind. apply find_some in Hfind as [Hin Heq].
  split; [done|]. destruct (date r); try done. simpl in Heq.
  by apply String.eqb_eq in Heq as ->.
Qed.

Lemma find_reading_None (ts : string) (readings : list GlucoseReading) :
  find_reading (Some ts) readings = None ->
  forall r : GlucoseReading, In r readings -> date r <> JStr ts.
Proof.
  unfold find_reading. intros Hfind r Hin Hdate.
  pose proof (find_none _ _ Hfind r Hin) as Hneq. simpl in Hneq.
  rewrite Hdate in Hneq. simpl in Hneq. by rewrite String.eqb_refl in Hneq.
Qed.

(** What [case 'fetch'] does for an id whose timestamp has no colon in
    it (a calendar date, say): one range query from an hour before to an
    hour after the parsed time, then the first reading dated exactly so,
    or the not-found error. *)
Lemma tool_fetch_colon_free (api : HealthDataAPI) (userId : Json) (ts : string)
    (others : list (string * Json)) (t t1 t2 : Z) (readings : list GlucoseReading) :
  has_colon ts = false ->
  Date_parse ts = Some t ->
  TimeClip (t - 1 * 60 * 60 * 1000) = Some t1 ->
  TimeClip (t + 1 * 60 * 60 * 1000) = Some t2 ->
  let window := {| rp_userId := userId; rp_startDate := JStr (Date_toISOString t1);
                   rp_endDate := JStr (Date_toISOString t2); rp_limit := JNum 100 |} in
  remote_getGlucoseReadings api window = Ok readings ->
  exists outcome : Result ToolResponse,
    tool_fetch api userId (Some (("id", JStr ("reading:" +:+ ts)) :: others))
    = ([(api, GetGlucoseReadings window)], outcome)
    /\ match find_reading (Some ts) readings with
       | Some reading => exists payload : Json, outcome = Ok (ok_text (JSON_stringify payload))
       | None => outcome = Throw (Error ("Reading not found for ID: reading:" +:+ ts))
       end.
Proof.
  intros Hts Hparse Ht1 Ht2 window Hremote.
  unfold tool_fetch. cbn [arg field String.eqb Ascii.eqb Bool.eqb].
  change (truthy (JStr ("reading:" +:+ ts))) with true. cbn [negb].
  rewrite (split_colon_reading ts Hts).
  cbn [nth lookup list_lookup from_option new_Date].
  change (negb ("reading" =? "reading")%string) with false. cbv iota.
  rewrite Hparse. cbn [mbind option_bind]. rewrite Ht1, Ht2.
  unfold iso_range, toISOString, lift, getGlucoseReadings, bind. cbn [r_startDate r_endDate].
  fold window. rewrite Hremote.
  destruct (find_reading (Some ts) readings) as [reading|]; simpl.
  - eexists. split; [reflexivity|]. by eexists.
  - eexists. split; [reflexivity|]. reflexivity.
Qed.

End FetchByDesign.

(* ===================================================================== *)
(** ** Guards of the tools/call handlers *)
(* ===================================================================== *)

Section Guards.
Context {B : Builtins} {C : Collaborator} {E : Environment}.

(** C6. Missing-credential behaviour.  When the OAuth server's tools/call
    handler runs outside any session binding, or under the binding of a
    session for which [sessionTokens] holds no token, then whatever tool
    name and arguments were sent it resolves at once to the response with
    [isError] true that asks to re-authenticate: it sends nothing to the
    collaborator, its promise does not reject, and nothing is left
    suspended.  So does a call routed through /message to a registered
    session without a token. *)
Theorem missing_credential_response (c : option string) (s : Shared)
    (name : string) (args : Args) :
  c = None \/ (exists sid : string, c = Some sid /\ jsmap_get sid (sessionTokens s) = None) ->
  exec c (OAuthServer.CallToolRequestHandler name args) s
  = (emit (ToolResult OAuthServer.reauthenticate) s, [], [])
  /\ OAuthServer.reauthenticate
     = {| content := [{| type := "text";
                         text := "❌ Error: No access token available. Please re-authenticate." |}];
          isError := Some true |}
  /\ (forall (sid : string) (transport : SSEServerTransport),
        c = Some sid -> sid <> "" ->
        jsmap_get sid (transports s) = Some transport ->
        exec None (OAuthServer.post_message (JStr sid) (CallToolRequest name args)) s
        = (emit (ToolResult OAuthServer.reauthenticate)
             (emit (HttpReply 202 (JStr "Accepted")) s), [], [])).
Proof.
  intros Hmissing. split_and!.
  - unfold OAuthServer.CallToolRequestHandler, OAuthServer.getCurrentAccessToken.
    destruct Hmissing as [-> | (sid & -> & Hnone)]; [reflexivity|].
    cbn [exec]. destruct (falsy_string (Some sid)); [reflexivity|].
    cbn [exec]. by rewrite Hnone.
  - reflexivity.
  - intros sid transport -> Hsid Hreg.
    destruct Hmissing as [? | (sid' & [= <-] & Hnone)]; [done|].
    unfold OAuthServer.post_message.
    rewrite (exec_post_message_registered _ sid transport) by done.
    unfold OAuthServer.handlePostMessage, OAuthServer.handleMessage,
      OAuthServer.CallToolRequestHandler.
    cbn [exec]. rewrite exec_getCurrentAccessToken by done.
    cbn [emit sessionTokens]. by rewrite Hnone.
Qed.

(** C10. Implicit userId precondition in the single-tenant servers.
    When a call carries no [userId] argument and no [USER_ID] is
    configured, the tools/call handler of the stdio server and of the
    single-tenant SSE server returns, for every tool name, known or
    not, and whatever the other arguments, the response with [isError]
    true that says a userId is required; it has then sent nothing to the
    collaborator and it does not throw. *)
Theorem userId_guard_first (name : string) (args : Args) :
  arg args "userId" = JUndefined ->
  env_or_empty env_USER_ID = "" ->
  let required :=
    {| content := [{| type := "text";
                      text := "Error: userId is required. Either provide it in the tool call or set USER_ID environment variable." |}];
       isError := Some true |} in
  StdioServer.CallToolRequestHandler name args = ([], Ok required)
  /\ HttpServer.CallToolRequestHandler name args = ([], Ok required).
Proof.
  intros Harg Henv required.
  unfold StdioServer.CallToolRequestHandler, HttpServer.CallToolRequestHandler,
    StdioServer.DEFAULT_USER_ID, HttpServer.DEFAULT_USER_ID.
  rewrite Harg, Henv. split; reflexivity.
Qed.

End Guards.

Lemma missing_credential_response_witness :
  exec (Some "session-x")
    (@OAuthServer.CallToolRequestHandler Sample.builtins Sample.collaborator
       Sample.environment "get_latest_glucose" None)
    Sample.two_sessions
  = (emit (ToolResult OAuthServer.reauthenticate) Sample.two_sessions, [], []).
Proof.
  refine (proj1
    (@missing_credential_response Sample.builtins Sample.collaborator Sample.environment
       (Some "session-x") Sample.two_sessions "get_latest_glucose" None _)).
  right. exists "session-x". split; reflexivity.
Defined.

Lemma userId_guard_first_witness :
  @HttpServer.CallToolRequestHandler Sample.builtins Sample.collaborator Sample.environment
    "bogus" (Some [("query", JStr "today")])
  = ([], Ok (error_text
       "Error: userId is required. Either provide it in the tool call or set USER_ID environment variable.")).
Proof.
  refine (proj2
    (@userId_guard_first Sample.builtins Sample.collaborator Sample.environment
       "bogus" (Some [("query", JStr "today")]) _ _)).
  - reflexivity.
  - reflexivity.
Defined.

(* ===================================================================== *)
(** ** Runs on concrete inputs *)
(* ===================================================================== *)

Example split_colon_plain : split_colon "reading:2024-01-15" = ["reading"; "2024-01-15"].
Proof. reflexivity. Qed.

Example split_colon_no_colon : split_colon "reading" = ["reading"].
Proof. reflexivity. Qed.

Example match_last_days_30 : match_last_days "glucose for the last 30 days" = Some "30".
Proof. reflexivity. Qed.

Example match_last_days_day : match_last_days "last 1 day" = Some "1".
Proof. reflexivity. Qed.

Example match_last_days_none : match_last_days "last week" = None.
Proof. reflexivity. Qed.

Example parseInt_30 : parseInt "30" = 30.
Proof. reflexivity. Qed.

Example includes_today : includes "today" "levels today?" = true.
Proof. reflexivity. Qed.

Example bearer_token_example :
  OAuthServer.bearer_token (Some "Bearer token-a") = Some "token-a".
Proof. reflexivity. Qed.

(** The bare scheme carries the empty token, which the guard refuses. *)
Example bearer_token_empty :
  OAuthServer.bearer_token (Some "Bearer ") = Some EmptyString
  /\ exec None (OAuthServer.get_sse (Some "Bearer ") Sample.alice OAuthServer.Connected)
       Sample.two_sessions
     = (emit (HttpReply 401 (JObj [
                ("error", JStr "unauthorized");
                ("error_description", JStr "Bearer token required")]))
          Sample.two_sessions, [], []).
Proof. split; reflexivity. Qed.

(** Two calls in flight, one per session: each request to the
    collaborator carries the token of the session that sent the call,
    in whichever order the calls are answered. *)
Example interleaved_calls :
  let client := fun token =>
    {| baseURL := "https://backend.example"; authToken := token; isBearer := true |} in
  log (shared (@OAuthServer.serve Sample.builtins Sample.collaborator Sample.environment
                 Sample.interleaved {| shared := Sample.two_sessions; tasks := [] |}))
  = [ HttpReply 202 (JStr "Accepted");
      ApiRequest (client "token-a") (GetLatestGlucose (JStr "oauth-user"));
      HttpReply 202 (JStr "Accepted");
      ApiRequest (client "token-b") (GetLatestGlucose (JStr "oauth-user"));
      ToolResult (ok_text "{}");
      ToolResult (ok_text "{}") ].
Proof. reflexivity. Qed.

(* ===================================================================== *)
(** * Further properties of the code *)
(* ===================================================================== *)

(* ===================================================================== *)
(** ** The [last N days] pattern and the date window of a query *)
(* ===================================================================== *)

Lemma append_cons (a : ascii) (p r : string) : String a p +:+ r = String a (p +:+ r).
Proof. reflexivity. Qed.

Lemma prefix_spec (p s : string) :
  String.prefix p s = true <-> exists r : string, s = p +:+ r.
Proof.
  revert s. induction p as [|a p IH]; intros s.
  - split; [intros _; by exists s | intros _; by destruct s].
  - destruct s as [|b s]; cbn [String.prefix].
    + split; [done | intros [r Hr]; rewrite append_cons in Hr; discriminate].
    + destruct (ascii_dec a b) as [->|Hne].
      * rewrite IH. split; intros [r Hr]; exists r.
        -- rewrite append_cons. congruence.
        -- rewrite append_cons in Hr. congruence.
      * split; [done | intros [r Hr]; rewrite append_cons in Hr; congruence].
Qed.

Lemma substring_from_app (p r : string) :
  substring_from (String.length p) (p +:+ r) = r.
Proof. induction p as [|a p IH]; [reflexivity | exact IH]. Qed.

Lemma includes_of_prefix (p s : string) : String.prefix p s = true -> includes p s = true.
Proof. intros Hp. destruct s; cbn [includes]; by rewrite Hp. Qed.

Lemma includes_tail (p : string) (a : ascii) (s : string) :
  includes p s = true -> includes p (String a s) = true.
Proof. intros Hs. cbn [includes]. rewrite Hs. apply orb_true_r. Qed.

Lemma span_digits_spec (s : string) :
  forall d r : string,
    span_digits s = (d, r) -> s = d +:+ r /\ all_digits d = true.
Proof.
  induction s as [|c s IH]; intros d r; cbn [span_digits].
  - by intros [= <- <-].
  - destruct (is_digit c) eqn:Hc.
    + destruct (span_digits s) as [d' r'] eqn:Hs. intros [= <- <-].
      destruct (IH d' r' eq_refl) as [-> Hd]. rewrite append_cons.
      split; [done|]. cbn [all_digits]. by rewrite Hc, Hd.
    + by intros [= <- <-].
Qed.

Lemma span_digits_app (d r : string) :
  all_digits d = true -> String.prefix " " r = true -> span_digits (d +:+ r) = (d, r).
Proof.
  intros Hd Hr. induction d as [|c d IH]; cbn [all_digits] in Hd.
  - apply prefix_spec in Hr as [r' ->]. reflexivity.
  - apply andb_true_iff in Hd as [Hc Hd]. rewrite append_cons. cbn [span_digits].
    by rewrite Hc, IH.
Qed.

Lemma append_assoc (a b c : string) : (a +:+ b) +:+ c = a +:+ (b +:+ c).
Proof.
  induction a as [|x a IH]; [reflexivity|]. rewrite !append_cons. by rewrite IH.
Qed.

(** A match at the start of [s] is the text [last ], the captured digits
    and [ day] at the start of [s]. *)
Lemma match_last_days_here_spec (s d : string) :
  match_last_days_here s = Some d <->
  d <> "" /\ all_digits d = true /\ String.prefix ("last " +:+ d +:+ " day") s = true.
Proof.
  unfold match_last_days_here. split.
  - destruct (String.prefix "last " s) eqn:Hlast; [|done].
    apply prefix_spec in Hlast as [rest ->].
    change 5%nat with (String.length "last "). rewrite substring_from_app.
    destruct (span_digits rest) as [digits after] eqn:Hspan.
    destruct (span_digits_spec rest digits after Hspan) as [-> Hdigits].
    destruct (String.eqb_spec digits "") as [|Hne]; [done|]. simpl negb. cbn [andb].
    destruct (String.prefix " day" after) eqn:Hday; [|done]. intros [= <-].
    split_and!; [done | done |].
    apply prefix_spec in Hday as [tail ->]. apply prefix_spec. exists tail.
    by rewrite !append_assoc.
  - intros (Hne & Hdigits & Hprefix). apply prefix_spec in Hprefix as [tail ->].
    rewrite !append_assoc.
    assert (Hlast : String.prefix "last " ("last " +:+ d +:+ " day" +:+ tail) = true)
      by (apply prefix_spec; by eexists).
    rewrite Hlast.
    change 5%nat with (String.length "last "). rewrite substring_from_app.
    rewrite span_digits_app by done.
    destruct (String.eqb_spec d "") as [|_]; [done|].
    assert (Hday : String.prefix " day" (" day" +:+ tail) = true)
      by (apply prefix_spec; by eexists).
    by rewrite Hday.
Qed.

Lemma digit_value (c : ascii) :
  is_digit c = true -> 0 <= Z.of_nat (nat_of_ascii c) - 48 <= 9.
Proof.
  unfold is_digit. intros Hc. apply andb_true_iff in Hc as [Hlo Hhi].
  apply Nat.leb_le in Hlo, Hhi. lia.
Qed.

Lemma parseInt_acc_nonneg (s : string) :
  forall acc : Z, 0 <= acc -> all_digits s = true -> 0 <= parseInt_acc acc s.
Proof.
  induction s as [|c s IH]; intros acc Hacc Hs; simpl in *; [done|].
  apply andb_true_iff in Hs as [Hc Hs]. apply IH; [|done].
  pose proof (digit_value c Hc). lia.
Qed.

(** What the pattern captures stands in the text, between [last ] and
    [ day], and is a non-empty run of digits. *)
Lemma match_last_days_sound (s : string) :
  forall d : string,
    match_last_days s = Some d ->
    d <> "" /\ all_digits d = true
    /\ includes ("last " +:+ d +:+ " day") s = true.
Proof.
  induction s as [|a s IH]; intros d; cbn [match_last_days].
  - destruct (match_last_days_here "") as [d0|] eqn:Hhere; [|done].
    intros [= <-]. apply match_last_days_here_spec in Hhere as (? & ? & Hp).
    split_and!; [done | done | by apply includes_of_prefix].
  - destruct (match_last_days_here (String a s)) as [d0|] eqn:Hhere.
    + intros [= <-]. apply match_last_days_here_spec in Hhere as (? & ? & Hp).
      split_and!; [done | done | by apply includes_of_prefix].
    + intros Htail. destruct (IH d Htail) as (? & ? & Hin).
      split_and!; [done | done | by apply includes_tail].
Qed.

Lemma match_last_days_nonneg (s d : string) :
  match_last_days s = Some d -> 0 <= parseInt d.
Proof.
  intros Hd. destruct (match_last_days_sound s d Hd) as (_ & Hdigits & _).
  by apply parseInt_acc_nonneg.
Qed.

(** A match at the start of [s], in terms of what [s] is. *)
Lemma match_last_days_here_text (s d : string) :
  match_last_days_here s = Some d <->
  d <> "" /\ all_digits d = true
  /\ exists post : string, s = "last " +:+ d +:+ " day" +:+ post.
Proof.
  rewrite match_last_days_here_spec. split.
  - intros (Hne & Hdigits & Hprefix). split_and!; [done|done|].
    apply prefix_spec in Hprefix as [post ->]. exists post. by rewrite !append_assoc.
  - intros (Hne & Hdigits & post & ->). split_and!; [done|done|].
    apply prefix_spec. exists post. by rewrite !append_assoc.
Qed.

(** The capture is taken at the leftmost place where the pattern
    matches. *)
Lemma match_last_days_leftmost (s : string) :
  forall d : string,
    match_last_days s = Some d ->
    exists pre post : string,
      s = pre +:+ "last " +:+ d +:+ " day" +:+ post
      /\ d <> "" /\ all_digits d = true
      /\ forall pre2 d2 post2 : string,
           s = pre2 +:+ "last " +:+ d2 +:+ " day" +:+ post2 ->
           d2 <> "" -> all_digits d2 = true ->
           (String.length pre <= String.length pre2)%nat.
Proof.
  induction s as [|a s IH]; intros d; cbn [match_last_days].
  - destruct (match_last_days_here "") as [d0|] eqn:Hhere; [|done].
    intros [= <-]. apply match_last_days_here_text in Hhere as (Hne & Hd & post & Hs).
    exists "", post. split_and!; try done; intros; simpl; lia.
  - destruct (match_last_days_here (String a s)) as [d0|] eqn:Hhere.
    + intros [= <-]. apply match_last_days_here_text in Hhere as (Hne & Hd & post & Hs).
      exists "", post. split_and!; try done; intros; simpl; lia.
    + intros Htail. destruct (IH d Htail) as (pre & post & -> & Hne & Hd & Hleft).
      exists (String a pre), post. split_and!; try done.
      intros pre2 d2 post2 Hs2 Hne2 Hd2.
      destruct pre2 as [|a2 pre2].
      * assert (Hmatch : match_last_days_here
                           (String a (pre +:+ "last " +:+ d +:+ " day" +:+ post))
                         = Some d2).
        { apply match_last_days_here_text. split_and!; [done|done|]. by exists post2. }
        congruence.
      * rewrite append_cons in Hs2. injection Hs2 as _ Hs2.
        specialize (Hleft pre2 d2 post2 Hs2 Hne2 Hd2). simpl. lia.
Qed.

Lemma match_last_days_found (pre : string) :
  forall s d post : string,
    s = pre +:+ "last " +:+ d +:+ " day" +:+ post ->
    d <> "" -> all_digits d = true ->
    (forall pre2 d2 post2 : string,
        s = pre2 +:+ "last " +:+ d2 +:+ " day" +:+ post2 ->
        d2 <> "" -> all_digits d2 = true ->
        (String.length pre <= String.length pre2)%nat) ->
    match_last_days s = Some d.
Proof.
  induction pre as [|a pre IH]; intros s d post Hs Hne Hd Hleft.
  - assert (Hhere : match_last_days_here s = Some d).
    { apply match_last_days_here_text. split_and!; [done|done|]. by exists post. }
    destruct s; cbn [match_last_days]; by rewrite Hhere.
  - rewrite append_cons in Hs. subst s. cbn [match_last_days].
    destruct (match_last_days_here (String a (pre +:+ "last " +:+ d +:+ " day" +:+ post)))
      as [d0|] eqn:Hhere.
    + apply match_last_days_here_text in Hhere as (Hne0 & Hd0 & post0 & Hs0).
      specialize (Hleft "" d0 post0 Hs0 Hne0 Hd0). simpl in Hleft. lia.
    + apply (IH _ d post eq_refl Hne Hd).
      intros pre2 d2 post2 Hs2 Hne2 Hd2.
      assert (Hs2' : String a (pre +:+ "last " +:+ d +:+ " day" +:+ post)
                     = String a pre2 +:+ "last " +:+ d2 +:+ " day" +:+ post2).
      { change (String a (pre +:+ "last " +:+ d +:+ " day" +:+ post)
                = String a (pre2 +:+ "last " +:+ d2 +:+ " day" +:+ post2)).
        by rewrite Hs2. }
      specialize (Hleft (String a pre2) d2 post2 Hs2' Hne2 Hd2). simpl in Hleft. lia.
Qed.

Lemma match_last_days_absent (pre : string) :
  forall s d post : string,
    match_last_days s = None ->
    d <> "" -> all_digits d = true ->
    s <> pre +:+ "last " +:+ d +:+ " day" +:+ post.
Proof.
  induction pre as [|a pre IH]; intros s d post Hnone Hne Hd Hs.
  - assert (Hhere : match_last_days_here s = Some d).
    { apply match_last_days_here_text. split_and!; [done|done|]. by exists post. }
    destruct s; cbn [match_last_days] in Hnone; by rewrite Hhere in Hnone.
  - rewrite append_cons in Hs. subst s. cbn [match_last_days] in Hnone.
    destruct (match_last_days_here _); [done|].
    by apply (IH _ d post Hnone Hne Hd).
Qed.

(** X1. The pattern [/last (\d+) days?/] of the date parser, as
    embedded.  It captures [d] exactly when [d] is a non-empty run of
    decimal digits that stands in the text between [last ] and [ day]
    at the leftmost place where the text has such a run between these
    two words (which fixes [d], since a run of digits followed by a
    space cannot be cut short); it finds no match exactly when the text
    has no such place; and the number of days parsed from a capture is
    never negative. *)
Theorem last_days_pattern (s : string) :
  (forall d : string,
      match_last_days s = Some d <->
      exists pre post : string,
        s = pre +:+ "last " +:+ d +:+ " day" +:+ post
        /\ d <> "" /\ all_digits d = true
        /\ forall pre2 d2 post2 : string,
             s = pre2 +:+ "last " +:+ d2 +:+ " day" +:+ post2 ->
             d2 <> "" -> all_digits d2 = true ->
             (String.length pre <= String.length pre2)%nat)
  /\ (match_last_days s = None <->
      forall pre d post : string,
        d <> "" -> all_digits d = true ->
        s <> pre +:+ "last " +:+ d +:+ " day" +:+ post)
  /\ (forall d : string, match_last_days s = Some d -> 0 <= parseInt d).
Proof.
  split_and!.
  - intros d. split.
    + apply match_last_days_leftmost.
    + intros (pre & post & Hs & Hne & Hd & Hleft).
      by apply (match_last_days_found pre s d post).
  - split.
    + intros Hnone pre d post. by apply match_last_days_absent.
    + intros Hno. destruct (match_last_days s) as [d|] eqn:Hd; [|done].
      destruct (match_last_days_leftmost s d Hd) as (pre & post & Hs & Hne & Hdigits & _).
      by destruct (Hno pre d post Hne Hdigits).
  - intros d. apply match_last_days_nonneg.
Qed.

Section DateWindow.
Context {B : Builtins}.

(** X2. The window [parseGlucoseDateQuery] returns for a query that
    names neither today nor yesterday ends at the time of the call and
    starts a whole, non-negative number of days before it: the number
    captured by the [last N days] pattern when there is one, and seven
    otherwise ([last week] and anything unrecognised alike); when that
    start lies outside the range of dates, the two ISO strings are not
    produced and the call throws. *)
Theorem query_window_days (query : string) :
  let lowerQuery := String_toLowerCase query in
  includes "today" lowerQuery = false ->
  includes "yesterday" lowerQuery = false ->
  exists days : Z,
    0 <= days
    /\ parseGlucoseDateQuery query
       = iso_range (TimeClip (Date_now - days * day_ms)) (Some Date_now)
    /\ (match_last_days lowerQuery = None -> days = 7)
    /\ (forall d : string, match_last_days lowerQuery = Some d -> days = parseInt d)
    /\ (TimeClip (Date_now - days * day_ms) = None ->
        parseGlucoseDateQuery query = Throw (Error "Invalid time value")).
Proof.
  intros lowerQuery Htoday Hyesterday.
  unfold parseGlucoseDateQuery. fold lowerQuery. rewrite Htoday, Hyesterday.
  destruct (match_last_days lowerQuery) as [d|] eqn:Hmatch.
  - exists (parseInt d). split_and!.
    + by apply (match_last_days_nonneg lowerQuery).
    + done.
    + done.
    + by intros d' [= <-].
    + intros Hclip. by rewrite Hclip.
  - exists 7. split_and!.
    + done.
    + by destruct (includes "last week" lowerQuery).
    + done.
    + done.
    + intros Hclip. destruct (includes "last week" lowerQuery); by rewrite Hclip.
Qed.

End DateWindow.

Lemma query_window_days_witness :
  exists days : Z,
    0 <= days
    /\ forall d : string, match_last_days "glucose for the last 30 days" = Some d ->
                          days = parseInt d.
Proof.
  destruct (@query_window_days Sample.builtins "glucose for the last 30 days"
              eq_refl eq_refl) as (days & Hdays & _ & _ & Hd & _).
  exists days. split; assumption.
Defined.

(* ===================================================================== *)
(** ** The tools/call handlers: what every call does *)
(* ===================================================================== *)

Section EveryCall.
Context {B : Builtins} {C : Collaborator} {E : Environment}.

Lemma well_shaped_throw (api : HealthDataAPI) (userId : Json) (e : JsError) :
  well_shaped api userId (throw e).
Proof. split_and!; simpl; [lia | constructor | done]. Qed.

Lemma tool_search_shape (api : HealthDataAPI) (userId : Json) (args : Args) :
  well_shaped api userId (tool_search api userId args).
Proof.
  unfold tool_search. destruct (negb _); [apply well_shaped_throw|].
  destruct (arg args "query"); try apply well_shaped_throw.
  unfold lift, bind, getGlucoseReadings.
  destruct (parseGlucoseDateQuery s); [|apply well_shaped_throw].
  destruct (remote_getGlucoseReadings _ _); unfold well_shaped; simpl;
    split_and!; try lia; try (by repeat constructor); eauto.
Qed.

Lemma tool_fetch_shape (api : HealthDataAPI) (userId : Json) (args : Args) :
  well_shaped api userId (tool_fetch api userId args).
Proof.
  unfold tool_fetch. destruct (negb _); [apply well_shaped_throw|].
  destruct (arg args "id"); try apply well_shaped_throw.
  destruct (negb _); [apply well_shaped_throw|].
  unfold lift, bind, getGlucoseReadings.
  destruct (iso_range _ _); [|apply well_shaped_throw].
  destruct (remote_getGlucoseReadings _ _) as [readings|];
    [destruct (find_reading _ readings)|]; unfold well_shaped; simpl;
    split_and!; try lia; try (by repeat constructor); eauto.
Qed.

Lemma tool_get_glucose_readings_shape (api : HealthDataAPI) (userId : Json) (args : Args) :
  well_shaped api userId (tool_get_glucose_readings api userId args).
Proof.
  unfold tool_get_glucose_readings, bind, getGlucoseReadings.
  destruct (remote_getGlucoseReadings _ _); unfold well_shaped; simpl;
    split_and!; try lia; try (by repeat constructor); eauto.
Qed.

Lemma tool_get_latest_glucose_shape (api : HealthDataAPI) (userId : Json) :
  well_shaped api userId (tool_get_latest_glucose api userId).
Proof.
  unfold tool_get_latest_glucose, bind, getLatestGlucose.
  destruct (remote_getLatestGlucose _ _) as [[r|]|]; unfold well_shaped; simpl;
    split_and!; try lia; try (by repeat constructor); eauto.
Qed.

Lemma tool_get_glucose_stats_shape (api : HealthDataAPI) (userId : Json) (args : Args) :
  well_shaped api userId (tool_get_glucose_stats api userId args).
Proof.
  unfold tool_get_glucose_stats, bind, getGlucoseStats.
  destruct (remote_getGlucoseStats _ _) as [[r|]|]; unfold well_shaped; simpl;
    split_and!; try lia; try (by repeat constructor); eauto.
Qed.

Lemma tool_switch_shape (api : HealthDataAPI) (userId : Json) (name : string) (args : Args) :
  well_shaped api userId (tool_switch api userId name args).
Proof.
  unfold tool_switch.
  repeat match goal with |- context [if ?b then _ else _] => destruct b end.
  - apply tool_search_shape.
  - apply tool_fetch_shape.
  - apply tool_get_glucose_readings_shape.
  - apply tool_get_latest_glucose_shape.
  - apply tool_get_glucose_stats_shape.
  - apply well_shaped_throw.
Qed.

(** A caught switch: it resolves, with one text block, after at most one
    request. *)
Lemma caught_shape (api : HealthDataAPI) (userId : Json) (e : Eff ToolResponse)
    (prefix : JsError -> string) :
  well_shaped api userId e ->
  exists (calls : list (HealthDataAPI * ApiCall)) (response : ToolResponse) (t : string),
    try_catch e (fun error => ret (error_text (prefix error))) = (calls, Ok response)
    /\ (length calls <= 1)%nat
    /\ Forall (fun request => request.1 = api /\ call_userId request.2 = userId) calls
    /\ content response = text_content t
    /\ (isError response = None \/ isError response = Some true)
    /\ (isError response = None -> length calls = 1%nat).
Proof.
  intros (Hlen & Hcalls & Hout). destruct e as [calls [response|error]]; simpl in *.
  - destruct Hout as [[t ->] Hone]. exists calls, (ok_text t), t.
    split_and!; auto.
  - exists (calls ++ []), (error_text (prefix error)), (prefix error).
    rewrite app_nil_r. split_and!; auto. done.
Qed.

Lemma http_call_shape (name : string) (args : Args) :
  exists (calls : list (HealthDataAPI * ApiCall)) (response : ToolResponse) (t : string),
    HttpServer.CallToolRequestHandler name args = (calls, Ok response)
    /\ (length calls <= 1)%nat
    /\ Forall (fun request =>
                 request.1 = HttpServer.api
                 /\ call_userId request.2
                    = js_or (arg args "userId") (JStr HttpServer.DEFAULT_USER_ID)) calls
    /\ content response = text_content t
    /\ (isError response = None \/ isError response = Some true)
    /\ (isError response = None -> length calls = 1%nat).
Proof.
  unfold HttpServer.CallToolRequestHandler. destruct (negb _).
  - eexists [], _, _. split_and!; try reflexivity; simpl; auto. done.
  - apply caught_shape, tool_switch_shape.
Qed.

Lemma stdio_call_shape (name : string) (args : Args) :
  exists (calls : list (HealthDataAPI * ApiCall)) (response : ToolResponse) (t : string),
    StdioServer.CallToolRequestHandler name args = (calls, Ok response)
    /\ (length calls <= 1)%nat
    /\ Forall (fun request =>
                 request.1 = StdioServer.api
                 /\ call_userId request.2
                    = js_or (arg args "userId") (JStr StdioServer.DEFAULT_USER_ID)) calls
    /\ content response = text_content t
    /\ (isError response = None \/ isError response = Some true)
    /\ (isError response = None -> length calls = 1%nat).
Proof.
  unfold StdioServer.CallToolRequestHandler. destruct (negb _).
  - eexists [], _, _. split_and!; try reflexivity; simpl; auto. done.
  - apply caught_shape.
    repeat match goal with |- context [if ?b then _ else _] => destruct b end.
    + apply tool_get_glucose_readings_shape.
    + apply tool_get_latest_glucose_shape.
    + apply tool_get_glucose_stats_shape.
    + apply well_shaped_throw.
Qed.

Lemma oauth_call_shape (accessToken name : string) (args : Args) :
  exists (calls : list (HealthDataAPI * ApiCall)) (response : ToolResponse) (t : string),
    OAuthServer.call_tool accessToken name args = (calls, Ok response)
    /\ (length calls <= 1)%nat
    /\ Forall (fun request =>
                 request.1
                 = {| baseURL := BACKEND_URL; authToken := accessToken; isBearer := true |}
                 /\ call_userId request.2 = JStr "oauth-user") calls
    /\ content response = text_content t
    /\ (isError response = None \/ isError response = Some true)
    /\ (isError response = None -> length calls = 1%nat).
Proof. unfold OAuthServer.call_tool. apply caught_shape, tool_switch_shape. Qed.

(** X3. Every tools/call resolves.  Whatever the tool name, the
    arguments and the answers of the collaborator, the handler of each of
    the three servers returns a response and does not throw; the response
    holds exactly one text block; the handler has sent at most one
    request to the collaborator (it never retries), and a response that
    is not flagged as an error always follows exactly one request. *)
Theorem every_call_resolves (name : string) (args : Args) :
  (exists (calls : list (HealthDataAPI * ApiCall)) (response : ToolResponse) (t : string),
      StdioServer.CallToolRequestHandler name args = (calls, Ok response)
      /\ (length calls <= 1)%nat
      /\ content response = text_content t
      /\ (isError response = None \/ isError response = Some true)
      /\ (isError response = None -> length calls = 1%nat))
  /\ (exists (calls : list (HealthDataAPI * ApiCall)) (response : ToolResponse) (t : string),
        HttpServer.CallToolRequestHandler name args = (calls, Ok response)
        /\ (length calls <= 1)%nat
        /\ content response = text_content t
        /\ (isError response = None \/ isError response = Some true)
        /\ (isError response = None -> length calls = 1%nat))
  /\ (forall accessToken : string,
        exists (calls : list (HealthDataAPI * ApiCall)) (response : ToolResponse) (t : string),
          OAuthServer.call_tool accessToken name args = (calls, Ok response)
          /\ (length calls <= 1)%nat
          /\ content response = text_content t
          /\ (isError response = None \/ isError response = Some true)
          /\ (isError response = None -> length calls = 1%nat)).
Proof.
  split_and!.
  - destruct (stdio_call_shape name args) as (calls & response & t & ? & ? & ? & ? & ? & ?).
    by exists calls, response, t.
  - destruct (http_call_shape name args) as (calls & response & t & ? & ? & ? & ? & ? & ?).
    by exists calls, response, t.
  - intros accessToken.
    destruct (oauth_call_shape accessToken name args)
      as (calls & response & t & ? & ? & ? & ? & ? & ?).
    by exists calls, response, t.
Qed.

(** X4. Whose data a call asks for, and with which credential.  The
    single-tenant servers send every request through the one client
    built from [STORAGE_API_URL] and [API_SECRET], and ask about the
    user the caller names in [userId], the configured default only when
    the caller names none.  The OAuth server sends every request through
    a bearer client holding the access token it was given, and always
    asks about the fixed user [oauth-user], whatever the arguments
    say. *)
Theorem who_is_queried (name : string) (args : Args) :
  Forall (fun request =>
            request.1 = {| baseURL := STORAGE_API_URL; authToken := API_SECRET;
                           isBearer := false |}
            /\ call_userId request.2
               = js_or (arg args "userId") (JStr (env_or_empty env_USER_ID)))
         (StdioServer.CallToolRequestHandler name args).1
  /\ Forall (fun request =>
               request.1 = {| baseURL := STORAGE_API_URL; authToken := API_SECRET;
                              isBearer := false |}
               /\ call_userId request.2
                  = js_or (arg args "userId") (JStr (env_or_empty env_USER_ID)))
            (HttpServer.CallToolRequestHandler name args).1
  /\ (forall accessToken : string,
        Forall (fun request =>
                  request.1 = {| baseURL := BACKEND_URL; authToken := accessToken;
                                 isBearer := true |}
                  /\ call_userId request.2 = JStr "oauth-user")
               (OAuthServer.call_tool accessToken name args).1).
Proof.
  split_and!.
  - destruct (stdio_call_shape name args) as (calls & response & t & -> & _ & Hcalls & _).
    exact Hcalls.
  - destruct (http_call_shape name args) as (calls & response & t & -> & _ & Hcalls & _).
    exact Hcalls.
  - intros accessToken.
    destruct (oauth_call_shape accessToken name args)
      as (calls & response & t & -> & _ & Hcalls & _).
    exact Hcalls.
Qed.

End EveryCall.

(* ===================================================================== *)
(** ** The tools a server lists and the names it dispatches on *)
(* ===================================================================== *)

Section Advertised.
Context {B : Builtins} {C : Collaborator} {E : Environment}.

Ltac differ H := repeat rewrite append_cons in H; congruence.

Lemma iso_range_throws (a b : option Z) (e : JsError) :
  iso_range a b = Throw e -> e = Error "Invalid time value".
Proof.
  unfold iso_range, toISOString. destruct a, b; intros [=]; done.
Qed.

Lemma parseGlucoseDateQuery_throws (query : string) (e : JsError) :
  parseGlucoseDateQuery query = Throw e -> e = Error "Invalid time value".
Proof.
  unfold parseGlucoseDateQuery.
  repeat match goal with
         | |- context [if ?b then _ else _] => destruct b
         | |- context [match match_last_days ?s with _ => _ end] =>
             destruct (match_last_days s)
         end; apply iso_range_throws.
Qed.

(** A known tool that sends nothing to the collaborator has thrown one of
    its validation errors, none of which reads [Unknown tool: ...]. *)
Lemma known_tool_without_call (api : HealthDataAPI) (userId : Json)
    (name : string) (args : Args) :
  name ∈ five_tools ->
  (tool_switch api userId name args).1 = [] ->
  exists msg : string,
    (tool_switch api userId name args).2 = Throw (Error msg)
    /\ msg <> ""
    /\ forall n : string, msg <> "Unknown tool: " +:+ n.
Proof.
  unfold five_tools. rewrite !elem_of_cons, elem_of_nil.
  intros [-> | [-> | [-> | [-> | [-> | []]]]]]; unfold tool_switch; cbn [String.eqb Ascii.eqb Bool.eqb].
  - unfold tool_search. destruct (negb _).
    + intros _. eexists. split_and!; [reflexivity | done | intros ? Hdiff; differ Hdiff].
    + destruct (arg args "query");
        try (intros _; eexists; split_and!; [reflexivity | done | intros ? Hdiff; differ Hdiff]).
      unfold lift, bind, getGlucoseReadings.
      destruct (parseGlucoseDateQuery _) as [range|e] eqn:Hparse.
      * destruct (remote_getGlucoseReadings _ _); discriminate.
      * apply parseGlucoseDateQuery_throws in Hparse as ->. intros _.
        eexists. split_and!; [reflexivity | done | intros ? Hdiff; differ Hdiff].
  - unfold tool_fetch. destruct (negb _).
    + intros _. eexists. split_and!; [reflexivity | done | intros ? Hdiff; differ Hdiff].
    + destruct (arg args "id");
        try (intros _; eexists; split_and!; [reflexivity | done | intros ? Hdiff; differ Hdiff]).
      destruct (negb _).
      * intros _. eexists. split_and!; [reflexivity | | intros ? Hdiff; differ Hdiff].
        intros Hn. differ Hn.
      * unfold lift, bind, getGlucoseReadings.
        destruct (iso_range _ _) as [range|e] eqn:Hrange.
        -- destruct (remote_getGlucoseReadings _ _) as [readings|];
             [destruct (find_reading _ readings)|]; discriminate.
        -- apply iso_range_throws in Hrange as ->. intros _.
           eexists. split_and!; [reflexivity | done | intros ? Hdiff; differ Hdiff].
  - unfold tool_get_glucose_readings, bind, getGlucoseReadings.
    destruct (remote_getGlucoseReadings _ _); discriminate.
  - unfold tool_get_latest_glucose, bind, getLatestGlucose.
    destruct (remote_getLatestGlucose _ _) as [[r|]|]; discriminate.
  - unfold tool_get_glucose_stats, bind, getGlucoseStats.
    destruct (remote_getGlucoseStats _ _) as [[r|]|]; discriminate.
Qed.

Lemma append_inj_l (p a b : string) : p +:+ a = p +:+ b -> a = b.
Proof.
  induction p as [|c p IH]; [done|]. rewrite !append_cons. intros [= Heq]. by apply IH.
Qed.

(** The answer [Unknown tool] of a caught five-tool switch is given to
    the unlisted names and to no other. *)
Lemma caught_unknown_iff (api : HealthDataAPI) (userId : Json) (name : string)
    (args : Args) (prefix : string) (text : JsError -> string) :
  (forall msg : string, msg <> "" -> text (Error msg) = msg) ->
  try_catch (tool_switch api userId name args)
    (fun error => ret (error_text (prefix +:+ text error)))
  = ([], Ok (error_text (prefix +:+ "Unknown tool: " +:+ name)))
  <-> name ∉ five_tools.
Proof.
  intros Htext. split.
  - intros Heq Hin.
    pose proof (tool_switch_shape api userId name args) as (_ & _ & Hout).
    pose proof (known_tool_without_call api userId name args Hin) as Hknown.
    destruct (tool_switch api userId name args) as [calls [response|error]]; simpl in *.
    + destruct Hout as [_ Hone]. injection Heq as -> _. discriminate.
    + injection Heq as Hcalls Hresp. apply app_eq_nil in Hcalls as [-> _].
      destruct (Hknown eq_refl) as (msg & [= ->] & Hne & Hnot).
      apply append_inj_l in Hresp. rewrite (Htext msg Hne) in Hresp.
      by apply (Hnot name).
  - intros Hname. rewrite tool_switch_unknown by done.
    unfold unknown_tool, throw, try_catch, ret. cbn [app].
    rewrite Htext; [done|]. intros Hn. differ Hn.
Qed.

(** X5. The tools a server lists are the names it dispatches on.  For
    each of the three servers (past the userId guard in the single-tenant
    ones), the names of the descriptors that tools/list returns are
    exactly the names that tools/call does not answer with
    [Unknown tool: <name>]: five in the SSE servers, three in the stdio
    server, where [search] and [fetch] are unknown. *)
Theorem listed_iff_dispatched (called : string) (args : Args) :
  truthy (js_or (arg args "userId") (JStr (env_or_empty env_USER_ID))) = true ->
  (called ∈ map name HttpServer.TOOLS <->
   HttpServer.CallToolRequestHandler called args
   <> ([], Ok (error_text ("Error: Unknown tool: " +:+ called))))
  /\ (called ∈ map name StdioServer.tools <->
      StdioServer.CallToolRequestHandler called args
      <> ([], Ok (error_text ("Error: Unknown tool: " +:+ called))))
  /\ (forall accessToken : string,
        called ∈ map name OAuthServer.tools <->
        OAuthServer.call_tool accessToken called args
        <> ([], Ok (error_text ("❌ Error: Unknown tool: " +:+ called)))).
Proof.
  intros Huser.
  assert (Hdec : forall l : list string, Decision (called ∈ l)) by (intros l; apply _).
  split_and!.
  - change (map name HttpServer.TOOLS) with five_tools.
    unfold HttpServer.CallToolRequestHandler, HttpServer.DEFAULT_USER_ID.
    rewrite Huser. cbn [negb].
    pose proof (caught_unknown_iff HttpServer.api
                  (js_or (arg args "userId") (JStr (env_or_empty env_USER_ID)))
                  called args "Error: " message (fun msg _ => eq_refl)) as Hiff.
    destruct (Hdec five_tools) as [Hin | Hout]; split; try done.
    + intros _ Heq. by apply Hiff in Heq.
    + intros Hne. exfalso. apply Hne. by apply Hiff.
  - change (map name StdioServer.tools) with three_tools.
    unfold StdioServer.CallToolRequestHandler, StdioServer.DEFAULT_USER_ID.
    rewrite Huser. cbn [negb]. unfold three_tools.
    destruct (Hdec three_tools) as [Hin | Hout]; unfold three_tools in *; split; try done.
    + intros _. revert Hin. rewrite !elem_of_cons, elem_of_nil.
      intros [-> | [-> | [-> | []]]]; cbn [String.eqb Ascii.eqb Bool.eqb].
      * unfold tool_get_glucose_readings, bind, getGlucoseReadings.
        destruct (remote_getGlucoseReadings _ _); discriminate.
      * unfold tool_get_latest_glucose, bind, getLatestGlucose.
        destruct (remote_getLatestGlucose _ _) as [[r|]|]; discriminate.
      * unfold tool_get_glucose_stats, bind, getGlucoseStats.
        destruct (remote_getGlucoseStats _ _) as [[r|]|]; discriminate.
    + intros Hne. exfalso. apply Hne.
      repeat (apply not_elem_of_cons in Hout as [Hn Hout];
              rewrite (eqb_false_of_ne _ _ Hn); clear Hn).
      done.
  - intros accessToken. change (map name OAuthServer.tools) with five_tools.
    unfold OAuthServer.call_tool.
    assert (Htext : forall msg : string, msg <> "" -> OAuthServer.errorMessage (Error msg) = msg).
    { intros msg Hmsg. unfold OAuthServer.errorMessage. simpl.
      by destruct (String.eqb_spec msg ""). }
    pose proof (caught_unknown_iff
                  {| baseURL := BACKEND_URL; authToken := accessToken; isBearer := true |}
                  (JStr "oauth-user") called args "❌ Error: " OAuthServer.errorMessage Htext)
      as Hiff.
    destruct (Hdec five_tools) as [Hin | Hout]; split; try done.
    + intros _ Heq. by apply Hiff in Heq.
    + intros Hne. exfalso. apply Hne. by apply Hiff.
Qed.

End Advertised.

Lemma listed_iff_dispatched_witness :
  truthy (js_or (arg None "userId")
                (JStr (env_or_empty (@env_USER_ID SampleHttp.environment_user)))) = true
  /\ @HttpServer.CallToolRequestHandler Sample.builtins Sample.collaborator
       SampleHttp.environment_user "fetch" None
     <> ([], Ok (error_text "Error: Unknown tool: fetch"))
  /\ ~ (@StdioServer.CallToolRequestHandler Sample.builtins Sample.collaborator
          SampleHttp.environment_user "fetch" None
        <> ([], Ok (error_text "Error: Unknown tool: fetch"))).
Proof.
  destruct (@listed_iff_dispatched Sample.builtins Sample.collaborator
              SampleHttp.environment_user "fetch" None eq_refl)
    as (Hhttp & Hstdio & _).
  split_and!.
  - reflexivity.
  - apply Hhttp. change (map name HttpServer.TOOLS) with five_tools.
    unfold five_tools. rewrite !elem_of_cons. by right; left.
  - intros Hne. apply Hstdio in Hne. revert Hne.
    change (map name StdioServer.tools) with three_tools.
    unfold three_tools. rewrite !elem_of_cons, elem_of_nil.
    intros [Heq | [Heq | [Heq | []]]]; discriminate Heq.
Defined.

(* ===================================================================== *)
(** ** src/api-client.ts behind the tools *)
(* ===================================================================== *)

Section Upstream.
Context {B : Builtins} {A : Axios} {E : Environment}.



End Upstream.


(* ===================================================================== *)
(** ** From samples to readings *)
(* ===================================================================== *)

Section Samples.
Context {B : Builtins} {A : Axios} {E : Environment}.








End Samples.


(* ===================================================================== *)
(** ** The limit of a range query *)
(* ===================================================================== *)

Section Limit.
Context {B : Builtins} {C : Collaborator} {E : Environment}.

Lemma caught_calls {T} (e : Eff T) (recover : JsError -> T) :
  (try_catch e (fun error => ret (recover error))).1 = e.1.
Proof. destruct e as [calls [a|error]]; simpl; [done|]. by rewrite app_nil_r. Qed.

Lemma truthy_js_or (a b : Json) : truthy b = true -> truthy (js_or a b) = true.
Proof. intros Hb. unfold js_or. by destruct (truthy a) eqn:Ha. Qed.

Lemma readings_request_limit (p : ReadingsParams) :
  truthy (rp_limit p) = true ->
  exists middle : list (string * string),
    query (readings_request p)
    = [("userId", ToString (rp_userId p)); ("type", "BloodGlucose")]
      ++ middle ++ [("limit", ToString (rp_limit p))].
Proof.
  intros Hlimit. unfold readings_request. cbn [query].
  exists (append_if_truthy "startDate" (rp_startDate p)
          ++ append_if_truthy "endDate" (rp_endDate p)).
  unfold append_if_truthy at 3. rewrite Hlimit. by rewrite <- !app_assoc.
Qed.

Lemma tool_get_glucose_readings_limit (api : HealthDataAPI) (userId : Json) (args : Args) :
  Forall (fun request =>
            forall p : ReadingsParams, request.2 = GetGlucoseReadings p ->
              rp_limit p = js_or (arg args "limit") (JNum 1000))
         (tool_get_glucose_readings api userId args).1.
Proof.
  unfold tool_get_glucose_readings, bind, getGlucoseReadings.
  destruct (remote_getGlucoseReadings _ _); simpl;
    repeat constructor; by intros p [= <-].
Qed.

Lemma tool_switch_limit (api : HealthDataAPI) (userId : Json) (name : string) (args : Args) :
  Forall (fun request =>
            forall p : ReadingsParams, request.2 = GetGlucoseReadings p ->
              rp_limit p = if String.eqb name "get_glucose_readings"
                           then js_or (arg args "limit") (JNum 1000) else JNum 100)
         (tool_switch api userId name args).1.
Proof.
  unfold tool_switch.
  destruct (String.eqb_spec name "search") as [->|_].
  { unfold tool_search. destruct (negb _); [by constructor|].
    destruct (arg args "query"); try by constructor.
    unfold lift, bind, getGlucoseReadings.
    destruct (parseGlucoseDateQuery _); [|by constructor].
    destruct (remote_getGlucoseReadings _ _); simpl;
      repeat constructor; by intros p [= <-]. }
  destruct (String.eqb_spec name "fetch") as [->|_].
  { unfold tool_fetch. destruct (negb _); [by constructor|].
    destruct (arg args "id"); try by constructor.
    destruct (negb _); [by constructor|].
    unfold lift, bind, getGlucoseReadings.
    destruct (iso_range _ _); [|by constructor].
    destruct (remote_getGlucoseReadings _ _) as [readings|];
      [destruct (find_reading _ readings)|]; simpl;
      repeat constructor; by intros p [= <-]. }
  destruct (String.eqb name "get_glucose_readings").
  { apply tool_get_glucose_readings_limit. }
  destruct (String.eqb name "get_latest_glucose").
  { unfold tool_get_latest_glucose, bind, getLatestGlucose.
    destruct (remote_getLatestGlucose _ _) as [[r|]|]; simpl;
      repeat constructor; by intros p [=]. }
  destruct (String.eqb name "get_glucose_stats").
  { unfold tool_get_glucose_stats, bind, getGlucoseStats.
    destruct (remote_getGlucoseStats _ _) as [[r|]|]; simpl;
      repeat constructor; by intros p [=]. }
  by constructor.
Qed.

Lemma limit_on_the_wire (limit : Json) (calls : list (HealthDataAPI * ApiCall)) :
  truthy limit = true ->
  Forall (fun request =>
            forall p : ReadingsParams, request.2 = GetGlucoseReadings p ->
              rp_limit p = limit) calls ->
  Forall (fun request =>
            forall p : ReadingsParams, request.2 = GetGlucoseReadings p ->
              rp_limit p = limit
              /\ exists middle : list (string * string),
                   query (readings_request p)
                   = [("userId", ToString (rp_userId p)); ("type", "BloodGlucose")]
                     ++ middle ++ [("limit", ToString limit)]) calls.
Proof.
  intros Hlimit Hcalls. eapply Forall_impl; [exact Hcalls|].
  intros request Hp p Hcall. specialize (Hp p Hcall). split; [done|].
  rewrite <- Hp. apply readings_request_limit. by rewrite Hp.
Qed.

(** X8. Every range query is bounded.  Each request for readings that
    a tools/call sends, in any of the three servers, carries a [limit]
    in its query string, as the last parameter after [userId], [type]
    and the dates: 100 from search and fetch; from get_glucose_readings
    the caller's [limit], and 1000 when the caller gives none or gives
    0, so that a limit of zero asks for a thousand readings. *)
Theorem range_query_bounded (name : string) (args : Args) :
  let limit := if String.eqb name "get_glucose_readings"
               then (if truthy (arg args "limit") then arg args "limit" else JNum 1000)
               else JNum 100 in
  let bounded := fun request : HealthDataAPI * ApiCall =>
    forall p : ReadingsParams, request.2 = GetGlucoseReadings p ->
      rp_limit p = limit
      /\ exists middle : list (string * string),
           query (readings_request p)
           = [("userId", ToString (rp_userId p)); ("type", "BloodGlucose")]
             ++ middle ++ [("limit", ToString limit)] in
  truthy limit = true
  /\ Forall bounded (StdioServer.CallToolRequestHandler name args).1
  /\ Forall bounded (HttpServer.CallToolRequestHandler name args).1
  /\ forall accessToken : string,
       Forall bounded (OAuthServer.call_tool accessToken name args).1.
Proof.
  intros limit bounded.
  assert (Hlimit : truthy limit = true).
  { subst limit. destruct (String.eqb _ _); [|done].
    by destruct (truthy (arg args "limit")) eqn:Hl. }
  split; [done|]. subst bounded. split_and!.
  - apply limit_on_the_wire; [done|].
    unfold StdioServer.CallToolRequestHandler. destruct (negb _); [by constructor|].
    rewrite caught_calls. subst limit.
    destruct (String.eqb name "get_glucose_readings") eqn:Hname.
    + apply tool_get_glucose_readings_limit.
    + destruct (String.eqb name "get_latest_glucose").
      { unfold tool_get_latest_glucose, bind, getLatestGlucose.
        destruct (remote_getLatestGlucose _ _) as [[r|]|]; simpl;
          repeat constructor; by intros p [=]. }
      destruct (String.eqb name "get_glucose_stats").
      { unfold tool_get_glucose_stats, bind, getGlucoseStats.
        destruct (remote_getGlucoseStats _ _) as [[r|]|]; simpl;
          repeat constructor; by intros p [=]. }
      by constructor.
  - apply limit_on_the_wire; [done|].
    unfold HttpServer.CallToolRequestHandler. destruct (negb _); [by constructor|].
    rewrite caught_calls. apply tool_switch_limit.
  - intros accessToken. apply limit_on_the_wire; [done|].
    unfold OAuthServer.call_tool. rewrite caught_calls. apply tool_switch_limit.
Qed.

End Limit.

(* ===================================================================== *)
(** ** What fetch can find *)
(* ===================================================================== *)

Section FetchFinds.
Context {B : Builtins} {C : Collaborator} {E : Environment}.

Lemma split_colon_pieces (s : string) :
  Forall (fun piece => has_colon piece = false) (split_colon s).
Proof.
  induction s as [|c s IH]; simpl; [by repeat constructor|].
  destruct (Ascii.eqb c ":") eqn:Hc; [by constructor|].
  destruct (split_colon s) as [|piece pieces]; [by repeat constructor; simpl; rewrite Hc|].
  apply Forall_cons in IH as [Hpiece Hpieces].
  constructor; [|done]. simpl. by rewrite Hc.
Qed.

(** A fetch that succeeds has found a reading dated exactly by the text
    between the first and the second colon of the id. *)
Lemma tool_fetch_success (api : HealthDataAPI) (userId : Json) (args : Args)
    (calls : list (HealthDataAPI * ApiCall)) (response : ToolResponse) :
  tool_fetch api userId args = (calls, Ok response) ->
  exists (id ts : string) (reading : GlucoseReading) (summary : Json),
    arg args "id" = JStr id
    /\ split_colon id !! 1%nat = Some ts
    /\ has_colon ts = false
    /\ date reading = JStr ts
    /\ response = ok_text (JSON_stringify (JObj [
         ("id", JStr id);
         ("title", summary);
         ("text", JStr (JSON_stringify (reading_json reading)));
         ("url", JStr "https://healthmate.app");
         ("metadata", JObj [
            ("type", JStr "glucose_reading");
            ("retrieved_at", JStr (Date_toISOString Date_now))])])).
Proof.
  unfold tool_fetch. destruct (negb _); [done|].
  destruct (arg args "id") as [| | | |id| |]; try done.
  destruct (negb _); [done|].
  destruct (split_colon id !! 1%nat) as [ts|] eqn:Hts; [|done].
  cbn [from_option].
  unfold lift, bind, getGlucoseReadings.
  destruct (iso_range _ _) as [range|]; [|done].
  destruct (remote_getGlucoseReadings _ _) as [readings|]; [|done].
  destruct (find_reading (Some ts) readings) as [reading|] eqn:Hfind; [|done].
  intros [= <- <-].
  apply find_reading_Some in Hfind as [_ Hdate].
  eexists id, ts, reading, _. split_and!; try done.
  pose proof (split_colon_pieces id) as Hpieces.
  by apply (proj1 (Forall_lookup _ _) Hpieces 1%nat ts).
Qed.

Lemma caught_success (e : Eff ToolResponse) (recover : JsError -> string)
    (calls : list (HealthDataAPI * ApiCall)) (response : ToolResponse) :
  try_catch e (fun error => ret (error_text (recover error))) = (calls, Ok response) ->
  isError response = None ->
  e = (calls, Ok response).
Proof.
  destruct e as [calls' [response'|error]]; simpl; [done|].
  intros [= _ <-]. done.
Qed.

(** X9. What fetch can find.  In both SSE servers a fetch that returns
    a document (a result without [isError]) returns a reading whose date
    is, character for character, the text between the first and the
    second colon of the id, which therefore has no colon in it; the
    document repeats the id and holds that reading.  A reading whose
    date is a timestamp with a time of day ([hh:mm]) is thus returned by
    no fetch, whatever the id. *)
Theorem fetch_finds_colon_free (args : Args) (calls : list (HealthDataAPI * ApiCall))
    (response : ToolResponse) :
  isError response = None ->
  HttpServer.CallToolRequestHandler "fetch" args = (calls, Ok response)
  \/ (exists accessToken : string,
        OAuthServer.call_tool accessToken "fetch" args = (calls, Ok response)) ->
  exists (id ts : string) (reading : GlucoseReading) (summary : Json),
    arg args "id" = JStr id
    /\ split_colon id !! 1%nat = Some ts
    /\ has_colon ts = false
    /\ date reading = JStr ts
    /\ response = ok_text (JSON_stringify (JObj [
         ("id", JStr id);
         ("title", summary);
         ("text", JStr (JSON_stringify (reading_json reading)));
         ("url", JStr "https://healthmate.app");
         ("metadata", JObj [
            ("type", JStr "glucose_reading");
            ("retrieved_at", JStr (Date_toISOString Date_now))])])).
Proof.
  intros Hok [Hhttp | [accessToken Hoauth]].
  - unfold HttpServer.CallToolRequestHandler in Hhttp.
    destruct (negb _).
    + injection Hhttp as _ <-. done.
    + apply caught_success in Hhttp; [|done].
      by apply tool_fetch_success in Hhttp.
  - unfold OAuthServer.call_tool in Hoauth.
    apply caught_success in Hoauth; [|done].
    by apply tool_fetch_success in Hoauth.
Qed.

End FetchFinds.

Lemma fetch_finds_colon_free_witness :
  exists (ts : string) (reading : GlucoseReading),
    split_colon "reading:2024-01-15" !! 1%nat = Some ts
    /\ has_colon ts = false
    /\ date reading = JStr ts.
Proof.
  pose (args := Some [("id", JStr "reading:2024-01-15")]).
  pose (out := @HttpServer.CallToolRequestHandler SampleHttp.builtins_day
                 SampleHttp.collaborator_day SampleHttp.environment_user "fetch" args).
  destruct (@fetch_finds_colon_free SampleHttp.builtins_day SampleHttp.collaborator_day
              SampleHttp.environment_user args out.1 (ok_text "{}") eq_refl
              (or_introl eq_refl))
    as (id & ts & reading & summary & Hid & Hts & Hcolon & Hdate & _).
  injection Hid as <-. by exists ts, reading.
Defined.

(* ===================================================================== *)
(** ** When a tool sends its request *)
(* ===================================================================== *)

Section RequestSent.
Context {B : Builtins} {C : Collaborator}.






End RequestSent.

(* ===================================================================== *)
(** ** What the handlers write *)
(* ===================================================================== *)

(** An invariant of the state that the writes a policy allows preserve
    is preserved by every program that obeys the policy, however it is
    scheduled. *)
Section Policy.
Variable policy : WritePolicy.
Variable Inv : Shared -> Prop.
Hypothesis Inv_emit : forall o s, Inv s -> Inv (emit o s).
Hypothesis Inv_register : forall sid t s,
  may_register policy sid -> Inv s -> Inv (set_transports (jsmap_set sid t) s).
Hypothesis Inv_deregister : forall sid s,
  may_deregister policy sid -> Inv s -> Inv (set_transports (jsmap_delete sid) s).
Hypothesis Inv_store : forall sid tok s,
  may_store policy sid tok -> Inv s -> Inv (set_sessionTokens (jsmap_set sid tok) s).
Hypothesis Inv_forget : forall sid s,
  may_forget policy sid -> Inv s -> Inv (set_sessionTokens (jsmap_delete sid) s).

Lemma exec_obeys (p : Prog) :
  forall (c : option string) (s : Shared),
    obeys policy p -> Inv s ->
    Inv (exec c p s).1.1
    /\ task_obeys policy (exec c p s).1.2
    /\ Forall (task_obeys policy) (exec c p s).2.
Proof.
  unfold task_obeys.
  induction p as [ | k IH | o k IH | k IH | id fn IHfn k IHk | child IHc k IHk
                 | sid' k IH | sid' t k IH | sid' k IH | k IH
                 | sid' k IH | sid' tok k IH | sid' k IH ];
    intros c s Hp Hs; simpl in *.
  - done.
  - split_and!; [done| |done]. by constructor.
  - apply IH; [done|]. by apply Inv_emit.
  - by apply IH.
  - destruct Hp as [Hfn Hk].
    specialize (IHfn (Some id) s Hfn Hs).
    destruct (exec (Some id) fn s) as [[s1 fs] sp]. simpl in IHfn.
    destruct IHfn as (Hs1 & Hfs & Hsp).
    destruct fs as [|f fs].
    + specialize (IHk c s1 Hk Hs1).
      destruct (exec c k s1) as [[s2 fs2] sp2]. simpl in *.
      destruct IHk as (? & ? & ?). split_and!; [done|done|]. by apply Forall_app.
    + simpl. split_and!; [done| |done].
      rewrite app_comm_cons. apply Forall_app. split; [done|]. by constructor.
  - destruct Hp as [Hc Hk].
    specialize (IHc c s Hc Hs).
    destruct (exec c child s) as [[s1 fs] sp]. simpl in IHc.
    destruct IHc as (Hs1 & Hfs & Hsp).
    specialize (IHk c s1 Hk Hs1).
    destruct (exec c k s1) as [[s2 fs2] sp2]. simpl in *.
    destruct IHk as (? & ? & ?). split_and!; [done|done|].
    apply Forall_app. split; [done|]. by constructor.
  - by apply IH.
  - destruct Hp as [Hmay Hk]. apply IH; [done|]. by apply Inv_register.
  - destruct Hp as [Hmay Hk]. apply IH; [done|]. by apply Inv_deregister.
  - by apply IH.
  - by apply IH.
  - destruct Hp as [Hmay Hk]. apply IH; [done|]. by apply Inv_store.
  - destruct Hp as [Hmay Hk]. apply IH; [done|]. by apply Inv_forget.
Qed.

Lemma resume_obeys (t : Task) :
  forall s : Shared,
    task_obeys policy t -> Inv s ->
    Inv (resume t s).1.1
    /\ task_obeys policy (resume t s).1.2
    /\ Forall (task_obeys policy) (resume t s).2.
Proof.
  unfold task_obeys.
  induction t as [|f callers IH]; intros s Ht Hs; simpl.
  - done.
  - apply Forall_cons in Ht as [Hf Hcallers].
    pose proof (exec_obeys (code f) (store f) s Hf Hs) as Hexec.
    destruct (exec (store f) (code f) s) as [[s1 fs] sp]. simpl in Hexec.
    destruct Hexec as (Hs1 & Hfs & Hsp).
    destruct fs as [|f' fs].
    + specialize (IH s1 Hcallers Hs1).
      destruct (resume callers s1) as [[s2 fs2] sp2]. simpl in *.
      destruct IH as (? & ? & ?). split_and!; [done|done|]. by apply Forall_app.
    + simpl. split_and!; [done| |done].
      rewrite app_comm_cons. by apply Forall_app.
Qed.

Lemma step_obeys (w : World) (a : Action) :
  Inv (shared w) -> Forall (task_obeys policy) (tasks w) ->
  match a with Start handler => obeys policy handler | Resume _ => True end ->
  Inv (shared (step w a)) /\ Forall (task_obeys policy) (tasks (step w a)).
Proof.
  intros Hs Hts Ha. destruct a as [handler | i]; simpl.
  - pose proof (exec_obeys handler None (shared w) Ha Hs) as Hexec.
    destruct (exec None handler (shared w)) as [[s fs] sp]. simpl in Hexec.
    destruct Hexec as (? & ? & ?). split; simpl; [done|].
    apply Forall_app. split; [done|]. by constructor.
  - destruct (tasks w !! i) as [t|] eqn:Hi; [|done].
    pose proof (resume_obeys t (shared w)
                  (proj1 (Forall_lookup _ _) Hts i t Hi) Hs) as Hres.
    destruct (resume t (shared w)) as [[s fs] sp]. simpl in Hres.
    destruct Hres as (? & ? & ?). split; simpl; [done|].
    apply Forall_app. split; [|done]. by apply Forall_insert.
Qed.

Lemma run_obeys (acts : list Action) :
  forall w : World,
    Inv (shared w) -> Forall (task_obeys policy) (tasks w) ->
    Forall (fun a => match a with
                     | Start handler => obeys policy handler
                     | Resume _ => True
                     end) acts ->
    Inv (shared (run acts w)) /\ Forall (task_obeys policy) (tasks (run acts w)).
Proof.
  unfold run. induction acts as [|a acts IH]; intros w Hs Hts Hacts; simpl; [done|].
  apply Forall_cons in Hacts as [Ha Hacts].
  destruct (step_obeys w a Hs Hts Ha) as [Hs' Hts']. by apply IH.
Qed.

(** The same with some tasks set apart: the tasks at the indices
    [frozen] may be anything, as long as the schedule never resumes
    them; they are then still there at the end. *)
Variable frozen : nat -> Prop.

Lemma step_obeys_except (w : World) (a : Action) :
  Inv (shared w) ->
  (forall (i : nat) (t : Task),
      tasks w !! i = Some t -> ~ frozen i -> task_obeys policy t) ->
  match a with Start handler => obeys policy handler | Resume i => ~ frozen i end ->
  Inv (shared (step w a))
  /\ (forall (i : nat) (t : Task),
        tasks (step w a) !! i = Some t -> ~ frozen i -> task_obeys policy t)
  /\ (forall (i : nat) (t : Task),
        frozen i -> tasks w !! i = Some t -> tasks (step w a) !! i = Some t).
Proof.
  intros Hs Hts Ha. destruct a as [handler | j]; simpl.
  - pose proof (exec_obeys handler None (shared w) Ha Hs) as Hexec.
    destruct (exec None handler (shared w)) as [[s fs] sp]. simpl in Hexec.
    destruct Hexec as (Hs' & Hfs & Hsp). split_and!; simpl.
    + done.
    + intros i t Hi Hfrozen. apply lookup_app_Some in Hi as [Hi | [_ Hi]].
      * by apply (Hts i).
      * apply list_elem_of_lookup_2 in Hi. apply elem_of_cons in Hi as [-> | Hi]; [done|].
        by apply (proj1 (Forall_forall _ _) Hsp).
    + intros i t _ Hi. by apply lookup_app_l_Some.
  - destruct (tasks w !! j) as [tj|] eqn:Hj; [|by split_and!].
    pose proof (resume_obeys tj (shared w) (Hts j tj Hj Ha) Hs) as Hres.
    destruct (resume tj (shared w)) as [[s fs] sp]. simpl in Hres.
    destruct Hres as (Hs' & Hfs & Hsp). split_and!; simpl.
    + done.
    + intros i t Hi Hfrozen. apply lookup_app_Some in Hi as [Hi | [_ Hi]].
      * apply list_lookup_insert_Some in Hi as [(-> & <- & _) | [Hne Hi]]; [done|].
        by apply (Hts i).
      * apply list_elem_of_lookup_2 in Hi.
        by apply (proj1 (Forall_forall _ _) Hsp).
    + intros i t Hfrozen Hi. apply lookup_app_l_Some.
      rewrite list_lookup_insert_ne; [done|]. by intros ->.
Qed.

Lemma run_obeys_except (acts : list Action) :
  forall w : World,
    Inv (shared w) ->
    (forall (i : nat) (t : Task),
        tasks w !! i = Some t -> ~ frozen i -> task_obeys policy t) ->
    Forall (fun a => match a with
                     | Start handler => obeys policy handler
                     | Resume i => ~ frozen i
                     end) acts ->
    Inv (shared (run acts w))
    /\ (forall (i : nat) (t : Task),
          frozen i -> tasks w !! i = Some t -> tasks (run acts w) !! i = Some t).
Proof.
  unfold run. induction acts as [|a acts IH]; intros w Hs Hts Hacts; simpl; [done|].
  apply Forall_cons in Hacts as [Ha Hacts].
  destruct (step_obeys_except w a Hs Hts Ha) as (Hs' & Hts' & Hkept).
  destruct (IH (step w a) Hs' Hts' Hacts) as [Hend Hkept'].
  split; [done|]. intros i t Hfrozen Hi. apply Hkept'; [done|]. by apply Hkept.
Qed.

End Policy.

Section Writes.
Context {B : Builtins} {C : Collaborator} {E : Environment}.
Import OAuthServer.

Lemma obeys_after_calls (policy : WritePolicy) (calls : list (HealthDataAPI * ApiCall))
    (k : Prog) :
  obeys policy k -> obeys policy (after_calls calls k).
Proof. intros Hk. induction calls as [|[api call] calls IH]; simpl; done. Qed.

(** A tools/call handler writes to neither map. *)
Lemma obeys_settle (policy : WritePolicy) (e : Eff ToolResponse) : obeys policy (settle e).
Proof.
  destruct e as [calls [response|error]]; simpl; by apply obeys_after_calls.
Qed.

Lemma obeys_handleMessage (policy : WritePolicy) (body : Message) :
  obeys policy (handleMessage body).
Proof.
  destruct body as [|name args|]; simpl; try done.
  assert (Hwith : forall tok, obeys policy (CallToolRequestHandler_with tok name args)).
  { intros tok. unfold CallToolRequestHandler_with.
    destruct (falsy_string tok); [done|].
    destruct tok; [|done]. apply obeys_settle. }
  intros c. destruct (falsy_string c); [apply Hwith|].
  destruct c as [c|]; [|apply Hwith].
  intros tok. apply Hwith.
Qed.

(** Handling a POST to /message writes to neither map. *)
Lemma obeys_post_message (policy : WritePolicy) (sessionId : Json) (body : Message) :
  obeys policy (post_message sessionId body).
Proof.
  unfold post_message, post_message_with.
  destruct (negb _); [done|].
  destruct sessionId; try done. simpl. intros [transport|]; [|done]. simpl.
  split; [|done]. apply obeys_handleMessage.
Qed.

(** Nor does a POST that the SDK refuses. *)
Lemma obeys_post_message_refused (policy : WritePolicy) (headersSent : bool)
    (sessionId : Json) (body : Message) :
  obeys policy (post_message_refused headersSent sessionId body).
Proof.
  unfold post_message_refused, post_message_with.
  destruct (negb _); [done|].
  destruct sessionId; try done. simpl. intros [transport|]; [|done]. simpl.
  by destruct headersSent.
Qed.

(** No handler stores an empty token. *)
Lemma handler_stores_nonempty (r : Request) : obeys stores_nonempty (handler r).
Proof.
  destruct r as [authorization transport connect | sessionId body
                | sessionId body headersSent | code error exchange uuid]; simpl.
  - unfold get_sse.
    destruct (bearer_token authorization) as [tok|]; [|done].
    destruct (falsy_string (Some tok)) eqn:Htok; [done|].
    apply falsy_string_Some in Htok.
    destruct connect as [|[]]; simpl; done.
  - apply obeys_post_message.
  - apply obeys_post_message_refused.
  - unfold get_oauth_callback. destruct (truthy error); [done|].
    destruct (negb _); [done|]. simpl.
    destruct exchange as [[tok|]|]; simpl; try done.
    destruct (String.eqb_spec tok ""); simpl; done.
Qed.

Lemma tokens_nonempty_set (sid tok : string) (s : Shared) :
  tok <> "" -> tokens_nonempty s ->
  tokens_nonempty (set_sessionTokens (jsmap_set sid tok) s).
Proof.
  intros Htok Hs sid' tok'. simpl.
  destruct (decide (sid = sid')) as [->|Hne].
  - rewrite jsmap_get_set_eq. by intros [= <-].
  - rewrite jsmap_get_set_ne by done. apply Hs.
Qed.

Lemma tokens_nonempty_delete (sid : string) (s : Shared) :
  tokens_nonempty s -> tokens_nonempty (set_sessionTokens (jsmap_delete sid) s).
Proof.
  intros Hs sid' tok'. simpl.
  destruct (decide (sid = sid')) as [->|Hne].
  - by rewrite jsmap_get_delete_eq.
  - rewrite jsmap_get_delete_ne by done. apply Hs.
Qed.

(** In every state the server reaches, the credential store holds no
    empty token. *)
Lemma reachable_tokens_nonempty (events : list Event) :
  tokens_nonempty (shared (serve events initial)).
Proof.
  unfold serve.
  apply (run_obeys stores_nonempty tokens_nonempty).
  - intros o s Hs. exact Hs.
  - intros sid t s _ Hs. exact Hs.
  - intros sid s _ Hs. exact Hs.
  - intros sid tok s Htok Hs. by apply tokens_nonempty_set.
  - intros sid s _ Hs. by apply tokens_nonempty_delete.
  - intros sid tok. done.
  - constructor.
  - apply Forall_fmap, Forall_forall. intros [r|i] _; simpl; [|done].
    apply handler_stores_nonempty.
Qed.

(** X11. Messages change no session.  However many POSTs to /message
    arrive and however their handlers interleave, for whatever session
    ids and with whatever bodies, taken or refused by the SDK, the OAuth
    server's two maps stay as they were: message handling, tool calls
    included, never registers or removes a transport and never stores
    or forgets a token.  This holds in any world, whatever stream-opens
    are pending and whatever listeners wait in it, as long as the
    events resume message handlers only. *)
Theorem messages_change_no_session (events : list Event) (w : World) :
  Forall message_traffic events ->
  (forall (i : nat) (t : Task),
      i ∈ resumed events -> tasks w !! i = Some t -> task_obeys read_only t) ->
  transports (shared (serve events w)) = transports (shared w)
  /\ sessionTokens (shared (serve events w)) = sessionTokens (shared w).
Proof.
  intros Hevents Htasks. unfold serve.
  apply (run_obeys_except read_only
           (fun s => transports s = transports (shared w)
                     /\ sessionTokens s = sessionTokens (shared w))
           (fun o s Hs => Hs)
           (fun sid t s (H : False) => match H with end)
           (fun sid s (H : False) => match H with end)
           (fun sid tok s (H : False) => match H with end)
           (fun sid s (H : False) => match H with end)
           (fun i => i ∉ resumed events)).
  - done.
  - intros i t Hi Hresumed. apply (Htasks i); [|done].
    by apply dec_stable.
  - apply Forall_forall. intros a Ha.
    apply list_elem_of_fmap in Ha as (e & -> & He).
    pose proof (proj1 (Forall_forall _ _) Hevents e He) as Hmsg.
    destruct e as [r|i]; simpl.
    + destruct r; simpl in Hmsg; try done.
      * apply obeys_post_message.
      * apply obeys_post_message_refused.
    + intros Hnot. apply Hnot. unfold resumed. apply list_elem_of_omap.
      by exists (Continues i).
Qed.

(** X12. A stored token is always usable.  In every state the OAuth
    server reaches, no token in the credential store is empty.  So a
    tools/call routed to a registered session and taken by the SDK is
    answered with the re-authentication error exactly when the store
    has no entry for that session (as between the registration of a
    stream and the end of the token introspection), and otherwise goes
    on to the tool with the stored token.  When the SDK refuses the
    message instead, as it does for a transport whose stream has ended,
    the answer is its 500 (or the 500 of the [catch] of /message, had
    the SDK not replied), no handler runs and no token is read. *)
Theorem stored_token_usable (events : list Event) (sid : string)
    (transport : SSEServerTransport) (name : string) (args : Args) :
  let w := serve events initial in
  tokens_nonempty (shared w)
  /\ (jsmap_get sid (transports (shared w)) = Some transport ->
      sid <> "" ->
      exec None (handler (POST_message (JStr sid) (CallToolRequest name args))) (shared w)
      = match jsmap_get sid (sessionTokens (shared w)) with
        | Some accessToken =>
            exec None
              (Run sid
                 (Emit (HttpReply 202 (JStr "Accepted"))
                    (settle (call_tool accessToken name args))) Done) (shared w)
        | None =>
            (emit (ToolResult reauthenticate)
               (emit (HttpReply 202 (JStr "Accepted")) (shared w)), [], [])
        end
      /\ exec None
           (handler (POST_message_refused (JStr sid) (CallToolRequest name args) true))
           (shared w)
         = (emit (HttpReply 500 (JStr "SSE connection not established")) (shared w), [], [])
      /\ exec None
           (handler (POST_message_refused (JStr sid) (CallToolRequest name args) false))
           (shared w)
         = (emit (HttpReply 500 (JObj [("error", JStr "Failed to handle message")]))
              (shared w), [], [])).
Proof.
  intros w. pose proof (reachable_tokens_nonempty events) as Htokens.
  fold w in Htokens. clearbody w. split; [done|].
  intros Hreg Hsid. cbn [handler]. split_and!.
  - rewrite (routed_call _ sid transport) by done.
    unfold CallToolRequestHandler_with.
    destruct (jsmap_get sid (sessionTokens (shared w))) as [tok|] eqn:Htok; [|done].
    apply Htokens in Htok. apply falsy_string_Some in Htok. by rewrite Htok.
  - unfold post_message_refused.
    by rewrite (exec_post_message_registered _ sid transport).
  - unfold post_message_refused.
    by rewrite (exec_post_message_registered _ sid transport).
Qed.

End Writes.

Lemma messages_change_no_session_witness :
  let opened := @OAuthServer.serve Sample.builtins Sample.collaborator Sample.environment
                  Sample.opening initial in
  let events := [
    OAuthServer.Arrives
      (OAuthServer.POST_message (JStr "session-a")
         (CallToolRequest "get_latest_glucose" None));
    OAuthServer.Arrives
      (OAuthServer.POST_message (JStr "session-b")
         (CallToolRequest "get_latest_glucose" None));
    OAuthServer.Continues 7;
    OAuthServer.Continues 6] in
  transports (shared (@OAuthServer.serve Sample.builtins Sample.collaborator
                        Sample.environment events opened))
  = [("session-a", Sample.alice); ("session-b", Sample.bob)]
  /\ sessionTokens (shared (@OAuthServer.serve Sample.builtins Sample.collaborator
                              Sample.environment events opened))
     = [("session-a", "token-a"); ("session-b", "token-b")].
Proof.
  intros opened events.
  apply (@messages_change_no_session Sample.builtins Sample.collaborator
           Sample.environment events opened).
  - repeat constructor.
  - intros i t Hi. cbn in Hi.
    apply elem_of_cons in Hi as [-> | Hi]; [discriminate|].
    apply elem_of_cons in Hi as [-> | Hi]; [discriminate|].
    by apply elem_of_nil in Hi.
Defined.

(* ===================================================================== *)
(** ** The life of a session in the OAuth server *)
(* ===================================================================== *)

Lemma step_arrival (w : World) (handler : Prog) (s : Shared) (fs : Task) :
  exec None handler (shared w) = (s, fs, []) ->
  step w (Start handler) = {| shared := s; tasks := tasks w ++ [fs] |}.
Proof. intros Hexec. simpl. by rewrite Hexec. Qed.

Lemma step_resume_last (ts : list Task) (t : Task) (s0 s : Shared) (fs : Task)
    (sp : list Task) :
  resume t s0 = (s, fs, sp) ->
  step {| shared := s0; tasks := ts ++ [t] |} (Resume (length ts))
  = {| shared := s; tasks := ts ++ [fs] ++ sp |}.
Proof.
  intros Hresume. simpl. rewrite list_lookup_middle by done. rewrite Hresume.
  f_equal. rewrite insert_app_r_alt by done. rewrite Nat.sub_diag.
  by rewrite <- app_assoc.
Qed.

Lemma step_resume_at (ts1 ts2 : list Task) (t : Task) (s0 s : Shared) (fs : Task) :
  resume t s0 = (s, fs, []) ->
  step {| shared := s0; tasks := ts1 ++ t :: ts2 |} (Resume (length ts1))
  = {| shared := s; tasks := ts1 ++ fs :: ts2 |}.
Proof.
  intros Hresume. simpl. rewrite list_lookup_middle by done. rewrite Hresume.
  f_equal. rewrite app_nil_r. rewrite insert_app_r_alt by done.
  by rewrite Nat.sub_diag.
Qed.

(** The second and the third task after [ts]. *)
Lemma step_resume_second (ts : list Task) (t0 t b : Task) (s0 s : Shared) (fs : Task) :
  resume t s0 = (s, fs, []) ->
  step {| shared := s0; tasks := ts ++ [t0; t; b] |} (Resume (length ts + 1))
  = {| shared := s; tasks := ts ++ [t0; fs; b] |}.
Proof.
  intros Hresume.
  pose proof (step_resume_at (ts ++ [t0]) [b] t s0 s fs Hresume) as Hstep.
  rewrite length_app in Hstep. simpl in Hstep. by rewrite <- !app_assoc in Hstep.
Qed.

Lemma step_resume_third (ts : list Task) (t0 a t : Task) (s0 s : Shared) (fs : Task) :
  resume t s0 = (s, fs, []) ->
  step {| shared := s0; tasks := ts ++ [t0; a; t] |} (Resume (length ts + 2))
  = {| shared := s; tasks := ts ++ [t0; a; fs] |}.
Proof.
  intros Hresume.
  pose proof (step_resume_at (ts ++ [t0; a]) [] t s0 s fs Hresume) as Hstep.
  rewrite length_app in Hstep. simpl in Hstep. by rewrite <- !app_assoc in Hstep.
Qed.

Lemma jsmap_delete_set_fresh {V} (k : string) (v : V) (m : JsMap V) :
  jsmap_get k m = None -> jsmap_delete k (jsmap_set k v m) = m.
Proof.
  induction m as [|[k' v'] m IH]; simpl.
  - by rewrite String.eqb_refl.
  - destruct (String.eqb_spec k k') as [->|Hne]; [done|]. intros Hm. simpl.
    destruct (String.eqb_spec k k'); [done|]. by rewrite IH.
Qed.

(** Rewrites the step at the head of the goal with the equation [H],
    whose left-hand side it is up to the unfolding of [Task]. *)
Ltac step_with H :=
  match type of H with
  | ?L = _ =>
      match goal with
      | |- context [step ?W ?a] => change (step W a) with L; rewrite H
      end
  end.

Section Lifecycle.
Context {B : Builtins} {C : Collaborator} {E : Environment}.
Import OAuthServer.

(** The header yields a token exactly when it is [Bearer ] followed by
    the token. *)
Lemma bearer_token_spec (authorization : option string) (tok : string) :
  bearer_token authorization = Some tok <-> authorization = Some ("Bearer " +:+ tok).
Proof.
  unfold bearer_token, startsWith. split.
  - destruct authorization as [authHeader|]; [|done].
    destruct (String.prefix "Bearer " authHeader) eqn:Hprefix; [|done].
    apply prefix_spec in Hprefix as [r ->].
    pose proof (substring_from_app "Bearer " r) as Hrest.
    change (String.length "Bearer ") with 7%nat in Hrest. rewrite Hrest.
    by intros [= ->].
  - intros ->.
    assert (Hprefix : String.prefix "Bearer " ("Bearer " +:+ tok) = true).
    { apply prefix_spec. by exists tok. }
    rewrite Hprefix.
    pose proof (substring_from_app "Bearer " tok) as Hrest.
    change (String.length "Bearer ") with 7%nat in Hrest. by rewrite Hrest.
Qed.

(** A stream-open with a token, up to the registration of the
    transport: the request and the end of [server.connect].  The
    handler then waits for the introspection, and no listener exists. *)
Lemma serve_get_sse_registered (w : World) (authorization : option string)
    (transport : SSEServerTransport) (tok : string) :
  bearer_token authorization = Some tok -> tok <> "" ->
  serve [Arrives (GET_sse authorization transport Connected);
         Continues (length (tasks w))] w
  = {| shared := set_transports (jsmap_set (sessionId transport) transport) (shared w);
       tasks := tasks w ++ [[{| store := None;
                                code := TokensSet (sessionId transport) tok
                                          (req_on (on_close (sessionId transport))
                                             (req_on (on_error (sessionId transport))
                                                Done)) |}]] |}.
Proof.
  intros Hbearer Htok. apply String.eqb_neq in Htok.
  unfold serve, run. cbn [fmap list_fmap foldl action handler]. unfold get_sse.
  rewrite Hbearer. cbn [falsy_string]. rewrite Htok.
  erewrite step_arrival by reflexivity.
  erewrite step_resume_last by reflexivity. by rewrite app_nil_r.
Qed.

(** The end of the introspection: the token is stored and the two
    listeners are registered. *)
Lemma serve_get_sse_listening (ts : list Task) (s : Shared) (sid tok : string) :
  serve [Continues (length ts)]
    {| shared := s;
       tasks := ts ++ [[{| store := None;
                           code := TokensSet sid tok
                                     (req_on (on_close sid) (req_on (on_error sid) Done)) |}]] |}
  = {| shared := set_sessionTokens (jsmap_set sid tok) s;
       tasks := ts ++ [[];
                       [{| store := None; code := on_close sid |}];
                       [{| store := None; code := on_error sid |}]] |}.
Proof.
  unfold serve, run. cbn [fmap list_fmap foldl action].
  by erewrite step_resume_last by reflexivity.
Qed.

(** The three events of a stream-open: the request, the end of
    [server.connect], the end of the introspection. *)
Lemma serve_get_sse (w : World) (authorization : option string)
    (transport : SSEServerTransport) (connect : ConnectOutcome) :
  let refused :=
    {| shared := emit (HttpReply 401 (JObj [
                   ("error", JStr "unauthorized");
                   ("error_description", JStr "Bearer token required")])) (shared w);
       tasks := tasks w ++ [[]] |} in
  serve [Arrives (GET_sse authorization transport connect);
         Continues (length (tasks w)); Continues (length (tasks w))] w
  = match bearer_token authorization with
    | Some tok =>
        if String.eqb tok "" then refused
        else
          match connect with
          | Connected =>
              {| shared := set_sessionTokens (jsmap_set (sessionId transport) tok)
                             (set_transports (jsmap_set (sessionId transport) transport)
                                (shared w));
                 tasks := tasks w ++ [[];
                            [{| store := None; code := on_close (sessionId transport) |}];
                            [{| store := None; code := on_error (sessionId transport) |}]] |}
          | ConnectFailed headersSent =>
              {| shared := if headersSent then shared w
                           else emit (HttpReply 500 (JObj [
                                  ("error", JStr "Failed to establish SSE connection")]))
                                  (shared w);
                 tasks := tasks w ++ [[]] |}
          end
    | None => refused
    end.
Proof.
  intros refused. subst refused.
  destruct (bearer_token authorization) as [tok|] eqn:Hbearer.
  - destruct (String.eqb_spec tok "") as [->|Htok].
    + unfold serve, run. cbn [fmap list_fmap foldl action handler]. unfold get_sse.
      rewrite Hbearer. cbn [falsy_string String.eqb].
      erewrite step_arrival by reflexivity.
      erewrite step_resume_last by reflexivity. rewrite app_nil_r.
      erewrite step_resume_last by reflexivity. by rewrite app_nil_r.
    + destruct connect as [|headersSent].
      * change [Arrives (GET_sse authorization transport Connected);
                Continues (length (tasks w)); Continues (length (tasks w))]
          with ([Arrives (GET_sse authorization transport Connected);
                 Continues (length (tasks w))] ++ [Continues (length (tasks w))]).
        unfold serve, run. rewrite fmap_app, foldl_app.
        pose proof (serve_get_sse_registered w authorization transport tok Hbearer Htok)
          as Hregistered.
        unfold serve, run in Hregistered. rewrite Hregistered.
        apply (serve_get_sse_listening (tasks w)).
      * apply String.eqb_neq in Htok.
        unfold serve, run. cbn [fmap list_fmap foldl action handler]. unfold get_sse.
        rewrite Hbearer. cbn [falsy_string]. rewrite Htok.
        erewrite step_arrival by reflexivity.
        destruct headersSent.
        -- erewrite step_resume_last by reflexivity. rewrite app_nil_r.
           erewrite step_resume_last by reflexivity. by rewrite app_nil_r.
        -- erewrite step_resume_last by reflexivity. rewrite app_nil_r.
           erewrite step_resume_last by reflexivity. by rewrite app_nil_r.
  - unfold serve, run. cbn [fmap list_fmap foldl action handler]. unfold get_sse.
    rewrite Hbearer. cbn [falsy_string].
    erewrite step_arrival by reflexivity.
    erewrite step_resume_last by reflexivity. rewrite app_nil_r.
    erewrite step_resume_last by reflexivity. by rewrite app_nil_r.
Qed.

(** X13. How a stream-open ends.  Once a GET /sse has run to its end,
    either the [Authorization] header was [Bearer ] followed by a
    non-empty token and the connection was made, and then the transport
    is registered under its session id, that very token is stored under
    the same id, and the close and the error listener of the request
    wait for their events, with no reply body; or both maps are as
    before, no listener waits, and the reply was 401 (no header, another
    scheme, or an empty token), 500 (the connection failed before the
    headers were sent) or nothing (it failed after).  The token is not
    checked in any other way: the outcome of the introspection changes
    nothing. *)
Theorem stream_open_outcomes (w : World) (authorization : option string)
    (transport : SSEServerTransport) (connect : ConnectOutcome) :
  let sid := sessionId transport in
  let w' := serve [Arrives (GET_sse authorization transport connect);
                   Continues (length (tasks w)); Continues (length (tasks w))] w in
  (exists tok : string,
      authorization = Some ("Bearer " +:+ tok) /\ tok <> "" /\ connect = Connected
      /\ shared w' = set_sessionTokens (jsmap_set sid tok)
                       (set_transports (jsmap_set sid transport) (shared w))
      /\ tasks w' = tasks w ++ [[];
                      [{| store := None; code := on_close sid |}];
                      [{| store := None; code := on_error sid |}]])
  \/ (tasks w' = tasks w ++ [[]]
      /\ transports (shared w') = transports (shared w)
      /\ sessionTokens (shared w') = sessionTokens (shared w)
      /\ (((forall tok : string,
               tok <> "" -> authorization <> Some ("Bearer " +:+ tok))
            /\ log (shared w')
               = log (shared w) ++ [HttpReply 401 (JObj [
                   ("error", JStr "unauthorized");
                   ("error_description", JStr "Bearer token required")])])
           \/ (connect = ConnectFailed false
               /\ log (shared w')
                  = log (shared w) ++ [HttpReply 500 (JObj [
                      ("error", JStr "Failed to establish SSE connection")])])
           \/ (connect = ConnectFailed true /\ log (shared w') = log (shared w)))).
Proof.
  intros sid w'. subst w'. rewrite serve_get_sse.
  destruct (bearer_token authorization) as [tok|] eqn:Hbearer.
  - apply bearer_token_spec in Hbearer as ->.
    destruct (String.eqb_spec tok "") as [->|Htok].
    + right. split_and!; [done|done|done|]. left. split; [|done].
      intros tok Htok [= Heq]. apply append_inj_l in Heq. congruence.
    + destruct connect as [|[|]].
      * left. by exists tok.
      * right. split_and!; [done|done|done|]. right. by right.
      * right. split_and!; [done|done|done|]. right. by left.
  - right. split_and!; [done|done|done|]. left. split; [|done].
    intros tok Htok ->.
    assert (Hsome : bearer_token (Some ("Bearer " +:+ tok)) = Some tok)
      by by apply bearer_token_spec.
    congruence.
Qed.

(** Whatever the order and the number of the close and error events of
    a stream, once its listeners run on a state that holds nothing
    under its id they leave that state as it is. *)
Lemma listeners_fire_again (ts : list Task) (sid : string) (s : Shared)
    (endings : list nat) :
  jsmap_get sid (transports s) = None ->
  jsmap_get sid (sessionTokens s) = None ->
  Forall (fun j => j = (length ts + 1)%nat \/ j = (length ts + 2)%nat) endings ->
  forall a b : Task,
    a = [{| store := None; code := on_close sid |}] \/ a = [] ->
    b = [{| store := None; code := on_error sid |}] \/ b = [] ->
    exists a' b' : Task,
      run (Resume <$> endings) {| shared := s; tasks := ts ++ [[]; a; b] |}
      = {| shared := s; tasks := ts ++ [[]; a'; b'] |}
      /\ (a' = [{| store := None; code := on_close sid |}] \/ a' = [])
      /\ (b' = [{| store := None; code := on_error sid |}] \/ b' = []).
Proof.
  intros Hfresh Hnotoken Hendings.
  assert (Hsame : set_sessionTokens (jsmap_delete sid) (set_transports (jsmap_delete sid) s)
                  = s).
  { destruct s as [tr tk l]. unfold set_sessionTokens, set_transports. simpl in *.
    by rewrite !jsmap_delete_absent. }
  assert (Hclose : forall a : Task,
             a = [{| store := None; code := on_close sid |}] \/ a = [] ->
             resume a s = (s, [], [])).
  { intros a [-> | ->]; [|done]. cbn [resume store code on_close exec app].
    by rewrite Hsame. }
  assert (Herror : forall b : Task,
             b = [{| store := None; code := on_error sid |}] \/ b = [] ->
             resume b s = (s, [], [])).
  { intros b [-> | ->]; [|done]. cbn [resume store code on_error exec app].
    by rewrite Hsame. }
  induction Hendings as [|j endings Hj _ IH]; intros a b Ha Hb; [by exists a, b|].
  unfold run. cbn [fmap list_fmap foldl].
  destruct Hj as [-> | ->].
  - pose proof (step_resume_second ts [] a b s s [] (Hclose a Ha)) as Hstep.
    step_with Hstep. apply (IH [] b); auto.
  - pose proof (step_resume_third ts [] a b s s [] (Herror b Hb)) as Hstep.
    step_with Hstep. apply (IH a []); auto.
Qed.

(** The world that a session opened under a fresh id and then closed
    leaves: the state as before, and what is left of its two listeners. *)
Lemma serve_open_close (w : World) (tok : string) (transport : SSEServerTransport)
    (endings : list nat) :
  let sid := sessionId transport in
  let n := length (tasks w) in
  tok <> "" ->
  jsmap_get sid (transports (shared w)) = None ->
  jsmap_get sid (sessionTokens (shared w)) = None ->
  endings <> [] ->
  Forall (fun j => j = (n + 1)%nat \/ j = (n + 2)%nat) endings ->
  exists a b : Task,
    serve ([Arrives (GET_sse (Some ("Bearer " +:+ tok)) transport Connected);
            Continues n; Continues n] ++ (Continues <$> endings)) w
    = {| shared := shared w; tasks := tasks w ++ [[]; a; b] |}
    /\ (a = [{| store := None; code := on_close sid |}] \/ a = [])
    /\ (b = [{| store := None; code := on_error sid |}] \/ b = []).
Proof.
  intros sid n Htok Hfresh Hnotoken Hnonempty Hendings.
  unfold serve, run. rewrite fmap_app, foldl_app.
  pose proof (serve_get_sse w (Some ("Bearer " +:+ tok)) transport Connected) as Hopen.
  unfold serve, run in Hopen. cbv zeta in Hopen. fold n in Hopen. rewrite Hopen. clear Hopen.
  assert (Hbearer : bearer_token (Some ("Bearer " +:+ tok)) = Some tok)
    by by apply bearer_token_spec.
  rewrite Hbearer. apply String.eqb_neq in Htok. rewrite Htok. fold sid.
  assert (Hopened :
    set_sessionTokens (jsmap_delete sid)
      (set_transports (jsmap_delete sid)
         (set_sessionTokens (jsmap_set sid tok)
            (set_transports (jsmap_set sid transport) (shared w))))
    = shared w).
  { unfold set_sessionTokens, set_transports. cbn [transports sessionTokens log].
    rewrite !jsmap_delete_set_fresh by done. by destruct (shared w). }
  rewrite <- list_fmap_compose.
  change (action ∘ Continues) with Resume.
  destruct endings as [|j endings]; [done|].
  apply Forall_cons in Hendings as [Hj Hendings].
  cbn [fmap list_fmap foldl].
  destruct Hj as [-> | ->].
  - assert (Hstep := step_resume_second (tasks w) []
                        [{| store := None; code := on_close sid |}]
                        [{| store := None; code := on_error sid |}]
                        (set_sessionTokens (jsmap_set sid tok)
                           (set_transports (jsmap_set sid transport) (shared w)))
                        (shared w) []).
    cbn [resume store code on_close exec app] in Hstep. rewrite Hopened in Hstep.
    specialize (Hstep eq_refl). step_with Hstep.
    apply (listeners_fire_again (tasks w) sid (shared w) endings Hfresh Hnotoken Hendings);
      auto.
  - assert (Hstep := step_resume_third (tasks w) []
                        [{| store := None; code := on_close sid |}]
                        [{| store := None; code := on_error sid |}]
                        (set_sessionTokens (jsmap_set sid tok)
                           (set_transports (jsmap_set sid transport) (shared w)))
                        (shared w) []).
    cbn [resume store code on_error exec app] in Hstep. rewrite Hopened in Hstep.
    specialize (Hstep eq_refl). step_with Hstep.
    apply (listeners_fire_again (tasks w) sid (shared w) endings Hfresh Hnotoken Hendings);
      auto.
Qed.

(** X14. Opening and closing leave no trace.  A session opened under a
    fresh id and then closed, by the close event or by the error event
    of its stream, or by both, in either order and however often,
    leaves the state exactly as it was before the stream-open: both
    maps are restored entry for entry, and nothing was replied in
    between.  A second close or error is a no-op. *)
Theorem open_close_round_trip (w : World) (tok : string)
    (transport : SSEServerTransport) (endings : list nat) :
  let sid := sessionId transport in
  let n := length (tasks w) in
  tok <> "" ->
  jsmap_get sid (transports (shared w)) = None ->
  jsmap_get sid (sessionTokens (shared w)) = None ->
  endings <> [] ->
  Forall (fun j => j = (n + 1)%nat \/ j = (n + 2)%nat) endings ->
  shared (serve ([Arrives (GET_sse (Some ("Bearer " +:+ tok)) transport Connected);
                  Continues n; Continues n] ++ (Continues <$> endings)) w)
  = shared w.
Proof.
  intros sid n Htok Hfresh Hnotoken Hnonempty Hendings.
  destruct (serve_open_close w tok transport endings Htok Hfresh Hnotoken Hnonempty
              Hendings) as (a & b & Hclosed & _).
  fold sid n in Hclosed. by rewrite Hclosed.
Qed.

(** X20. A closed session is not found.  Once a session that was
    opened under a fresh id has been closed, by the close or the error
    event of its stream, its id is in neither map, and it stays out of
    both whatever happens afterwards, as long as no stream is opened
    under the same id and no OAuth callback draws it: a message posted
    under the id is answered 404 at once, it is neither handed to the
    SDK nor left waiting, and no token of the session is left for a
    later stream to find. *)
Theorem closed_session_not_found (w : World) (tok : string)
    (transport : SSEServerTransport) (endings : list nat) (later : list Event)
    (body : Message) :
  let sid := sessionId transport in
  let n := length (tasks w) in
  sid <> "" ->
  tok <> "" ->
  jsmap_get sid (transports (shared w)) = None ->
  jsmap_get sid (sessionTokens (shared w)) = None ->
  Forall (task_obeys (sets_nothing_under sid)) (tasks w) ->
  endings <> [] ->
  Forall (fun j => j = (n + 1)%nat \/ j = (n + 2)%nat) endings ->
  Forall (fun e => ~ writes_under sid e) later ->
  let closed :=
    serve ([Arrives (GET_sse (Some ("Bearer " +:+ tok)) transport Connected);
            Continues n; Continues n] ++ (Continues <$> endings)) w in
  let w' := serve later closed in
  jsmap_get sid (transports (shared w')) = None
  /\ jsmap_get sid (sessionTokens (shared w')) = None
  /\ exec None (post_message (JStr sid) body) (shared w')
     = (emit (HttpReply 404 (JObj [
                ("error",
                 JStr "No active SSE connection for this session. Please connect to /sse first.")]))
          (shared w'), [], []).
Proof.
  intros sid n Hsid Htok Hfresh Hnotoken Htasks Hnonempty Hendings Hlater closed w'.
  destruct (serve_open_close w tok transport endings Htok Hfresh Hnotoken Hnonempty
              Hendings) as (a & b & Hclosed & Ha & Hb).
  fold sid n closed in Hclosed.
  assert (Hgone : jsmap_get sid (transports (shared w')) = None
                  /\ jsmap_get sid (sessionTokens (shared w')) = None).
  { subst w'. clearbody closed. subst closed. unfold serve.
    refine (proj1 (run_obeys (sets_nothing_under sid)
              (fun s => jsmap_get sid (transports s) = None
                        /\ jsmap_get sid (sessionTokens s) = None)
              _ _ _ _ _ (action <$> later) _ _ _ _)).
    - intros o s Hs. exact Hs.
    - intros sid' t s Hne [Ht Hk]. split; [|done]. simpl. by rewrite jsmap_get_set_ne.
    - intros sid' s _ [Ht Hk]. split; [|done]. simpl.
      destruct (decide (sid' = sid)) as [->|Hne];
        [apply jsmap_get_delete_eq | by rewrite jsmap_get_delete_ne].
    - intros sid' tok' s Hne [Ht Hk]. split; [done|]. simpl. by rewrite jsmap_get_set_ne.
    - intros sid' s _ [Ht Hk]. split; [done|]. simpl.
      destruct (decide (sid' = sid)) as [->|Hne];
        [apply jsmap_get_delete_eq | by rewrite jsmap_get_delete_ne].
    - done.
    - cbn [tasks]. apply Forall_app. split; [done|].
      repeat constructor; destruct Ha as [-> | ->], Hb as [-> | ->];
        repeat constructor; done.
    - apply Forall_fmap. eapply Forall_impl; [exact Hlater|].
      intros [r|i] Hr; simpl; [|done].
      destruct r as [authorization transport' connect | sessionId body'
                    | sessionId body' headersSent | code error exchange uuid];
        simpl in Hr.
      + unfold handler, get_sse.
        destruct (bearer_token authorization) as [tok'|]; [|done].
        destruct (falsy_string (Some tok')); [done|].
        destruct connect as [|[]]; simpl; done.
      + apply obeys_post_message.
      + apply obeys_post_message_refused.
      + unfold handler, get_oauth_callback. destruct (truthy error); [done|].
        destruct (negb _); [done|]. simpl.
        destruct exchange as [[tok'|]|]; simpl; try done.
        destruct (String.eqb tok' ""); simpl; done. }
  destruct Hgone as [Htransport Htoken]. split_and!; [done|done|].
  unfold post_message, post_message_with.
  apply truthy_JStr in Hsid. rewrite Hsid. cbn [negb exec]. by rewrite Htransport.
Qed.

End Lifecycle.

Lemma open_close_round_trip_witness :
  shared (@OAuthServer.serve Sample.builtins Sample.collaborator Sample.environment
            [OAuthServer.Arrives
               (OAuthServer.GET_sse (Some "Bearer token-a") Sample.alice OAuthServer.Connected);
             OAuthServer.Continues 0; OAuthServer.Continues 0;
             OAuthServer.Continues 2; OAuthServer.Continues 1] initial)
  = shared initial.
Proof.
  apply (@open_close_round_trip Sample.builtins Sample.collaborator Sample.environment
           initial "token-a" Sample.alice [2%nat; 1%nat]).
  - discriminate.
  - reflexivity.
  - reflexivity.
  - discriminate.
  - apply Forall_cons. split; [by right|].
    apply Forall_cons. split; [by left|]. constructor.
Defined.

Lemma closed_session_not_found_witness :
  let w' :=
    @OAuthServer.serve Sample.builtins Sample.collaborator Sample.environment
      [OAuthServer.Arrives
         (OAuthServer.GET_sse (Some "Bearer token-b") Sample.bob OAuthServer.Connected);
       OAuthServer.Continues 3]
      (@OAuthServer.serve Sample.builtins Sample.collaborator Sample.environment
         [OAuthServer.Arrives
            (OAuthServer.GET_sse (Some "Bearer token-a") Sample.alice OAuthServer.Connected);
          OAuthServer.Continues 0; OAuthServer.Continues 0;
          OAuthServer.Continues 1] initial) in
  exec None
    (@OAuthServer.post_message Sample.builtins Sample.collaborator Sample.environment
       (JStr "session-a") ListToolsRequest) (shared w')
  = (emit (HttpReply 404 (JObj [
             ("error",
              JStr "No active SSE connection for this session. Please connect to /sse first.")]))
       (shared w'), [], []).
Proof.
  intros w'.
  destruct (@closed_session_not_found Sample.builtins Sample.collaborator
              Sample.environment initial "token-a" Sample.alice [1%nat]
              [OAuthServer.Arrives
                 (OAuthServer.GET_sse (Some "Bearer token-b") Sample.bob
                    OAuthServer.Connected);
               OAuthServer.Continues 3] ListToolsRequest)
    as (_ & _ & Hreply).
  - discriminate.
  - discriminate.
  - reflexivity.
  - reflexivity.
  - constructor.
  - discriminate.
  - apply Forall_cons. split; [by left|]. constructor.
  - repeat constructor; simpl; try tauto. discriminate.
  - exact Hreply.
Defined.

(* ===================================================================== *)
(** ** The OAuth callback *)
(* ===================================================================== *)

Section Callback.
Context {B : Builtins} {C : Collaborator} {E : Environment}.
Import OAuthServer.



End Callback.

(* ===================================================================== *)
(** ** Sessions of the single-tenant SSE server *)
(* ===================================================================== *)

Section HttpSessions.
Context {B : Builtins} {C : Collaborator} {E : Environment}.

Lemma jsmap_keys_get {V} (k : string) (m : JsMap V) :
  k ∈ jsmap_keys m -> exists v : V, jsmap_get k m = Some v.
Proof.
  intros Hk. destruct (jsmap_get k m) as [v|] eqn:Hget; [by exists v|].
  by apply jsmap_get_None_keys in Hget.
Qed.

(** X16. A wrong session id is answered with the right ones.  In the
    single-tenant SSE server a POST to /message under an id that is not
    registered is answered 404 with the ids of all the open sessions,
    and a message posted under any of the ids so disclosed is accepted:
    its handler waits for the body and then answers 202 and handles the
    message, as it does for the session's own client.  The OAuth server
    answers the same request with a fixed 404 that names no session. *)
Theorem wrong_id_discloses_sessions (s : Shared) (sid : string) (body : Message) :
  sid <> "" ->
  jsmap_get sid (transports s) = None ->
  exec None (HttpServer.post_message (JStr sid) body) s
  = (emit (HttpReply 404 (JObj [
             ("error", JStr "Session not found");
             ("sessionId", JStr sid);
             ("availableSessions", JArr (map JStr (jsmap_keys (transports s))))])) s,
     [], [])
  /\ (forall (other : string) (message : Message),
        other ∈ jsmap_keys (transports s) -> other <> "" ->
        exec None (HttpServer.post_message (JStr other) message) s
        = (s, [{| store := None;
                  code := Emit (HttpReply 202 (JStr "Accepted"))
                            (HttpServer.handleMessage message) |}], []))
  /\ exec None (OAuthServer.post_message (JStr sid) body) s
     = (emit (HttpReply 404 (JObj [
                ("error",
                 JStr "No active SSE connection for this session. Please connect to /sse first.")]))
          s, [], []).
Proof.
  intros Hsid Hfresh. apply truthy_JStr in Hsid. split_and!.
  - unfold HttpServer.post_message. rewrite Hsid. cbn [negb transports_get exec].
    by rewrite Hfresh.
  - intros other message Hother Hne. apply truthy_JStr in Hne.
    destruct (jsmap_keys_get other (transports s) Hother) as [transport Hreg].
    unfold HttpServer.post_message. rewrite Hne. cbn [negb transports_get exec].
    by rewrite Hreg.
  - unfold OAuthServer.post_message, OAuthServer.post_message_with.
    rewrite Hsid. cbn [negb exec]. by rewrite Hfresh.
Qed.

(** X17. A session of the single-tenant server, from open to close.
    GET /sse registers the transport under its id at once, before the
    connection is made, leaving every other session as it was; from
    then on a POST under that id is accepted; once the transport's
    [onclose] has run, the id is gone from the map, a POST under it is
    answered 404, and the list of sessions in that answer no longer
    holds it. *)
Theorem http_session_lifecycle (s : Shared) (transport : SSEServerTransport)
    (body : Message) :
  let sid := sessionId transport in
  sid <> "" ->
  let opened := (exec None (HttpServer.get_sse transport) s).1.1 in
  let closed := (exec None (HttpServer.onclose sid) opened).1.1 in
  jsmap_get sid (transports opened) = Some transport
  /\ (forall other : string,
        other <> sid -> jsmap_get other (transports opened) = jsmap_get other (transports s))
  /\ exec None (HttpServer.post_message (JStr sid) body) opened
     = (opened, [{| store := None;
                    code := Emit (HttpReply 202 (JStr "Accepted"))
                              (HttpServer.handleMessage body) |}], [])
  /\ (sid ∉ jsmap_keys (transports closed))
  /\ exec None (HttpServer.post_message (JStr sid) body) closed
     = (emit (HttpReply 404 (JObj [
                ("error", JStr "Session not found");
                ("sessionId", JStr sid);
                ("availableSessions", JArr (map JStr (jsmap_keys (transports closed))))]))
          closed, [], []).
Proof.
  intros sid Hsid opened closed.
  assert (Hopened : jsmap_get sid (transports opened) = Some transport).
  { subst opened. simpl. apply jsmap_get_set_eq. }
  assert (Hclosed : jsmap_get sid (transports closed) = None).
  { subst closed. simpl. apply jsmap_get_delete_eq. }
  apply truthy_JStr in Hsid.
  split_and!.
  - exact Hopened.
  - intros other Hother. subst opened. simpl. by apply jsmap_get_set_ne.
  - clearbody opened. unfold HttpServer.post_message.
    rewrite Hsid. cbn [negb transports_get exec]. by rewrite Hopened.
  - by apply jsmap_get_None_keys.
  - clearbody closed. unfold HttpServer.post_message.
    rewrite Hsid. cbn [negb transports_get exec]. by rewrite Hclosed.
Qed.

End HttpSessions.

Lemma wrong_id_discloses_sessions_witness :
  exec None
    (@HttpServer.post_message Sample.builtins Sample.collaborator Sample.environment
       (JStr "guess") ListToolsRequest) Sample.two_sessions
  = (emit (HttpReply 404 (JObj [
             ("error", JStr "Session not found");
             ("sessionId", JStr "guess");
             ("availableSessions", JArr [JStr "session-a"; JStr "session-b"])]))
       Sample.two_sessions, [], []).
Proof.
  destruct (@wrong_id_discloses_sessions Sample.builtins Sample.collaborator
              Sample.environment Sample.two_sessions "guess" ListToolsRequest)
    as (Hreply & _ & _).
  - discriminate.
  - reflexivity.
  - exact Hreply.
Defined.

Lemma http_session_lifecycle_witness :
  jsmap_get "session-a"
    (transports (exec None
       (HttpServer.get_sse Sample.alice) (shared initial)).1.1)
  = Some Sample.alice.
Proof.
  destruct (@http_session_lifecycle Sample.builtins Sample.collaborator Sample.environment
              (shared initial) Sample.alice ListToolsRequest)
    as (Hopened & _).
  - discriminate.
  - exact Hopened.
Defined.

(* ===================================================================== *)
(** ** From a search result to its document *)
(* ===================================================================== *)

Section RoundTrip.
Context {B : Builtins} {C : Collaborator}.

Lemma find_reading_In (ts : string) (readings : list GlucoseReading) (r : GlucoseReading) :
  In r readings -> date r = JStr ts ->
  exists found : GlucoseReading, find_reading (Some ts) readings = Some found.
Proof.
  intros Hin Hdate. destruct (find_reading (Some ts) readings) as [found|] eqn:Hfind.
  - by exists found.
  - by destruct (find_reading_None ts readings Hfind r Hin).
Qed.

(** X18. From a search result to its document.  The id that search
    gives to a reading is [reading:] followed by the reading's date.
    When that date is a string without a colon that the runtime parses
    (a calendar date, say), fetching the id sends one query for the two
    hours around the parsed instant; if the reading is among those the
    API returns for that window, fetch answers with a document holding
    the first returned reading that has this very date. *)
Theorem search_fetch_round_trip (api : HealthDataAPI) (userId : Json)
    (r : GlucoseReading) (d : string) (t t1 t2 : Z)
    (readings : list GlucoseReading) (others : list (string * Json)) :
  date r = JStr d ->
  has_colon d = false ->
  Date_parse d = Some t ->
  TimeClip (t - 1 * 60 * 60 * 1000) = Some t1 ->
  TimeClip (t + 1 * 60 * 60 * 1000) = Some t2 ->
  let window := {| rp_userId := userId; rp_startDate := JStr (Date_toISOString t1);
                   rp_endDate := JStr (Date_toISOString t2); rp_limit := JNum 100 |} in
  remote_getGlucoseReadings api window = Ok readings ->
  In r readings ->
  prop (search_result r) "id" = Ok (JStr ("reading:" +:+ d))
  /\ exists (found : GlucoseReading) (summary : Json),
       find_reading (Some d) readings = Some found
       /\ date found = JStr d
       /\ tool_fetch api userId (Some (("id", JStr ("reading:" +:+ d)) :: others))
          = ([(api, GetGlucoseReadings window)],
             Ok (ok_text (JSON_stringify (JObj [
               ("id", JStr ("reading:" +:+ d));
               ("title", summary);
               ("text", JStr (JSON_stringify (reading_json found)));
               ("url", JStr "https://healthmate.app");
               ("metadata", JObj [
                  ("type", JStr "glucose_reading");
                  ("retrieved_at", JStr (Date_toISOString Date_now))])])))).
Proof.
  intros Hdate Hcolon Hparse Ht1 Ht2 window Hremote Hin. split.
  - unfold search_result. cbn [prop field String.eqb Ascii.eqb Bool.eqb].
    rewrite Hdate. done.
  - destruct (find_reading_In d readings r Hin Hdate) as [found Hfind].
    pose proof (find_reading_Some d readings found Hfind) as [_ Hfound].
    eexists found, _. split_and!; [done|done|].
    unfold tool_fetch. cbn [arg field String.eqb Ascii.eqb Bool.eqb].
    change (truthy (JStr ("reading:" +:+ d))) with true. cbn [negb].
    rewrite (split_colon_reading d Hcolon).
    cbn [nth lookup list_lookup from_option new_Date].
    change (negb ("reading" =? "reading")%string) with false. cbv iota.
    rewrite Hparse. cbn [mbind option_bind]. rewrite Ht1, Ht2.
    unfold iso_range, toISOString, lift, getGlucoseReadings, bind.
    cbn [r_startDate r_endDate]. fold window. rewrite Hremote, Hfind.
    reflexivity.
Qed.

End RoundTrip.

Lemma search_fetch_round_trip_witness :
  exists found : GlucoseReading,
    find_reading (Some "2024-01-15") [SampleHttp.day_reading] = Some found
    /\ date found = JStr "2024-01-15".
Proof.
  destruct (@search_fetch_round_trip SampleHttp.builtins_day SampleHttp.collaborator_day
              {| baseURL := "https://storage.example"; authToken := "secret";
                 isBearer := false |}
              (JStr "lucas@example.com") SampleHttp.day_reading
              "2024-01-15" 1705276800000 1705273200000 1705280400000
              [SampleHttp.day_reading] [] eq_refl eq_refl eq_refl eq_refl eq_refl eq_refl
              (or_introl eq_refl))
    as (_ & found & summary & Hfind & Hdate & _).
  by exists found.
Defined.

(* ===================================================================== *)
(** ** The stdio server and the single-tenant SSE server *)
(* ===================================================================== *)

Section TwoServers.
Context {B : Builtins} {C : Collaborator} {E : Environment}.


End TwoServers.


(* ===================================================================== *)
(** ** A stream that ends while it is set up *)
(* ===================================================================== *)

Section Leak.
Context {B : Builtins} {C : Collaborator} {E : Environment}.
Import OAuthServer.






End Leak.


